(** * ai_server_flask: the frame pipeline of the detection server

    A shallow embedding of the Python sources

    - [app/config/config.py]            (module [Config])
    - [app/utils/detection_storage.py]  (module [DetectionStorage])
    - [app/utils/video_stream.py]       (module [VideoStream])
    - [app/utils/yolo_detector.py]      (module [YOLODetector])
    - [app/__init__.py]                 (module [App])

    Python objects are records; methods are computations in a state and
    exception monad over the object and the outside world (event log,
    remote counters, array store, clock, camera, fault schedule of the
    external calls).  Threads are not interleaved: a critical section held
    under a lock is one step, and each loop is modelled by its iteration. *)

From Stdlib Require Import ZArith QArith Qabs String Ascii List Lia.
From Stdlib Require Import Floats.PrimFloat Floats.FloatOps Floats.SpecFloat Uint63.
From Stdlib Require Import Numbers.DecimalString Numbers.DecimalZ.
From stdpp Require Import gmap strings list.

Set Warnings "-inexact-float".

Local Open Scope string_scope.
Local Open Scope Z_scope.

(* ===================================================================== *)
(** ** Python values and control *)
(* ===================================================================== *)

Module Py.

(** Exceptions that the modelled code raises or catches.  All of them are
    subclasses of [Exception], so [except Exception] catches each one. *)
Inductive exn : Type :=
| ValueError (msg : string)
| AttributeError (msg : string)
| KeyError (msg : string)
| OverflowError (msg : string)
| ZeroDivisionError (msg : string)
| ExternalError (msg : string).

(** [str(e)] *)
Definition str_exn (e : exn) : string :=
  match e with
  | ValueError m | AttributeError m | KeyError m | OverflowError m
  | ZeroDivisionError m | ExternalError m => m
  end.

Inductive result (A : Type) : Type :=
| Ok (a : A)
| Raise (e : exn).
Arguments Ok {A} a.
Arguments Raise {A} e.

(** A computation over a mutable state [S]; the state survives a raise,
    as mutations made before a Python exception do. *)
Definition M (S A : Type) : Type := S -> result A * S.

Definition ret {S A} (a : A) : M S A := fun s => (Ok a, s).

Definition bind {S A B} (m : M S A) (k : A -> M S B) : M S B :=
  fun s => match m s with
           | (Ok a, s') => k a s'
           | (Raise e, s') => (Raise e, s')
           end.

Definition raise {S A} (e : exn) : M S A := fun s => (Raise e, s).

(** [try: body] / [except Exception as e: handler e] *)
Definition try_except {S A} (body : M S A) (handler : exn -> M S A) : M S A :=
  fun s => match body s with
           | (Ok a, s') => (Ok a, s')
           | (Raise e, s') => handler e s'
           end.

Definition gets {S A} (f : S -> A) : M S A := fun s => (Ok (f s), s).
Definition modify {S} (f : S -> S) : M S unit := fun s => (Ok tt, f s).
Definition lift_result {S A} (r : result A) : M S A := fun s => (r, s).

(** Run a computation on a component of the state. *)
Definition zoom {S T A} (proj : S -> T) (upd : T -> S -> S) (m : M T A) : M S A :=
  fun s => let (r, t') := m (proj s) in (r, upd t' s).

#[global] Instance M_ret {S} : MRet (M S) := @ret S.
#[global] Instance M_bind {S} : MBind (M S) := fun A B k m => bind m k.

(** [str(n)] for a Python integer. *)
Definition str_int (n : Z) : string := NilZero.string_of_int (Z.to_int n).

Definition is_digit (c : ascii) : bool :=
  let n := N_of_ascii c in ((48 <=? n) && (n <=? 57))%N.

Fixpoint all_digits (s : string) : bool :=
  match s with
  | EmptyString => true
  | String c s' => is_digit c && all_digits s'
  end.

(** [s.isdigit()] on ASCII text: non-empty and made of digits only. *)
Definition isdigit (s : string) : bool :=
  match s with
  | EmptyString => false
  | _ => all_digits s
  end.

(** The value of a digit string, most significant digit first. *)
Fixpoint int_digits (acc : Z) (s : string) : Z :=
  match s with
  | EmptyString => acc
  | String c s' => int_digits (10 * acc + (Z.of_N (N_of_ascii c) - 48)) s'
  end.

(** The white space that [int()] and [float()] strip, on ASCII text. *)
Definition is_space (c : ascii) : bool :=
  let n := N_of_ascii c in (((9 <=? n) && (n <=? 13)) || (n =? 32))%N.

Fixpoint lstrip (s : string) : string :=
  match s with
  | EmptyString => EmptyString
  | String c s' => if is_space c then lstrip s' else s
  end.

Fixpoint rstrip (s : string) : string :=
  match s with
  | EmptyString => EmptyString
  | String c s' =>
      match rstrip s' with
      | EmptyString => if is_space c then EmptyString else String c EmptyString
      | r => String c r
      end
  end.

Definition strip (s : string) : string := rstrip (lstrip s).

(** A run of digits at the head of [s], in which single underscores may
    stand between two digits: its digits and what follows it; [None] when
    [s] does not start with such a run.  [after_digit] tells whether the
    character before [s] is a digit of the run. *)
Fixpoint digitpart (after_digit : bool) (s : string) : option (string * string) :=
  match s with
  | EmptyString => if after_digit then Some (EmptyString, EmptyString) else None
  | String c s' =>
      if is_digit c then
        match digitpart true s' with
        | Some (ds, rest) => Some (String c ds, rest)
        | None => None
        end
      else if after_digit then
        if Ascii.eqb c "_" then digitpart false s' else Some (EmptyString, s)
      else None
  end.

(** The value of a text that is one such run of at most 4300 digits, the
    default of [sys.get_int_max_str_digits()]; [None] for any other text. *)
Definition grouped_digits (s : string) : option Z :=
  match digitpart false s with
  | Some (ds, EmptyString) =>
      if Z.of_nat (String.length ds) <=? 4300 then Some (int_digits 0 ds) else None
  | _ => None
  end.

(** [int(s)] on ASCII text: white space around, an optional sign, decimal
    digits with single underscores between them, 4300 digits at most;
    [None] stands for the [ValueError] of any other text. *)
Definition int_str (s : string) : option Z :=
  match strip s with
  | String "-"%char t =>
      match grouped_digits t with
      | Some n => Some (- n)
      | None => None
      end
  | String "+"%char t => grouped_digits t
  | t => grouped_digits t
  end.

(** [c.lower()] and [s.lower()] on ASCII text. *)
Definition lower_ascii (c : ascii) : ascii :=
  let n := N_of_ascii c in
  if ((65 <=? n) && (n <=? 90))%N then ascii_of_N (n + 32) else c.

Fixpoint lower (s : string) : string :=
  match s with
  | EmptyString => EmptyString
  | String c s' => String (lower_ascii c) (lower s')
  end.

(** The exponent of a float literal, or nothing. *)
Definition exponent_text (s : string) : bool :=
  match s with
  | EmptyString => true
  | String c t =>
      (Ascii.eqb c "e" || Ascii.eqb c "E")
      && match digitpart false
                 (match t with
                  | String "+"%char u | String "-"%char u => u
                  | _ => t
                  end) with
         | Some (_, EmptyString) => true
         | _ => false
         end
  end.

(** Digits with a point and digits after it, digits with a point, or a
    point with digits after it, then the exponent. *)
Definition decimal_text (s : string) : bool :=
  match s with
  | String "."%char t =>
      match digitpart false t with
      | Some (_, rest) => exponent_text rest
      | None => false
      end
  | _ =>
      match digitpart false s with
      | Some (_, String "."%char t) =>
          match digitpart false t with
          | Some (_, rest) => exponent_text rest
          | None => exponent_text t
          end
      | Some (_, rest) => exponent_text rest
      | None => false
      end
  end.

(** Whether [float(s)] returns, on ASCII text: white space around, an
    optional sign, then [inf], [infinity] or [nan] in any case, or a decimal
    literal; [false] stands for the [ValueError] of any other text. *)
Definition float_text (s : string) : bool :=
  let t := strip s in
  let u := match t with
           | String "+"%char r | String "-"%char r => r
           | _ => t
           end in
  bool_decide (lower u = "inf") || bool_decide (lower u = "infinity")
  || bool_decide (lower u = "nan") || decimal_text u.

(** Conversion of an integer to a binary64 float, as [float(n)] and the
    promotion of a numpy [int64] do (exact below 2^53). *)
Definition float_of_int (n : Z) : float :=
  if n <? 0 then PrimFloat.opp (PrimFloat.of_uint63 (Uint63.of_Z (- n)))
  else PrimFloat.of_uint63 (Uint63.of_Z n).

(** The exact rational value of a finite float. *)
Definition Q_of_float (f : float) : option Q :=
  match Prim2SF f with
  | S754_zero _ => Some 0%Q
  | S754_finite sg m e =>
      let z := if sg then Z.neg m else Z.pos m in
      Some (if 0 <=? e then inject_Z (z * 2 ^ e) else (z # Pos.pow 2 (Z.to_pos (- e))))
  | S754_infinity _ | S754_nan => None
  end.

(** [int(f)]: truncation toward zero; infinities and NaN raise. *)
Definition int_float (f : float) : result Z :=
  match Prim2SF f with
  | S754_zero _ => Ok 0
  | S754_finite sg m e =>
      let a := if 0 <=? e then Z.pos m * 2 ^ e else Z.pos m / 2 ^ (- e) in
      Ok (if sg then - a else a)
  | S754_infinity _ => Raise (OverflowError "cannot convert float infinity to integer")
  | S754_nan => Raise (ValueError "cannot convert float NaN to integer")
  end.

End Py.

Export Py.

(* ===================================================================== *)
(** ** app/config/config.py *)
(* ===================================================================== *)

Module Config.

(** The process environment, [os.environ], once [load_dotenv()] has added
    the variables of the [.env] file. *)
Abbreviation Environ := (gmap string string).

(** [os.getenv(key, default)] with a string default. *)
Definition getenv (environ : Environ) (key default : string) : string :=
  match environ !! key with
  | Some v => v
  | None => default
  end.

(** [int(os.getenv(key, default))] with an integer default; [None] is the
    [ValueError] raised at import time for a malformed value. *)
Definition getenv_int (environ : Environ) (key : string) (default : Z) : option Z :=
  match environ !! key with
  | Some v => int_str v
  | None => Some default
  end.

(** [float(os.getenv(key, default))] with a float default, as far as it
    raises: [None] is the [ValueError] raised at import time for a malformed
    value. *)
Definition getenv_float (environ : Environ) (key : string) : option unit :=
  match environ !! key with
  | Some v => if float_text v then Some tt else None
  | None => Some tt
  end.

(** The settings read by the modelled code, once the module is imported.
    The port and the two float thresholds are parsed at import, so that a
    malformed text fails it, and their values are not kept: no modelled code
    reads the port, and the thresholds of the detector are taken as given
    where they are used. *)
Record t : Type := mk {
  DEFAULT_STREAM_SOURCE : string;
  MODEL_PATH : string;
  FRAME_WIDTH : Z;
  FRAME_HEIGHT : Z;
  FPS : Z;
  DETECTION_STORAGE_PATH : string;
  SAVE_DETECTIONS : bool
}.

(** Importing [config.py] under an environment. *)
Definition load (environ : Environ) : option t :=
  getenv_int environ "PORT" 5000;;
  width ← getenv_int environ "FRAME_WIDTH" 640;
  height ← getenv_int environ "FRAME_HEIGHT" 480;
  fps ← getenv_int environ "FPS" 30;
  getenv_float environ "CONFIDENCE_THRESHOLD";;
  getenv_float environ "IOU_THRESHOLD";;
  Some {| DEFAULT_STREAM_SOURCE := getenv environ "STREAM_SOURCE" "0";
          MODEL_PATH := getenv environ "MODEL_PATH" "yolov11m.pt";
          FRAME_WIDTH := width;
          FRAME_HEIGHT := height;
          FPS := fps;
          DETECTION_STORAGE_PATH :=
            getenv environ "DETECTION_STORAGE_PATH" "app/static/datasets/mission";
          SAVE_DETECTIONS :=
            bool_decide (lower (getenv environ "SAVE_DETECTIONS" "True") = "true") |}.

End Config.

(* ===================================================================== *)
(** ** Arrays and the outside world *)
(* ===================================================================== *)

(** A numpy [uint8] image: [shape = (rows, columns, channels)] and the
    pixel bytes in row-major order. *)
Record ndarray : Type := mk_ndarray {
  shape : N * N * N;
  pixels : list N
}.

Definition well_formed (a : ndarray) : Prop :=
  let '(h, w, c) := shape a in
  N.of_nat (length (pixels a)) = (h * w * c)%N /\ Forall (fun p => (p < 256)%N) (pixels a).

(** [np.zeros((h, w, c), dtype=np.uint8)] *)
Definition np_zeros (h w c : N) : ndarray :=
  {| shape := (h, w, c); pixels := repeat 0%N (N.to_nat (h * w * c)) |}.
Arguments np_zeros : simpl never.

(** Arrays are objects: a variable holds the address of one. *)
Definition loc : Type := nat.

(** A video source: a URL or path, or a camera index. *)
Inductive Source : Type :=
| SrcStr (s : string)
| SrcInt (n : Z).

(** [f"{source}"] *)
Definition str_source (src : Source) : string :=
  match src with
  | SrcStr s => s
  | SrcInt n => str_int n
  end.

(** The YOLO label of a detection, [<class_id> <x_center> <y_center> <width>
    <height>]; the fields are kept apart, the decimal rendering of the floats
    is not modelled. *)
Record Label : Type := mk_Label {
  class_id : Z;
  x_center : float;
  y_center : float;
  bbox_width : float;
  bbox_height : float
}.

(** What the program does to the outside, in order. *)
Inductive Event : Type :=
| Print (text : string)
| PrintDetection (cls : string) (track_id : Z) (confidence timestamp : float)
| MakeDirs (path : string)
| Certificate (cred_path : string)
| FirebaseInit (database_url : string)
| Transaction (path : string)
| ImWrite (filepath : string) (img : ndarray)
| FileWrite (filepath : string) (content : Label)
| CaptureOpen (src : Source)
| CaptureSet (prop : string) (value : Z)
| CaptureRelease (src : Source)
| ThreadStart (target : string)
| ThreadJoin (target : string)
| Sleep (seconds : float).

(** The outside world.  [faults] is the fault schedule: each fallible
    external call takes its head, and [Some e] makes that call raise [e].
    [arrays] is the store of array objects, allocated up to [next_loc].
    [clock] gives the successive readings of [time.time()].  [can_open]
    tells which sources the capture backend opens, and [feed] is what the
    opened capture delivers, [None] being a failed read. *)
Record World : Type := mk_World {
  events : list Event;
  dirs : gset string;
  counters : gmap string Z;
  faults : list (option exn);
  arrays : loc -> ndarray;
  next_loc : loc;
  clock : nat -> float;
  ticks : nat;
  can_open : Source -> bool;
  feed : list (option ndarray)
}.

Module Ext.

Definition set_events (x : list Event) (w : World) : World :=
  mk_World x (dirs w) (counters w) (faults w) (arrays w) (next_loc w)
    (clock w) (ticks w) (can_open w) (feed w).

Definition set_dirs (x : gset string) (w : World) : World :=
  mk_World (events w) x (counters w) (faults w) (arrays w) (next_loc w)
    (clock w) (ticks w) (can_open w) (feed w).

Definition set_counters (x : gmap string Z) (w : World) : World :=
  mk_World (events w) (dirs w) x (faults w) (arrays w) (next_loc w)
    (clock w) (ticks w) (can_open w) (feed w).

Definition set_faults (x : list (option exn)) (w : World) : World :=
  mk_World (events w) (dirs w) (counters w) x (arrays w) (next_loc w)
    (clock w) (ticks w) (can_open w) (feed w).

Definition set_arrays (x : loc -> ndarray) (n : loc) (w : World) : World :=
  mk_World (events w) (dirs w) (counters w) (faults w) x n
    (clock w) (ticks w) (can_open w) (feed w).

Definition set_ticks (x : nat) (w : World) : World :=
  mk_World (events w) (dirs w) (counters w) (faults w) (arrays w) (next_loc w)
    (clock w) x (can_open w) (feed w).

Definition set_feed (x : list (option ndarray)) (w : World) : World :=
  mk_World (events w) (dirs w) (counters w) (faults w) (arrays w) (next_loc w)
    (clock w) (ticks w) (can_open w) x.

Definition emit (ev : Event) (w : World) : World :=
  set_events (events w ++ [ev]) w.

(** [print(text)] *)
Definition print (text : string) : M World unit := modify (emit (Print text)).

(** An external call that cannot fail. *)
Definition perform (ev : Event) : M World unit := modify (emit ev).

(** A fallible external call: the attempt is logged, and it raises when
    the schedule says so. *)
Definition call (ev : Event) : M World unit :=
  fun w => match faults w with
           | Some e :: _ => (Raise e, emit ev (set_faults (tail (faults w)) w))
           | _ => (Ok tt, emit ev (set_faults (tail (faults w)) w))
           end.

(** [ref.transaction(f)]: unless the call fails, the remote value at [path]
    is replaced by [f] of the current one ([None] when absent). *)
Definition transaction (path : string) (f : option Z -> Z) : M World unit :=
  fun w => match faults w with
           | Some e :: _ => (Raise e, emit (Transaction path) (set_faults (tail (faults w)) w))
           | _ => (Ok tt, set_counters (<[path := f (counters w !! path)]> (counters w))
                            (emit (Transaction path) (set_faults (tail (faults w)) w)))
           end.

(** [time.time()] *)
Definition time : M World float :=
  fun w => (Ok (clock w (ticks w)), set_ticks (S (ticks w)) w).

(** A new array object holding [a]. *)
Definition alloc (a : ndarray) : M World loc :=
  fun w => (Ok (next_loc w),
            set_arrays (fun l => if Nat.eqb l (next_loc w) then a else arrays w l)
                       (S (next_loc w)) w).

(** [frame.copy()] *)
Definition copy (l : loc) : M World loc :=
  fun w => alloc (arrays w l) w.

(** In-place update of the array at [l], as the drawing calls do. *)
Definition mutate (l : loc) (f : ndarray -> ndarray) : M World unit :=
  modify (fun w => set_arrays (fun l' => if Nat.eqb l' l then f (arrays w l) else arrays w l')
                              (next_loc w) w).

(** [os.path.join(a, b)] *)
Definition ends_with_slash (s : string) : bool :=
  match String.rev s with
  | String c _ => bool_decide (c = "/"%char)
  | EmptyString => false
  end.

Definition path_join (a b : string) : string :=
  match b with
  | String "/"%char _ => b
  | _ => if bool_decide (a = "") || ends_with_slash a then a ++ b
         else a ++ "/" ++ b
  end.

End Ext.

(* ===================================================================== *)
(** ** app/utils/detection_storage.py *)
(* ===================================================================== *)

(** A detection dictionary as [detect_and_track] builds it; [count] is the
    optional key read by [store_to_firebase].  The box corners are numpy
    integers, the time stamp is a reading of [time.time()]. *)
Record Detection : Type := mk_Detection {
  class : string;
  confidence : float;
  bbox : Z * Z * Z * Z;
  track_id : Z;
  timestamp : float;
  count : option Z
}.

Module DetectionStorage.

Import Ext.

(** The instance attributes. *)
Record t : Type := mk {
  storage_path : string;
  seen_objects : gset string;
  firebase_app : option string;
  db_ref : option string
}.

(** The object together with the world its methods act on. *)
Record St : Type := mk_St {
  self : t;
  world : World
}.

Definition ext {A} (m : M World A) : M St A :=
  zoom world (fun w s => mk_St (self s) w) m.

Definition update_self (f : t -> t) : M St unit :=
  modify (fun s => mk_St (f (self s)) (world s)).

Definition set_firebase_app (a : string) (o : t) : t :=
  mk (storage_path o) (seen_objects o) (Some a) (db_ref o).

Definition set_db_ref (r : string) (o : t) : t :=
  mk (storage_path o) (seen_objects o) (firebase_app o) (Some r).

Definition add_seen (object_id : string) (o : t) : t :=
  mk (storage_path o) ({[object_id]} ∪ seen_objects o) (firebase_app o) (db_ref o).

Definition ensure_storage_directory : M St unit :=
  path ← gets (fun s => storage_path (self s));
  exists_ ← gets (fun s => bool_decide (path ∈ dirs (world s)));
  if negb exists_ then
    ext (call (MakeDirs path));;
    ext (modify (fun w => set_dirs ({[path]} ∪ dirs w) w));;
    ext (print ("Created detection storage directory: " ++ path))
  else mret tt.

Definition database_url : string :=
  "https://oceancleaner-741db-default-rtdb.firebaseio.com/".

(** [os.path.join(os.path.dirname(__file__), '..', 'config',
    'firebase-credentials.json')], the module living in directory [here]. *)
Definition cred_path (here : string) : string :=
  path_join (path_join (path_join here "..") "config") "firebase-credentials.json".

(** [db.reference] builds a local handle and is no external call. *)
Definition initialize_firebase (here : string) : M St unit :=
  try_except
    (ext (call (Certificate (cred_path here)));;
     ext (call (FirebaseInit database_url));;
     update_self (set_firebase_app database_url);;
     update_self (set_db_ref "detections");;
     ext (print "Firebase initialized successfully"))
    (fun e => ext (print ("Error initializing Firebase: " ++ str_exn e))).

(** [DetectionStorage(storage_path)] *)
Definition init (here storage_path : string) (w : World) : result unit * St :=
  (ensure_storage_directory;; initialize_firebase here)
    (mk_St (mk storage_path ∅ None None) w).

(** [f"{detection['class']}_{detection['track_id']}"] *)
Definition object_id (detection : Detection) : string :=
  class detection ++ "_" ++ str_int (track_id detection).

(** [datetime.fromtimestamp] accepts the finite stamps of the years 1 to
    9999 and raises on the others. *)
Definition fromtimestamp (ts : float) : result Z :=
  match int_float ts with
  | Ok n => if (-62135596800 <=? n) && (n <? 253402300800) then Ok n
            else Raise (ValueError "year is out of range")
  | Raise e => Raise e
  end.

(** The closure handed to the transaction. *)
Definition increment_count (count : Z) (current : option Z) : Z :=
  match current with
  | None => count
  | Some c => c + count
  end.

Definition waste_types : list string := ["metal"; "glass"; "plastic"].

(** [db.reference('statistics/wasteTypes').child(waste_type)] builds the
    handle locally; the external call is the transaction. *)
Definition store_to_firebase (detection : Detection) : M St unit :=
  ref ← gets (fun s => db_ref (self s));
  match ref with
  | None => ext (print "Firebase not initialized, skipping data storage")
  | Some _ =>
      try_except
        (let waste_type := lower (class detection) in
         if negb (bool_decide (waste_type ∈ waste_types)) then
           ext (print ("Unknown waste type '" ++ waste_type
                       ++ "', skipping Firebase update."))
         else
           let count := default 1 (count detection) in
           let waste_type_ref := "statistics/wasteTypes/" ++ waste_type in
           ext (transaction waste_type_ref (increment_count count));;
           ext (print ("Updated Firebase: Added " ++ str_int count ++ " to "
                       ++ waste_type ++ " count.")))
        (fun e => ext (print ("Error updating statistics/wasteTypes in Firebase: "
                              ++ str_exn e)))
  end.

(** [f"{timestamp}_{detection['class']}_{detection['track_id']}"] with its
    extension. *)
Definition filename (timestamp : Z) (detection : Detection) (suffix : string) : string :=
  str_int timestamp ++ "_" ++ class detection ++ "_"
  ++ str_int (track_id detection) ++ suffix.

Definition save_detection_image (detection : Detection) (frame : ndarray) : M St unit :=
  try_except
    (timestamp ← lift_result (int_float (timestamp detection));
     path ← gets (fun s => storage_path (self s));
     let filepath := path_join path (filename timestamp detection ".jpg") in
     ext (call (ImWrite filepath frame));;
     ext (print ("Saved detection image: " ++ filepath)))
    (fun e => ext (print ("Error saving detection image: " ++ str_exn e))).

(** The normalised box: numpy integer corners, true division in binary64. *)
Definition yolo_label (detection : Detection) (frame : ndarray) : Label :=
  let '(height, width, _) := shape frame in
  let '(x1, y1, x2, y2) := bbox detection in
  let w := float_of_int (Z.of_N width) in
  let h := float_of_int (Z.of_N height) in
  {| class_id := 0%Z;
     x_center := (float_of_int (x1 + x2) / 2) / w;
     y_center := (float_of_int (y1 + y2) / 2) / h;
     bbox_width := float_of_int (x2 - x1) / w;
     bbox_height := float_of_int (y2 - y1) / h |}%float.

Definition save_detection_label (detection : Detection) (frame : ndarray) : M St unit :=
  try_except
    (let label := yolo_label detection frame in
     timestamp ← lift_result (int_float (timestamp detection));
     path ← gets (fun s => storage_path (self s));
     let filepath := path_join path (filename timestamp detection ".txt") in
     ext (call (FileWrite filepath label));;
     ext (print ("Saved detection label: " ++ filepath)))
    (fun e => ext (print ("Error saving detection label: " ++ str_exn e))).

Section WithConfig.

Variable config : Config.t.

Definition store_detection (detection : Detection) (frame : ndarray) : M St bool :=
  seen ← gets (fun s => seen_objects (self s));
  let is_new_detection := bool_decide (object_id detection ∉ seen) in
  store_to_firebase detection;;
  lift_result (fromtimestamp (timestamp detection));;
  ext (perform (PrintDetection (class detection) (track_id detection)
                  (confidence detection) (timestamp detection)));;
  (if is_new_detection && Config.SAVE_DETECTIONS config then
     save_detection_image detection frame;;
     save_detection_label detection frame;;
     update_self (add_seen (object_id detection))
   else mret tt);;
  mret is_new_detection.

End WithConfig.

End DetectionStorage.

(* ===================================================================== *)
(** ** app/utils/video_stream.py *)
(* ===================================================================== *)

Module VideoStream.

Import Ext.

(** A [cv2.VideoCapture] handle. *)
Record Capture : Type := mk_Capture {
  cap_source : Source;
  opened : bool
}.

(** The instance attributes; the lock guards [frame] and
    [last_frame_time]. *)
Record t : Type := mk {
  source : Source;
  stream : option Capture;
  frame : option loc;
  stopped : bool;
  fps : Z;
  last_frame_time : float;
  frame_count : Z;
  actual_fps : float
}.

Record St : Type := mk_St {
  self : t;
  world : World
}.

Definition ext {A} (m : M World A) : M St A :=
  zoom world (fun w s => mk_St (self s) w) m.

Definition update_self (f : t -> t) : M St unit :=
  modify (fun s => mk_St (f (self s)) (world s)).

Definition set_source (x : Source) (o : t) : t :=
  mk x (stream o) (frame o) (stopped o) (fps o) (last_frame_time o)
     (frame_count o) (actual_fps o).

Definition set_stream (x : option Capture) (o : t) : t :=
  mk (source o) x (frame o) (stopped o) (fps o) (last_frame_time o)
     (frame_count o) (actual_fps o).

Definition set_stopped (x : bool) (o : t) : t :=
  mk (source o) (stream o) (frame o) x (fps o) (last_frame_time o)
     (frame_count o) (actual_fps o).

Definition set_frame_count (x : Z) (o : t) : t :=
  mk (source o) (stream o) (frame o) (stopped o) (fps o) (last_frame_time o)
     x (actual_fps o).

Definition set_actual_fps (x : float) (o : t) : t :=
  mk (source o) (stream o) (frame o) (stopped o) (fps o) (last_frame_time o)
     (frame_count o) x.

(** The critical section of [_update]:
    [self.frame = frame; self.last_frame_time = current_time]. *)
Definition publish (fr : loc) (current_time : float) (o : t) : t :=
  mk (source o) (stream o) (Some fr) (stopped o) (fps o) current_time
     (frame_count o) (actual_fps o).

(** [cv2.VideoCapture(src)] *)
Definition VideoCapture (src : Source) : M World Capture :=
  fun w => (Ok (mk_Capture src (can_open w src)), emit (CaptureOpen src) w).

(** [ret, frame = stream.read()]: [None] is [ret == False]. *)
Definition capture_read (cap : Capture) : M World (option loc) :=
  if opened cap then
    fun w => match feed w with
             | Some a :: rest =>
                 let (r, w') := alloc a (set_feed rest w) in
                 (match r with Ok l => Ok (Some l) | Raise e => Raise e end, w')
             | None :: rest => (Ok None, set_feed rest w)
             | [] => (Ok None, w)
             end
  else mret None.

(** The head of [start]: a digit string names a camera index. *)
Definition camera_index (src : Source) : Source :=
  match src with
  | SrcStr s => if isdigit s then SrcInt (int_digits 0 s) else src
  | SrcInt _ => src
  end.

Section WithConfig.

Variable config : Config.t.

(** [VideoStream(source)] *)
Definition init (src : Source) : t :=
  mk src None None false (Config.FPS config) 0%float 0 0%float.

Definition start : M St unit :=
  update_self (fun o => set_source (camera_index (source o)) o);;
  src ← gets (fun s => source (self s));
  cap ← ext (VideoCapture src);
  update_self (set_stream (Some cap));;
  if negb (opened cap) then
    raise (ValueError ("Could not open video source: " ++ str_source src))
  else
    ext (perform (CaptureSet "CAP_PROP_FRAME_WIDTH" (Config.FRAME_WIDTH config)));;
    ext (perform (CaptureSet "CAP_PROP_FRAME_HEIGHT" (Config.FRAME_HEIGHT config)));;
    update_self (set_stopped false);;
    ext (perform (ThreadStart "VideoStream._update")).

(** How one pass through the body of [while not self.stopped] ends. *)
Inductive Flow : Type :=
| Continue (last_fps_calc_time : float)
| Break.

(** The body of the producer loop; the pacing sleep is an event. *)
Definition update_iteration (last_fps_calc_time : float) : M St Flow :=
  st ← gets (fun s => stream (self s));
  match st with
  | None => raise (AttributeError "'NoneType' object has no attribute 'read'")
  | Some cap =>
      r ← ext (capture_read cap);
      match r with
      | None =>
          src ← gets (fun s => source (self s));
          ext (print ("Error reading frame from source: " ++ str_source src));;
          update_self (set_stopped true);;
          mret Break
      | Some fr =>
          current_time ← ext time;
          update_self (fun o => set_frame_count (frame_count o + 1) o);;
          last ← (if (1 <=? current_time - last_fps_calc_time)%float then
                    update_self (fun o =>
                      set_actual_fps (float_of_int (frame_count o)
                                      / (current_time - last_fps_calc_time))%float o);;
                    update_self (set_frame_count 0);;
                    mret current_time
                  else mret last_fps_calc_time);
          update_self (publish fr current_time);;
          rate ← gets (fun s => fps (self s));
          if rate =? 0 then raise (ZeroDivisionError "float division by zero")
          else
            now ← ext time;
            let slack := (1 / float_of_int rate - (now - current_time))%float in
            let time_to_sleep := if (0 <? slack)%float then slack else 0%float in
            (if (0 <? time_to_sleep)%float then ext (perform (Sleep time_to_sleep))
             else mret tt);;
            mret (Continue last)
      end
  end.

Inductive LoopStatus : Type :=
| Looping
| Exited.

(** [while not self.stopped: ...], for at most [fuel] passes. *)
Fixpoint update_loop (fuel : nat) (last_fps_calc_time : float) : M St LoopStatus :=
  match fuel with
  | O => mret Looping
  | S fuel' =>
      halt ← gets (fun s : St => stopped (self s));
      if (halt : bool) then mret Exited
      else
        flow ← update_iteration last_fps_calc_time;
        match flow with
        | Break => mret Exited
        | Continue last => update_loop fuel' last
        end
  end.

Definition _update (fuel : nat) : M St LoopStatus :=
  last_fps_calc_time ← ext time;
  update_loop fuel last_fps_calc_time.

(** [read]: the whole body runs under the lock. *)
Definition read : M St (option loc) :=
  fr ← gets (fun s => frame (self s));
  match fr with
  | None => mret None
  | Some l => l' ← ext (copy l); mret (Some l')
  end.

Definition stop : M St unit :=
  update_self (set_stopped true);;
  st ← gets (fun s => stream (self s));
  match st with
  | Some cap =>
      ext (perform (CaptureRelease (cap_source cap)));;
      update_self (set_stream (Some (mk_Capture (cap_source cap) false)))
  | None => mret tt
  end.

Definition is_stopped : M St bool := gets (fun s => stopped (self s)).

Definition change_source (new_source : Source) : M St bool :=
  stop;;
  update_self (set_source new_source);;
  try_except
    (start;; mret true)
    (fun e => ext (print ("Error changing video source: " ++ str_exn e));; mret false).

Definition get_fps : M St float := gets (fun s => actual_fps (self s)).

End WithConfig.

End VideoStream.

(* ===================================================================== *)
(** ** app/utils/yolo_detector.py *)
(* ===================================================================== *)

(** The calls that draw on a frame. *)
Inductive DrawOp : Type :=
| Rectangle (p1 p2 : Z * Z) (color : Z * Z * Z) (thickness : Z)
| PutLabel (class_name : string) (conf : float) (tid : option Z)
           (org : Z * Z) (color : Z * Z * Z)
| Line (p q : Z * Z) (color : Z * Z * Z) (thickness : Z)
| PutFPS (value : float).

Module YOLODetector.

Import Ext.

(** What [model.track] returns for one image. *)
Record Boxes : Type := mk_Boxes {
  xyxy : list (float * float * float * float);
  cls : list float;
  conf : list float;
  ids : option (list Z)
}.

Record Result : Type := mk_Result {
  boxes : Boxes;
  names : gmap Z string
}.

(** The most recent centre points of each track. *)
Abbreviation History := (gmap Z (list (Z * Z))).

(** [abs(int(idx)) * 3] spread over three channels. *)
Definition _get_color (idx : Z) : Z * Z * Z :=
  let idx := Z.abs idx * 3 in
  ((37 * idx) mod 255, (17 * idx) mod 255, (29 * idx) mod 255).

(** [box.astype(int)] on one coordinate: truncation toward zero; the
    non-finite values go to the least [int64]. *)
Definition astype_int (x : float) : Z :=
  match int_float x with
  | Ok n => n
  | Raise _ => - 2 ^ 63
  end.

(** [(int((x1 + x2) / 2), int((y1 + y2) / 2))]: the quotient truncated
    toward zero (the float division is exact on pixel coordinates). *)
Definition center_of (box : Z * Z * Z * Z) : Z * Z :=
  let '(x1, y1, x2, y2) := box in
  (Z.quot (x1 + x2) 2, Z.quot (y1 + y2) 2).

(** The update of [self.track_history] for one tracked box:
    create the entry, append the centre, drop the oldest point beyond 30. *)
Definition update_history (tid : Z) (center : Z * Z) (h : History) : History :=
  let h1 := match h !! tid with
            | None => <[tid := []]> h
            | Some _ => h
            end in
  let h2 := alter (fun l => (l ++ [center])%list) tid h1 in
  alter (fun l => if (30 <? length l)%nat then tail l else l) tid h2.

(** The segments joining consecutive points of a trail. *)
Definition trail (color : Z * Z * Z) (l : list (Z * Z)) : list DrawOp :=
  if (1 <? length l)%nat then
    (fun pq : (Z * Z) * (Z * Z) => Line pq.1 pq.2 color 2) <$> zip l (tail l)
  else [].

(** [for x in l: body x], collecting what the bodies produce. *)
Fixpoint for_each {S A B} (l : list A) (body : A -> M S B) : M S (list B) :=
  match l with
  | [] => mret []
  | x :: l' => y ← body x; ys ← for_each l' body; mret (y :: ys)
  end.

Section WithEngine.

(** The detection engine is a black box: its weights, how they load, how
    it tracks (the tracker state lives in the model, [persist=True]), and
    how the drawing calls change an image. *)
Variable Model : Type.
Variable YOLO : string -> result Model.
Variable track : Model -> ndarray -> float -> float -> result (list Result) * Model.
Variable render : DrawOp -> ndarray -> ndarray.

(** The instance attributes. *)
Record t : Type := mk {
  conf_threshold : float;
  iou_threshold : float;
  model : option Model;
  tracker : option unit;
  track_history : History
}.

Record St : Type := mk_St {
  self : t;
  world : World
}.

Definition ext {A} (m : M World A) : M St A :=
  zoom world (fun w s => mk_St (self s) w) m.

Definition update_self (f : t -> t) : M St unit :=
  modify (fun s => mk_St (f (self s)) (world s)).

Definition set_model (x : option Model) (o : t) : t :=
  mk (conf_threshold o) (iou_threshold o) x (tracker o) (track_history o).

Definition set_track_history (x : History) (o : t) : t :=
  mk (conf_threshold o) (iou_threshold o) (model o) (tracker o) x.

Definition draw (fr : loc) (op : DrawOp) : M St unit :=
  ext (mutate fr (render op)).

(** [YOLODetector(model_path, conf_threshold, iou_threshold)] *)
Definition init (model_path : string) (conf_threshold iou_threshold : float)
    (w : World) : result unit * St :=
  (try_except
     (m ← lift_result (YOLO model_path);
      update_self (set_model (Some m));;
      ext (print ("YOLOv11m model loaded successfully from " ++ model_path)))
     (fun e =>
        ext (print ("Error loading YOLOv11m model: " ++ str_exn e));;
        try_except
          (m ← lift_result (YOLO "yolov8n.pt");
           update_self (set_model (Some m));;
           ext (print "Fallback to YOLOv8n model"))
          (fun e' =>
             ext (print ("Error loading fallback model: " ++ str_exn e'));;
             update_self (set_model None))))
    (mk_St (mk conf_threshold iou_threshold None None ∅) w).

(** [class_names[int(cls_id)]] *)
Definition class_name_of (class_names : gmap Z string) (cls_id : float) : M St string :=
  k ← lift_result (int_float cls_id);
  match class_names !! k with
  | Some name => mret name
  | None => raise (KeyError (str_int k))
  end.

Definition box_int (box : float * float * float * float) : Z * Z * Z * Z :=
  let '(x1, y1, x2, y2) := box in
  (astype_int x1, astype_int y1, astype_int x2, astype_int y2).

(** The body of the loop over tracked boxes. *)
Definition tracked_box (processed_frame : loc) (class_names : gmap Z string)
    (item : (float * float * float * float) * float * float * Z) : M St Detection :=
  let '(box, cls_id, cf, tid) := item in
  let '(x1, y1, x2, y2) := box_int box in
  class_name ← class_name_of class_names cls_id;
  now ← ext time;
  let detection := mk_Detection class_name cf (x1, y1, x2, y2) tid now None in
  let color := _get_color tid in
  draw processed_frame (Rectangle (x1, y1) (x2, y2) color 2);;
  draw processed_frame (PutLabel class_name cf (Some tid) (x1, y1 - 10) color);;
  update_self (fun o =>
    set_track_history
      (update_history tid (center_of (x1, y1, x2, y2)) (track_history o)) o);;
  points ← gets (fun s => default [] (track_history (self s) !! tid));
  for_each (trail color points) (draw processed_frame);;
  mret detection.

(** The body of the loop over boxes without tracking identifiers: the
    index in the frame stands for the identifier. *)
Definition plain_box (processed_frame : loc) (class_names : gmap Z string)
    (item : nat * ((float * float * float * float) * float * float)) : M St Detection :=
  let '(i, (box, cls_id, cf)) := item in
  let '(x1, y1, x2, y2) := box_int box in
  class_name ← class_name_of class_names cls_id;
  now ← ext time;
  let detection := mk_Detection class_name cf (x1, y1, x2, y2) (Z.of_nat i) now None in
  let color := _get_color (Z.of_nat i) in
  draw processed_frame (Rectangle (x1, y1) (x2, y2) color 2);;
  draw processed_frame (PutLabel class_name cf None (x1, y1 - 10) color);;
  mret detection.

Definition detect_and_track (frame : loc) : M St (loc * list Detection) :=
  engine ← gets (fun s => model (self s));
  match engine with
  | None => mret (frame, [])
  | Some m =>
      image ← ext (gets (fun w => arrays w frame));
      conf_t ← gets (fun s => conf_threshold (self s));
      iou_t ← gets (fun s => iou_threshold (self s));
      let (results, m') := track m image conf_t iou_t in
      update_self (set_model (Some m'));;
      results ← lift_result results;
      processed_frame ← ext (copy frame);
      match results with
      | [] => mret (processed_frame, [])
      | result :: _ =>
          let b := boxes result in
          match ids b with
          | Some track_ids =>
              detections ← for_each (zip (zip (zip (xyxy b) (cls b)) (conf b)) track_ids)
                             (tracked_box processed_frame (names result));
              mret (processed_frame, detections)
          | None =>
              detections ← for_each (imap pair (zip (zip (xyxy b) (cls b)) (conf b)))
                             (plain_box processed_frame (names result));
              mret (processed_frame, detections)
          end
      end
  end.

End WithEngine.

End YOLODetector.

(* ===================================================================== *)
(** ** app/__init__.py *)
(* ===================================================================== *)

(** The JSON object of a status reply. *)
Record Response : Type := mk_Response {
  status : string;
  message : string
}.

Record StatusReport : Type := mk_StatusReport {
  report_stream_active : bool;
  report_fps : float;
  report_source : option Source;
  report_is_stopped : bool
}.

Module App.

Import Ext.

Section WithEngine.

Variable config : Config.t.
Variable Model : Type.
Variable YOLO : string -> result Model.
Variable track : Model -> ndarray -> float -> float -> result (list YOLODetector.Result) * Model.
Variable render : DrawOp -> ndarray -> ndarray.
Variables CONFIDENCE_THRESHOLD IOU_THRESHOLD : float.

(** [cv2.imencode('.jpg', img)] followed by [buffer.tobytes()]. *)
Variable imencode : ndarray -> result string.

(** The directory of [detection_storage.py]. *)
Variable here : string.

(** The module globals; [processing_lock] guards [processing_frame]. *)
Record Globals : Type := mk {
  video_stream : option VideoStream.t;
  yolo_detector : option (YOLODetector.t Model);
  detection_storage : option DetectionStorage.t;
  processing_thread : option string;
  processing_frame : option loc;
  stream_active : bool
}.

Record St : Type := mk_St {
  globals : Globals;
  world : World
}.

(** The interpreter state at import. *)
Definition initial (w : World) : St :=
  mk_St (mk None None None None None false) w.

Definition ext {A} (m : M World A) : M St A :=
  zoom world (fun w s => mk_St (globals s) w) m.

Definition update_globals (f : Globals -> Globals) : M St unit :=
  modify (fun s => mk_St (f (globals s)) (world s)).

Definition set_video_stream (x : option VideoStream.t) (g : Globals) : Globals :=
  mk x (yolo_detector g) (detection_storage g) (processing_thread g)
     (processing_frame g) (stream_active g).

Definition set_yolo_detector (x : option (YOLODetector.t Model)) (g : Globals) : Globals :=
  mk (video_stream g) x (detection_storage g) (processing_thread g)
     (processing_frame g) (stream_active g).

Definition set_detection_storage (x : option DetectionStorage.t) (g : Globals) : Globals :=
  mk (video_stream g) (yolo_detector g) x (processing_thread g)
     (processing_frame g) (stream_active g).

Definition set_processing_thread (x : option string) (g : Globals) : Globals :=
  mk (video_stream g) (yolo_detector g) (detection_storage g) x
     (processing_frame g) (stream_active g).

Definition set_processing_frame (x : option loc) (g : Globals) : Globals :=
  mk (video_stream g) (yolo_detector g) (detection_storage g) (processing_thread g)
     x (stream_active g).

Definition set_stream_active (x : bool) (g : Globals) : Globals :=
  mk (video_stream g) (yolo_detector g) (detection_storage g) (processing_thread g)
     (processing_frame g) x.

Definition none_has_no (attr : string) : exn :=
  AttributeError ("'NoneType' object has no attribute '" ++ attr ++ "'").

(** A method call on the global [video_stream]. *)
Definition on_video_stream {A} (attr : string) (m : M VideoStream.St A) : M St A :=
  fun s => match video_stream (globals s) with
           | None => (Raise (none_has_no attr), s)
           | Some o =>
               let (r, s') := m (VideoStream.mk_St o (world s)) in
               (r, mk_St (set_video_stream (Some (VideoStream.self s')) (globals s))
                         (VideoStream.world s'))
           end.

(** A method call on the global [yolo_detector]. *)
Definition on_yolo_detector {A} (attr : string) (m : M (YOLODetector.St Model) A) : M St A :=
  fun s => match yolo_detector (globals s) with
           | None => (Raise (none_has_no attr), s)
           | Some o =>
               let (r, s') := m (YOLODetector.mk_St Model o (world s)) in
               (r, mk_St (set_yolo_detector (Some (YOLODetector.self Model s')) (globals s))
                         (YOLODetector.world Model s'))
           end.

(** A method call on the global [detection_storage]. *)
Definition on_detection_storage {A} (attr : string) (m : M DetectionStorage.St A) : M St A :=
  fun s => match detection_storage (globals s) with
           | None => (Raise (none_has_no attr), s)
           | Some o =>
               let (r, s') := m (DetectionStorage.mk_St o (world s)) in
               (r, mk_St (set_detection_storage (Some (DetectionStorage.self s')) (globals s))
                         (DetectionStorage.world s'))
           end.

(** [VideoStream(src).start()]: the new object is returned only when
    [start] does not raise. *)
Definition new_video_stream (src : Source) : M St VideoStream.t :=
  fun s => let (r, s') := VideoStream.start config
                            (VideoStream.mk_St (VideoStream.init config src) (world s)) in
           (match r with
            | Ok _ => Ok (VideoStream.self s')
            | Raise e => Raise e
            end, mk_St (globals s) (VideoStream.world s')).

(** [name = Class(...)]: the global is bound only when the constructor
    returns. *)
Definition construct {O} (ctor : World -> result unit * O) (obj : O -> Globals -> Globals)
    (wld : O -> World) : M St unit :=
  fun s => let (r, o) := ctor (world s) in
           match r with
           | Ok _ => (Ok tt, mk_St (obj o (globals s)) (wld o))
           | Raise e => (Raise e, mk_St (globals s) (wld o))
           end.

Definition initialize_components : M St unit :=
  construct (YOLODetector.init Model YOLO (Config.MODEL_PATH config)
               CONFIDENCE_THRESHOLD IOU_THRESHOLD)
            (fun o => set_yolo_detector (Some (YOLODetector.self Model o)))
            (YOLODetector.world Model);;
  o ← new_video_stream (SrcStr (Config.DEFAULT_STREAM_SOURCE config));
  update_globals (set_video_stream (Some o));;
  construct (DetectionStorage.init here (Config.DETECTION_STORAGE_PATH config))
            (fun o => set_detection_storage (Some (DetectionStorage.self o)))
            DetectionStorage.world;;
  ext (print "All components initialized successfully").

(** One pass through the body of [while stream_active] in
    [process_frames]. *)
Definition process_iteration : M St unit :=
  frame ← on_video_stream "read" VideoStream.read;
  match frame with
  | None =>
      ext (print "No frame available, waiting...");;
      ext (perform (Sleep 0.1))
  | Some fr =>
      '(processed_frame, detections) ←
        on_yolo_detector "detect_and_track"
          (YOLODetector.detect_and_track Model track render fr);
      YOLODetector.for_each detections (fun detection =>
        image ← ext (gets (fun w => arrays w fr));
        on_detection_storage "store_detection"
          (DetectionStorage.store_detection config detection image));;
      fps ← on_video_stream "get_fps" VideoStream.get_fps;
      ext (mutate processed_frame (render (PutFPS fps)));;
      update_globals (set_processing_frame (Some processed_frame));;
      ext (perform (Sleep 0.01))
  end.

Inductive LoopStatus : Type :=
| Looping
| Exited.

(** [process_frames], for at most [fuel] passes. *)
Fixpoint process_loop (fuel : nat) : M St LoopStatus :=
  match fuel with
  | O => mret Looping
  | S fuel' =>
      active ← gets (fun s => stream_active (globals s));
      if (active : bool) then process_iteration;; process_loop fuel'
      else ext (print "Frame processing thread stopped");; mret Exited
  end.

Definition process_frames (fuel : nat) : M St LoopStatus :=
  ext (print "Frame processing thread started");;
  process_loop fuel.

Definition CRLF : string := String "013" (String "010" "").

(** The part yielded for one encoded frame. *)
Definition chunk (frame_data : string) : string :=
  "--frame" ++ CRLF ++ "Content-Type: image/jpeg" ++ CRLF ++ CRLF ++ frame_data ++ CRLF.

(** One pass through the body of [while True] in [generate_frames], up to
    the [yield]; the encoding runs under [processing_lock]. *)
Definition next_frame : M St string :=
  current ← gets (fun s => processing_frame (globals s));
  frame_data ← match current with
               | None =>
                   let blank_frame := np_zeros 480 640 3 in
                   lift_result (imencode blank_frame)
               | Some l =>
                   image ← ext (gets (fun w => arrays w l));
                   lift_result (imencode image)
               end;
  mret (chunk frame_data).

(** The first [n] parts a viewer pulls from [generate_frames()].  The
    generator is suspended at each [yield]: it sleeps only when it is resumed
    for a further part, so that after [n] parts it has slept [n - 1] times. *)
Fixpoint generate_frames (n : nat) : M St (list string) :=
  match n with
  | O => mret []
  | S n' =>
      part ← next_frame;
      match n' with
      | O => mret [part]
      | S _ =>
          ext (perform (Sleep 0.033));;
          parts ← generate_frames n';
          mret (part :: parts)
      end
  end.

(** [start_stream]; [body] is [request.get_json()]: [None] when the request
    carries no JSON object, else the value of its ['source'] key if any. *)
Definition start_stream (body : option (option Source)) : M St Response :=
  active ← gets (fun s => stream_active (globals s));
  if (active : bool) then mret (mk_Response "error" "Stream already active")
  else
    match body with
    | None => raise (none_has_no "get")
    | Some data =>
        let source := default (SrcStr (Config.DEFAULT_STREAM_SOURCE config)) data in
        try_except
          (current ← gets (fun s => video_stream (globals s));
           match current with
           | None =>
               o ← new_video_stream source;
               update_globals (set_video_stream (Some o))
           | Some _ =>
               on_video_stream "change_source" (VideoStream.change_source config source);;
               mret tt
           end;;
           update_globals (set_stream_active true);;
           update_globals (set_processing_thread (Some "process_frames"));;
           ext (perform (ThreadStart "process_frames"));;
           mret (mk_Response "success"
                   ("Stream started with source: " ++ str_source source)))
          (fun e => mret (mk_Response "error" (str_exn e)))
    end.

Definition stop_stream : M St Response :=
  active ← gets (fun s => stream_active (globals s));
  if negb active then mret (mk_Response "error" "No active stream to stop")
  else
    try_except
      (update_globals (set_stream_active false);;
       thread ← gets (fun s => processing_thread (globals s));
       match thread with
       | Some target => ext (perform (ThreadJoin target))
       | None => mret tt
       end;;
       current ← gets (fun s => video_stream (globals s));
       match current with
       | Some _ => on_video_stream "stop" VideoStream.stop
       | None => mret tt
       end;;
       mret (mk_Response "success" "Stream stopped"))
      (fun e => mret (mk_Response "error" (str_exn e))).

(** [status] *)
Definition get_status : M St StatusReport :=
  gets (fun s =>
    let g := globals s in
    match video_stream g with
    | Some o => mk_StatusReport (stream_active g) (VideoStream.actual_fps o)
                  (Some (VideoStream.source o)) (VideoStream.stopped o)
    | None => mk_StatusReport (stream_active g) 0%float None true
    end).

(** [start_server], up to the call that serves requests. *)
Definition start_server : M St unit :=
  initialize_components;;
  update_globals (set_stream_active true);;
  update_globals (set_processing_thread (Some "process_frames"));;
  ext (perform (ThreadStart "process_frames")).

End WithEngine.

End App.

(* ===================================================================== *)
(** ** app/utils/dataset_downloader.py and its route *)
(* ===================================================================== *)

(** The file system as the downloader sees it: the paths that exist, the
    archives written (each the list of its members, file path and archive
    name, in the order written), the text [datetime.now()] formats to, and
    the fault schedule of its external calls. *)
Record Disk : Type := mk_Disk {
  present : gset string;
  archives : gmap string (list (string * string));
  now_text : string;
  disk_faults : list (option exn)
}.

(** What [send_file] wrapped by [make_response] carries. *)
Record FileResponse : Type := mk_FileResponse {
  sent_path : string;
  mimetype : string;
  as_attachment : bool;
  download_name : string;
  headers : gmap string string
}.

(** What the route returns: the file, or a JSON body with a status code. *)
Inductive Reply : Type :=
| FileReply (r : FileResponse)
| JsonReply (body : Response) (code : Z).

Module DatasetDownloader.

(** The exceptions met in this module. *)
Inductive failure : Type :=
| FileNotFoundError (msg : string)
| Exception (msg : string)
| Raised (e : exn).

(** [str(e)] *)
Definition str_failure (f : failure) : string :=
  match f with
  | FileNotFoundError m | Exception m => m
  | Raised e => str_exn e
  end.

Inductive outcome (A : Type) : Type :=
| Done (a : A)
| Fail (f : failure).
Arguments Done {A} a.
Arguments Fail {A} f.

(** A computation on the disk. *)
Definition D (A : Type) : Type := Disk -> outcome A * Disk.

#[global] Instance D_ret : MRet D := fun A a d => (Done a, d).
#[global] Instance D_bind : MBind D :=
  fun A B k m d => match m d with
                   | (Done a, d') => k a d'
                   | (Fail f, d') => (Fail f, d')
                   end.

Definition fail {A} (f : failure) : D A := fun d => (Fail f, d).

(** [try: body] / [except Exception as e: handler e] *)
Definition try_except {A} (body : D A) (handler : failure -> D A) : D A :=
  fun d => match body d with
           | (Done a, d') => (Done a, d')
           | (Fail f, d') => handler f d'
           end.

(** A fallible external call with its effect on the disk. *)
Definition call (effect : Disk -> Disk) : D unit :=
  fun d =>
    let d' := mk_Disk (present d) (archives d) (now_text d) (tail (disk_faults d)) in
    match disk_faults d with
    | Some e :: _ => (Fail (Raised e), d')
    | _ => (Done tt, effect d')
    end.

(** [os.path.dirname] *)
Fixpoint strip_slashes (r : string) : string :=
  match r with
  | String "/"%char r' => strip_slashes r'
  | _ => r
  end.

Fixpoint after_slash (r : string) : option string :=
  match r with
  | EmptyString => None
  | String "/"%char r' => Some r'
  | String _ r' => after_slash r'
  end.

Definition dirname (p : string) : string :=
  match after_slash (String.rev p) with
  | None => ""
  | Some r => match strip_slashes r with
              | EmptyString => String.rev (String "/" r)
              | r' => String.rev r'
              end
  end.

(** The directories [os.makedirs] has to find or create: the proper
    prefixes of [p] that end before a slash, and [p] itself. *)
Fixpoint prefixes (acc p : string) : list string :=
  match p with
  | EmptyString => [acc]
  | String "/"%char p' =>
      ((if bool_decide (acc = "") then [] else [acc]) ++ prefixes (acc ++ "/")%string p')%list
  | String c p' => prefixes (acc ++ String c "") p'
  end.

(** [os.makedirs(p, exist_ok=True)] *)
Definition makedirs (p : string) : D unit :=
  call (fun d => mk_Disk (list_to_set (prefixes "" p) ∪ present d) (archives d)
                         (now_text d) (disk_faults d)).

(** [os.path.exists(p)] *)
Definition exists_ (p : string) : D bool :=
  fun d => (Done (bool_decide (p ∈ present d)), d).

(** The instance attributes. *)
Record t : Type := mk {
  static_dir : string;
  datasets_dir : string;
  models_dir : string
}.

Section WithLibrary.

(** [__file__] of the module, and the two library functions of
    [create_zip]: what [os.walk] yields under a directory, and
    [os.path.relpath]. *)
Variable file : string.
Variable walk : string -> list (string * list string * list string).
Variable relpath : string -> string -> string.

(** [DatasetDownloader()] *)
Definition init : D t :=
  let static_dir := Ext.path_join (dirname (dirname file)) "static" in
  let self := mk static_dir (Ext.path_join static_dir "datasets")
                 (Ext.path_join static_dir "models") in
  makedirs (datasets_dir self);;
  makedirs (models_dir self);;
  mret self.

(** The members [create_zip] writes, in order. *)
Definition members (source_path : string) : list (string * string) :=
  '(root, _, files) ← walk source_path;
  file ← files;
  let file_path := Ext.path_join root file in
  [(file_path, relpath file_path source_path)].

(** [zipf.write(file_path, arcname)] *)
Definition zip_write (zip_path : string) (member : string * string) : D unit :=
  call (fun d => mk_Disk (present d)
                   (<[zip_path := (default [] (archives d !! zip_path) ++ [member])%list]>
                      (archives d))
                   (now_text d) (disk_faults d)).

Fixpoint zip_write_all (zip_path : string) (l : list (string * string)) : D unit :=
  match l with
  | [] => mret tt
  | member :: l' => zip_write zip_path member;; zip_write_all zip_path l'
  end.

Definition create_zip (self : t) (source_path zip_name : string) : D string :=
  found ← exists_ source_path;
  if negb found then
    fail (FileNotFoundError ("Source path " ++ source_path ++ " does not exist"))
  else
    let zip_path := Ext.path_join (static_dir self) zip_name in
    call (fun d => mk_Disk ({[zip_path]} ∪ present d) (<[zip_path := []]> (archives d))
                           (now_text d) (disk_faults d));;
    zip_write_all zip_path (members source_path);;
    mret zip_path.

(** [datetime.now().strftime("%Y%m%d_%H%M%S")] *)
Definition strftime : D string := fun d => (Done (now_text d), d).

(** [send_file] wrapped by [make_response] *)
Definition send_file (zip_path zip_name : string) : D FileResponse :=
  call id;;
  mret (mk_FileResponse zip_path "application/zip" true zip_name ∅).

Definition set_header (k v : string) (r : FileResponse) : FileResponse :=
  mk_FileResponse (sent_path r) (mimetype r) (as_attachment r) (download_name r)
                  (<[k := v]> (headers r)).

Definition get_dataset (self : t) (dataset_type : string) : D FileResponse :=
  try_except
    ('(source_path, zip_name) ←
       (if bool_decide (dataset_type = "original") then
          stamp ← strftime;
          mret (Ext.path_join (datasets_dir self) "original",
                "original_dataset_" ++ stamp ++ ".zip")
        else if bool_decide (dataset_type = "mission") then
          stamp ← strftime;
          mret (Ext.path_join (datasets_dir self) "mission",
                "mission_dataset_" ++ stamp ++ ".zip")
        else if bool_decide (dataset_type = "object-detection") then
          stamp ← strftime;
          mret (models_dir self, "yolo_model_" ++ stamp ++ ".zip")
        else
          fail (Raised (ValueError ("Invalid dataset type: " ++ dataset_type))));
     zip_path ← create_zip self source_path zip_name;
     response ← send_file zip_path zip_name;
     mret (set_header "Access-Control-Allow-Credentials" "true"
            (set_header "Access-Control-Expose-Headers" "Content-Disposition"
              (set_header "Access-Control-Allow-Headers" "Content-Type"
                (set_header "Access-Control-Allow-Methods" "GET, OPTIONS"
                  (set_header "Access-Control-Allow-Origin" "http://localhost:8080"
                     response))))))
    (fun e => fail (Exception ("Error creating dataset zip: " ++ str_failure e))).

(** The route [download_dataset] of [app/__init__.py]. *)
Definition download_dataset (dataset_type : string) (d : Disk) : Reply * Disk :=
  match (downloader ← init; get_dataset downloader dataset_type) d with
  | (Done r, d') => (FileReply r, d')
  | (Fail e, d') => (JsonReply (mk_Response "error" (str_failure e)) 400, d')
  end.

End WithLibrary.

End DatasetDownloader.

(* ===================================================================== *)
(** ** Vocabulary of the statements *)
(* ===================================================================== *)

Local Open Scope list_scope.

(** Projections of the event log. *)
Module Trace.
Definition image_writes (evs : list Event) : list (string * ndarray) :=
  omap (fun ev => match ev with ImWrite p a => Some (p, a) | _ => None end) evs.
Definition label_writes (evs : list Event) : list (string * Label) :=
  omap (fun ev => match ev with FileWrite p l => Some (p, l) | _ => None end) evs.
Definition transactions (evs : list Event) : list string :=
  omap (fun ev => match ev with Transaction p => Some p | _ => None end) evs.
End Trace.

Import Trace.

(** No character of [s] is the separator [c]. *)
Fixpoint free_of (c : ascii) (s : string) : Prop :=
  match s with
  | EmptyString => True
  | String a s' => a <> c /\ free_of c s'
  end.

(** The ledger seen from outside: what a call returns and what it adds to
    the log. *)
Module Ledger.
Import DetectionStorage.

(** The stamp of a detection is one [datetime.fromtimestamp] accepts. *)
Definition valid_timestamp (d : Detection) : Prop :=
  exists n, fromtimestamp (timestamp d) = Ok n.

(** [int(detection['timestamp'])] for a stamp that converts, else 0. *)
Definition stamp (d : Detection) : Z :=
  match int_float (timestamp d) with
  | Ok n => n
  | Raise _ => 0
  end.

(** The files of a detection, named by its stamp, class and track. *)
Definition image_path (dir : string) (d : Detection) : string :=
  Ext.path_join dir (filename (stamp d) d ".jpg").

Definition label_path (dir : string) (d : Detection) : string :=
  Ext.path_join dir (filename (stamp d) d ".txt").

(** Whether [store_to_firebase] reaches the transaction: the connection
    was initialised and the lowered class is a waste type. *)
Definition relays (o : t) (d : Detection) : bool :=
  match db_ref o with
  | Some _ => bool_decide (lower (class d) ∈ waste_types)
  | None => false
  end.

(** The remote counter of the class of a detection. *)
Definition bucket (d : Detection) : string :=
  "statistics/wasteTypes/" ++ lower (class d).

(** The messages printed for a swallowed failure. *)
Definition relay_error (e : exn) : Event :=
  Print ("Error updating statistics/wasteTypes in Firebase: " ++ str_exn e).
Definition image_error (e : exn) : Event :=
  Print ("Error saving detection image: " ++ str_exn e).
Definition label_error (e : exn) : Event :=
  Print ("Error saving detection label: " ++ str_exn e).
Definition relay_skipped : Event :=
  Print "Firebase not initialized, skipping data storage".
Definition relay_dropped (d : Detection) : Event :=
  Print ("Unknown waste type '" ++ lower (class d) ++ "', skipping Firebase update.").

(** What the relay of one call leaves behind: the counter of the class is
    incremented, or the failure is reported in the log. *)
Definition relay_outcome (d : Detection) (s : St) (w' : World) (evs : list Event) : Prop :=
  if relays (self s) d then
    match head (faults (world s)) with
    | Some (Some e) => counters w' = counters (world s) /\ relay_error e ∈ evs
    | _ => counters w'
           = <[bucket d := increment_count (default 1 (count d))
                             (counters (world s) !! bucket d)]> (counters (world s))
    end
  else
    counters w' = counters (world s)
    /\ match db_ref (self s) with
       | None => relay_skipped ∈ evs
       | Some _ => relay_dropped d ∈ evs
       end.

(** The identity of a detection, the key of the ledger. *)
Definition identity (d : Detection) : string * Z := (class d, track_id d).

Section WithConfig.

Variable config : Config.t.

(** One call of [store_detection]: what it returns and the events it adds
    to the log. *)
Definition record (c : Detection * ndarray) (s : St)
    : (result bool * list Event) * St :=
  let (r, s') := store_detection config c.1 c.2 s in
  ((r, drop (length (events (world s))) (events (world s'))), s').

(** A sequence of calls on the same ledger. *)
Fixpoint record_all (calls : list (Detection * ndarray)) (s : St)
    : list (result bool * list Event) * St :=
  match calls with
  | [] => ([], s)
  | c :: rest =>
      let (out, s') := record c s in
      let (outs, s'') := record_all rest s' in
      (out :: outs, s'')
  end.

End WithConfig.

End Ledger.

(** The exact value read back from a float is within [eps] of [q]. *)
Definition within (x : float) (q eps : Q) : Prop :=
  exists v, Q_of_float x = Some v /\ (Qabs (v - q) <= eps)%Q.

(** The same, as a test. *)
Definition withinb (x : float) (q eps : Q) : bool :=
  match Q_of_float x with
  | Some v => Qle_bool (Qabs (v - q)) eps
  | None => false
  end.

(** The integers [lo], [lo + 1], ..., [lo + n - 1]. *)
Definition span (lo : Z) (n : nat) : list Z :=
  (fun i => lo + Z.of_nat i) <$> seq 0 n.

(** The frame slot and the capture seen from outside. *)
Module Camera.
Import VideoStream.

(** What the next [stream.read()] of the capture delivers. *)
Definition next_read (cap : Capture) (w : World) : option ndarray :=
  if opened cap then
    match feed w with
    | Some a :: _ => Some a
    | _ => None
    end
  else None.

(** The slot after the publishes [ps], oldest first. *)
Definition published (ps : list (loc * float)) (o : t) : t :=
  foldl (fun o p => publish p.1 p.2 o) o ps.

End Camera.

(** The track histories seen from outside. *)
Module Tracks.
Import YOLODetector.

(** The centre points pushed for [tid] by the updates [ups], oldest
    first. *)
Definition points (tid : Z) (ups : list (Z * (Z * Z))) : list (Z * Z) :=
  (filter (fun u => u.1 = tid) ups).*2.

(** The history after the updates [ups], oldest first, starting from the
    empty dictionary of a new detector. *)
Definition history (ups : list (Z * (Z * Z))) : History :=
  foldl (fun h u => update_history u.1 u.2 h) ∅ ups.

(** The [n] most recent elements of [l], in order. *)
Definition most_recent {A} (n : nat) (l : list A) : list A :=
  drop (length l - n) l.

End Tracks.

(** Sample inputs on which the statements are run. *)
Module Samples.

Definition world0 : World :=
  mk_World [] ∅ ∅ [] (fun _ => np_zeros 0 0 0) 0%nat
           (fun n => (1700000000 + PrimFloat.of_uint63 (Uint63.of_Z (Z.of_nat n)))%float)
           0%nat (fun _ => true) [].

(** A world whose capture backend opens no source. *)
Definition world_closed : World :=
  mk_World [] ∅ ∅ [] (fun _ => np_zeros 0 0 0) 0%nat (fun _ => 0%float)
           0%nat (fun _ => false) [].

(** A black frame of 480 rows and 640 columns. *)
Definition frame0 : ndarray := np_zeros 480 640 3.

Definition metal5 : Detection :=
  mk_Detection "metal" 0.9%float (10, 20, 110, 220) 5 1700000000.5%float None.

Definition ledger0 : DetectionStorage.St :=
  DetectionStorage.mk_St (DetectionStorage.mk "data" ∅ (Some "app") (Some "detections"))
                         world0.

(** A codec that writes the shape of the image it is given. *)
Definition shape_codec (a : ndarray) : result string :=
  let '(h, w, c) := shape a in
  Ok (str_int (Z.of_N h) ++ "x" ++ str_int (Z.of_N w) ++ "x" ++ str_int (Z.of_N c))%string.

(** Weights that never load. *)
Definition no_weights (path : string) : result unit :=
  Raise (ExternalError ("No such file: " ++ path)%string).

Definition config_default : Config.t :=
  Config.mk "0" "yolov11m.pt" 640 480 30 "app/static/datasets/mission" true.

Definition config_no_saving : Config.t :=
  Config.mk "0" "yolov11m.pt" 640 480 30 "app/static/datasets/mission" false.

End Samples.


(** The counts relayed by a sequence of calls to the counter of the waste
    type [c], in order. *)
Definition relayed (c : string) (calls : list (Detection * ndarray)) : list Z :=
  (fun call => default 1 (count call.1))
    <$> filter (fun call => lower (class call.1) = c) calls.

(** The value of a counter after the increments [l]. *)
Definition counted (current : option Z) (l : list Z) : option Z :=
  match l with
  | [] => current
  | _ => Some (default 0 current + foldr Z.add 0 l)
  end.

(** Every stored trail has between 1 and 30 points. *)
Definition bounded_trails (h : YOLODetector.History) : Prop :=
  forall tid l, h !! tid = Some l -> (1 <= length l <= 30)%nat.

(** The boxes of a result that carry a track identifier, as the loop of
    [detect_and_track] pairs them up. *)
Definition tracked_items (b : YOLODetector.Boxes) (track_ids : list Z)
    : list ((float * float * float * float) * float * float * Z) :=
  zip (zip (zip (YOLODetector.xyxy b) (YOLODetector.cls b)) (YOLODetector.conf b)) track_ids.

(** The pushes on the track histories that these boxes make. *)
Definition tracked_updates (b : YOLODetector.Boxes) (track_ids : list Z)
    : list (Z * (Z * Z)) :=
  (fun item : (float * float * float * float) * float * float * Z =>
     (item.2, YOLODetector.center_of (YOLODetector.box_int item.1.1.1)))
    <$> tracked_items b track_ids.

(** The state relations followed through [detect_and_track]: the trails
    stay bounded, and the arrays below [limit] are not written. *)
Definition keeps_trails {Model} (s s' : YOLODetector.St Model) : Prop :=
  bounded_trails (YOLODetector.track_history Model (YOLODetector.self Model s)) ->
  bounded_trails (YOLODetector.track_history Model (YOLODetector.self Model s')).

Definition keeps_arrays (limit : loc) {Model} (s s' : YOLODetector.St Model) : Prop :=
  (next_loc (YOLODetector.world Model s) <= next_loc (YOLODetector.world Model s'))%nat
  /\ forall l, (l < limit)%nat ->
       arrays (YOLODetector.world Model s') l = arrays (YOLODetector.world Model s) l.

Definition keeps (limit : loc) {Model} (s s' : YOLODetector.St Model) : Prop :=
  keeps_trails s s' /\ keeps_arrays limit s s'.

(** The boxes whose class identifier the result can name. *)
Definition named (class_names : gmap Z string)
    (item : (float * float * float * float) * float * float * Z) : Prop :=
  exists k name, int_float item.1.1.2 = Ok k /\ class_names !! k = Some name.

(** The exception the next external call raises, if the schedule holds
    one for it. *)
Definition raises_next (fs : list (option exn)) : option exn :=
  match fs with
  | Some e :: _ => Some e
  | _ => None
  end.

(** The datasets the downloader knows: the type in the URL, the directory
    archived and the prefix of the archive's name. *)
Definition dataset_kinds (self : DatasetDownloader.t) : list (string * (string * string)) :=
  [("original", (Ext.path_join (DatasetDownloader.datasets_dir self) "original",
                 "original_dataset_"));
   ("mission", (Ext.path_join (DatasetDownloader.datasets_dir self) "mission",
                "mission_dataset_"));
   ("object-detection", (DatasetDownloader.models_dir self, "yolo_model_"))].

(** The headers [get_dataset] adds to the file it sends. *)
Definition cors_headers : gmap string string :=
  list_to_map
    [("Access-Control-Allow-Credentials", "true");
     ("Access-Control-Expose-Headers", "Content-Disposition");
     ("Access-Control-Allow-Headers", "Content-Type");
     ("Access-Control-Allow-Methods", "GET, OPTIONS");
     ("Access-Control-Allow-Origin", "http://localhost:8080")].

(** Sample inputs for the further properties. *)
Module Scenes.

(** A black frame of 2 rows and 2 columns. *)
Definition tiny : ndarray := np_zeros 2 2 3.

(** The same object as [Samples.metal5], seen later in the same second. *)
Definition metal5_again : Detection :=
  mk_Detection "metal" 0.6%float (12, 22, 112, 222) 5 1700000000.9%float None.

Definition config_zero_rate : Config.t :=
  Config.mk "0" "yolov11m.pt" 640 480 0 "app/static/datasets/mission" true.

(** A stream whose capture on camera 0 is open. *)
Definition camera0 (config : Config.t) : VideoStream.t :=
  VideoStream.set_stream (Some (VideoStream.mk_Capture (SrcInt 0) true))
    (VideoStream.init config (SrcInt 0)).

(** A result with one box of class 0, tracked as 5 or not tracked. *)
Definition one_box (track_ids : option (list Z)) : YOLODetector.Result :=
  YOLODetector.mk_Result
    (YOLODetector.mk_Boxes [(10%float, 20%float, 110%float, 220%float)]
       [0%float] [0.9%float] track_ids)
    {[0 := "metal"]}.

(** A result whose second box has a class the result cannot name. *)
Definition two_boxes : YOLODetector.Result :=
  YOLODetector.mk_Result
    (YOLODetector.mk_Boxes
       [(10%float, 20%float, 110%float, 220%float);
        (30%float, 40%float, 50%float, 60%float)]
       [0%float; 7%float] [0.9%float; 0.8%float] (Some [5; 6]))
    {[0 := "metal"]}.

(** An engine that reports the same result for every image. *)
Definition engine (found : YOLODetector.Result) (m : unit) (image : ndarray)
    (conf_t iou_t : float) : result (list YOLODetector.Result) * unit :=
  (Ok [found], m).

(** Drawing calls that leave the image as it is. *)
Definition no_render (op : DrawOp) (a : ndarray) : ndarray := a.

Definition detector0 : YOLODetector.t unit :=
  YOLODetector.mk unit 0.5%float 0.45%float (Some tt) None ∅.

Definition detector_without_model : YOLODetector.t unit :=
  YOLODetector.mk unit 0.5%float 0.45%float None None ∅.

(** A world holding one array, a tiny frame, at location 0. *)
Definition world1 : World :=
  Ext.set_arrays (fun _ => tiny) 1%nat Samples.world0.

(** The same stream after its producer has published the array at 0. *)
Definition camera0_publishing (config : Config.t) : VideoStream.t :=
  VideoStream.publish 0%nat 1700000000%float (camera0 config).

(** The globals with a stream bound, and the detector given. *)
Definition serving (o : VideoStream.t) (detector : option (YOLODetector.t unit))
    (active : bool) : App.Globals unit :=
  App.mk unit (Some o) detector None (Some "process_frames") None active.

(** A disk with the directory of the mission dataset and nothing else. *)
Definition disk0 : Disk :=
  mk_Disk {["app/static/datasets/mission"]} ∅ "20240101_120000" [].

Definition downloader0 : DatasetDownloader.t :=
  DatasetDownloader.mk "app/static" "app/static/datasets" "app/static/models".

(** A walk that finds two files under every directory. *)
Definition walk0 (p : string) : list (string * list string * list string) :=
  [(p, [], ["a.jpg"; "a.txt"])].

(** [os.path.relpath] on the files of [walk0]. *)
Definition relpath0 (p start : string) : string :=
  String.substring (S (String.length start)) (String.length p) p.

End Scenes.
(* ===================================================================== *)
(** ** Proofs *)
(* ===================================================================== *)

(** Unfolding of the monad, to run a method on a symbolic state. *)
Ltac run_monad :=
  unfold mbind, M_bind, bind, mret, M_ret, ret, gets, modify,
    try_except, lift_result, raise, zoom in *; simpl in *.

Ltac in_list := apply list_elem_of_In; simpl; auto 10.



(** *** Texts: the key of the ledger determines the identity *)

Section StringFacts.

Lemma free_of_uint c d :
  is_digit c = false -> free_of c (NilEmpty.string_of_uint d).
Proof.
  intros Hc. induction d; simpl; auto; split; auto; intros <-; discriminate Hc.
Qed.

Lemma free_of_str_int c n :
  is_digit c = false -> c <> "-"%char -> free_of c (str_int n).
Proof.
  intros Hc Hm. unfold str_int.
  assert (Hu : forall d, free_of c (NilZero.string_of_uint d)).
  { intros d. destruct d; try apply (free_of_uint c _ Hc).
    simpl. split; auto. intros <-. discriminate Hc. }
  destruct n; unfold Z.to_int, NilZero.string_of_int; try apply Hu.
  cbn [free_of]. split; [congruence | apply Hu].
Qed.

Lemma str_int_inj n m : str_int n = str_int m -> n = m.
Proof.
  unfold str_int. intros H. apply DecimalZ.to_int_inj.
  assert (Hn : forall z, Z.to_int z <> Decimal.Pos Decimal.Nil
                         /\ Z.to_int z <> Decimal.Neg Decimal.Nil).
  { intros z. destruct z; simpl; split; try discriminate;
      intros E; injection E; apply DecimalPos.Unsigned.to_uint_nonnil. }
  destruct (Hn n) as [Hn1 Hn2]. destruct (Hn m) as [Hm1 Hm2].
  pose proof (NilZero.isi _ Hn1 Hn2) as E1.
  pose proof (NilZero.isi _ Hm1 Hm2) as E2.
  rewrite H in E1. rewrite E1 in E2. congruence.
Qed.

(** A text cut at its last separator is cut in one way only. *)
Lemma append_sep_inj c a1 a2 b1 b2 :
  free_of c b1 -> free_of c b2 ->
  (a1 ++ String c b1 = a2 ++ String c b2)%string -> a1 = a2 /\ b1 = b2.
Proof.
  intros H1 H2. revert a2. induction a1 as [|x a1 IH]; intros [|y a2]; simpl; intros E.
  - injection E as ->. auto.
  - injection E as <- ->. exfalso. clear -H1.
    induction a2; simpl in H1; [tauto | apply IHa2; tauto].
  - injection E as -> <-. exfalso. clear -H2.
    induction a1; simpl in H2; [tauto | apply IHa1; tauto].
  - injection E as -> E. destruct (IH _ E) as [-> ->]. auto.
Qed.

End StringFacts.

(** *** The ledger, one method at a time *)

Section LedgerSteps.
Import DetectionStorage Ext Ledger.

Lemma valid_timestamp_int d :
  valid_timestamp d -> int_float (timestamp d) = Ok (stamp d).
Proof.
  intros [n Hn]. unfold fromtimestamp, stamp in *.
  destruct (int_float (timestamp d)); [reflexivity | discriminate].
Qed.

Lemma store_to_firebase_runs d s :
  exists w' evs,
    store_to_firebase d s = (Ok tt, mk_St (self s) w')
    /\ events w' = events (world s) ++ evs
    /\ image_writes evs = [] /\ label_writes evs = []
    /\ transactions evs = (if relays (self s) d then [bucket d] else [])
    /\ faults w' = drop (if relays (self s) d then 1 else 0)%nat (faults (world s))
    /\ (if relays (self s) d then
          match head (faults (world s)) with
          | Some (Some e) => counters w' = counters (world s) /\ relay_error e ∈ evs
          | _ => counters w'
                 = <[bucket d := increment_count (default 1 (count d))
                                   (counters (world s) !! bucket d)]> (counters (world s))
          end
        else
          counters w' = counters (world s)
          /\ match db_ref (self s) with
             | None => relay_skipped ∈ evs
             | Some _ => relay_dropped d ∈ evs
             end).
Proof.
  unfold store_to_firebase, relays, bucket, relay_error, relay_skipped, relay_dropped.
  unfold ext, update_self, print, perform, call, transaction, emit. run_monad.
  destruct (db_ref (self s)) as [r|]; simpl.
  - destruct (bool_decide (lower (class d) ∈ waste_types)); simpl.
    + destruct (faults (world s)) as [|[e|] fs]; simpl.
      all: eexists; eexists; split; [reflexivity|]; simpl.
      all: rewrite <- ?app_assoc; split; [reflexivity|].
      all: repeat split; auto; try rewrite drop_0; auto; in_list.
    + eexists; eexists; split; [reflexivity|]; simpl; split; [reflexivity|].
      repeat split; auto; in_list.
  - eexists; eexists; split; [reflexivity|]; simpl; split; [reflexivity|].
    repeat split; auto; in_list.
Qed.

Lemma save_detection_image_runs d frame s :
  valid_timestamp d ->
  exists w' evs,
    save_detection_image d frame s = (Ok tt, mk_St (self s) w')
    /\ events w' = events (world s) ++ evs
    /\ counters w' = counters (world s)
    /\ faults w' = tail (faults (world s))
    /\ image_writes evs = [(image_path (storage_path (self s)) d, frame)]
    /\ label_writes evs = []
    /\ transactions evs = []
    /\ forall e, head (faults (world s)) = Some (Some e) -> image_error e ∈ evs.
Proof.
  intros Hv. unfold save_detection_image, image_path, image_error.
  unfold ext, update_self, print, perform, call, transaction, emit. run_monad.
  rewrite (valid_timestamp_int d Hv).
  destruct (faults (world s)) as [|[e|] fs]; simpl.
  all: eexists; eexists; split; [reflexivity|]; simpl.
  all: rewrite <- ?app_assoc; split; [reflexivity|].
  all: repeat split; auto; try discriminate.
  intros e' [= <-]. in_list.
Qed.

Lemma save_detection_label_runs d frame s :
  valid_timestamp d ->
  exists w' evs,
    save_detection_label d frame s = (Ok tt, mk_St (self s) w')
    /\ events w' = events (world s) ++ evs
    /\ counters w' = counters (world s)
    /\ faults w' = tail (faults (world s))
    /\ image_writes evs = []
    /\ label_writes evs = [(label_path (storage_path (self s)) d, yolo_label d frame)]
    /\ transactions evs = []
    /\ forall e, head (faults (world s)) = Some (Some e) -> label_error e ∈ evs.
Proof.
  intros Hv. unfold save_detection_label, label_path, label_error.
  unfold ext, update_self, print, perform, call, transaction, emit. run_monad.
  rewrite (valid_timestamp_int d Hv).
  destruct (faults (world s)) as [|[e|] fs]; simpl.
  all: eexists; eexists; split; [reflexivity|]; simpl.
  all: rewrite <- ?app_assoc; split; [reflexivity|].
  all: repeat split; auto; try discriminate.
  intros e' [= <-]. in_list.
Qed.

End LedgerSteps.

Lemma object_id_inj d1 d2 :
  DetectionStorage.object_id d1 = DetectionStorage.object_id d2 <-> Ledger.identity d1 = Ledger.identity d2.
Proof.
  unfold DetectionStorage.object_id, Ledger.identity. split.
  - intros E. apply append_sep_inj in E.
    + destruct E as [-> E]. apply str_int_inj in E. congruence.
    + apply free_of_str_int; [reflexivity | discriminate].
    + apply free_of_str_int; [reflexivity | discriminate].
  - intros E. injection E as -> ->. reflexivity.
Qed.

(** *** One call of [store_detection] *)

Section LedgerCall.
Import DetectionStorage Ext Ledger.
Variable config : Config.t.

Lemma image_writes_app a b : image_writes (a ++ b) = image_writes a ++ image_writes b.
Proof. apply omap_app. Qed.
Lemma label_writes_app a b : label_writes (a ++ b) = label_writes a ++ label_writes b.
Proof. apply omap_app. Qed.
Lemma transactions_app a b : transactions (a ++ b) = transactions a ++ transactions b.
Proof. apply omap_app. Qed.

Lemma relay_outcome_mono d s w1 w2 evs1 evs2 :
  counters w2 = counters w1 ->
  relay_outcome d s w1 evs1 -> relay_outcome d s w2 (evs1 ++ evs2).
Proof.
  unfold relay_outcome. intros ->.
  destruct (relays (self s) d).
  - destruct (head (faults (world s))) as [[e|]|]; auto.
    intros [? ?]. split; auto. apply elem_of_app; auto.
  - intros [? H]. split; auto.
    destruct (db_ref (self s)); apply elem_of_app; auto.
Qed.

Lemma store_detection_runs d frame s :
  valid_timestamp d ->
  let new := bool_decide (object_id d ∉ seen_objects (self s)) in
  let persist := new && Config.SAVE_DETECTIONS config in
  let k := (if relays (self s) d then 1 else 0)%nat in
  exists w' evs,
    store_detection config d frame s
    = (Ok new, mk_St (if persist then add_seen (object_id d) (self s) else self s) w')
    /\ events w' = events (world s) ++ evs
    /\ image_writes evs
       = (if persist then [(image_path (storage_path (self s)) d, frame)] else [])
    /\ label_writes evs
       = (if persist then [(label_path (storage_path (self s)) d, yolo_label d frame)]
          else [])
    /\ transactions evs = (if relays (self s) d then [bucket d] else [])
    /\ relay_outcome d s w' evs
    /\ (persist = true ->
        forall e, faults (world s) !! k = Some (Some e) -> image_error e ∈ evs)
    /\ (persist = true ->
        forall e, faults (world s) !! S k = Some (Some e) -> label_error e ∈ evs).
Proof.
  intros Hv new persist k.
  destruct (store_to_firebase_runs d s)
    as (w1 & evs1 & E1 & Hev1 & Hi1 & Hl1 & Ht1 & Hf1 & Hr1).
  fold k in Hf1. fold (relay_outcome d s w1 evs1) in Hr1.
  set (shown := PrintDetection (class d) (track_id d) (confidence d) (timestamp d)).
  unfold store_detection. run_monad. rewrite E1.
  destruct Hv as [n Hn]. rewrite Hn.
  fold new. fold persist. fold shown.
  unfold ext, perform, zoom, modify. simpl.
  destruct persist.
  - destruct (save_detection_image_runs d frame (mk_St (self s) (emit shown w1)))
      as (w2 & evs2 & E2 & Hev2 & Hc2 & Hf2 & Hi2 & Hl2 & Ht2 & He2); [by exists n|].
    simpl in *. rewrite E2.
    destruct (save_detection_label_runs d frame (mk_St (self s) w2))
      as (w3 & evs3 & E3 & Hev3 & Hc3 & Hf3 & Hi3 & Hl3 & Ht3 & He3); [by exists n|].
    simpl in *. rewrite E3. unfold update_self, modify. simpl.
    exists w3, (evs1 ++ [shown] ++ evs2 ++ evs3).
    split; [reflexivity|]. split.
    { rewrite Hev3, Hev2, Hev1, <- !app_assoc. reflexivity. }
    rewrite !image_writes_app, !label_writes_app, !transactions_app.
    rewrite Hi1, Hi2, Hi3, Hl1, Hl2, Hl3, Ht1, Ht2, Ht3. simpl.
    rewrite app_nil_r.
    repeat split; auto.
    + apply (relay_outcome_mono d s w1); [congruence | exact Hr1].
    + intros _ e He. rewrite elem_of_app, elem_of_cons, elem_of_app.
      right; right; left. apply He2.
      by rewrite Hf1, head_lookup, lookup_drop, Nat.add_0_r.
    + intros _ e He. rewrite elem_of_app, elem_of_cons, elem_of_app.
      right; right; right. apply He3.
      rewrite Hf2, Hf1, head_lookup. 
      change (tail (drop k (faults (world s)))) with (drop 1 (drop k (faults (world s)))).
      rewrite !lookup_drop, Nat.add_0_r. by replace (k + 1)%nat with (S k) by lia.
  - exists (emit shown w1), (evs1 ++ [shown]).
    split; [reflexivity|]. split.
    { simpl. rewrite Hev1, <- !app_assoc. reflexivity. }
    rewrite !image_writes_app, !label_writes_app, !transactions_app.
    rewrite Hi1, Hl1, Ht1. simpl. rewrite app_nil_r.
    repeat split; auto; try discriminate.
    apply (relay_outcome_mono d s w1); [reflexivity | exact Hr1].
Qed.
End LedgerCall.

(** *** Sequences of calls *)

Section LedgerSequences.
Import DetectionStorage Ext Ledger.
Variable config : Config.t.

Lemma record_runs c s :
  valid_timestamp c.1 ->
  let new := bool_decide (object_id c.1 ∉ seen_objects (self s)) in
  let persist := new && Config.SAVE_DETECTIONS config in
  exists w' evs,
    record config c s
    = ((Ok new, evs),
       mk_St (if persist then add_seen (object_id c.1) (self s) else self s) w')
    /\ image_writes evs
       = (if persist then [(image_path (storage_path (self s)) c.1, c.2)] else [])
    /\ label_writes evs
       = (if persist then [(label_path (storage_path (self s)) c.1, yolo_label c.1 c.2)]
          else []).
Proof.
  intros Hv new persist.
  destruct (store_detection_runs config c.1 c.2 s Hv) as (w' & evs & E & Hev & Hi & Hl & _).
  exists w', evs. unfold record. rewrite E. simpl. rewrite Hev, drop_app_length.
  auto.
Qed.

Lemma not_elem_of_object_ids d (l : list Detection) :
  object_id d ∉ object_id <$> l <-> identity d ∉ identity <$> l.
Proof.
  rewrite !list_elem_of_fmap. split; intros H (d' & E & Hin); apply H; exists d';
    (split; [apply object_id_inj | ]; auto); by apply object_id_inj.
Qed.

(** With saving enabled, the seen-set is the set of keys recorded so far. *)
Lemma record_all_enabled calls :
  Config.SAVE_DETECTIONS config = true ->
  Forall (fun c => valid_timestamp c.1) calls ->
  forall prev s i d frame,
    seen_objects (self s) = list_to_set (object_id <$> prev) ->
    calls !! i = Some (d, frame) ->
    let new := bool_decide (object_id d ∉ object_id <$> (prev ++ (fst <$> take i calls))) in
    exists evs,
      (record_all config calls s).1 !! i = Some (Ok new, evs)
      /\ image_writes evs
         = (if new then [(image_path (storage_path (self s)) d, frame)] else [])
      /\ label_writes evs
         = (if new then [(label_path (storage_path (self s)) d, yolo_label d frame)]
            else []).
Proof.
  intros Hsave Hvalid. induction Hvalid as [|c rest Hc Hrest IH]; intros prev s i d frame Hseen Hi.
  - discriminate Hi.
  - destruct (record_runs c s Hc) as (w' & evs & E & Him & Hlb).
    rewrite Hsave, andb_true_r in E, Him, Hlb.
    destruct c as [dc fc]. simpl in *.
    assert (Hnew : bool_decide (object_id dc ∉ seen_objects (self s))
                   = bool_decide (object_id dc ∉ object_id <$> prev)).
    { apply bool_decide_ext. rewrite Hseen, elem_of_list_to_set. tauto. }
    cbn [record_all]. rewrite E.
    destruct (record_all config rest _) as [outs s''] eqn:Erest.
    destruct i as [|j].
    + injection Hi as -> ->. simpl. rewrite app_nil_r, <- Hnew.
      exists evs. auto.
    + simpl in Hi.
      set (s1 := mk_St _ w') in Erest.
      assert (Hseen1 : seen_objects (self s1) = list_to_set (object_id <$> (prev ++ [dc]))).
      { subst s1. simpl. rewrite fmap_app, list_to_set_app_L. simpl.
        rewrite union_empty_r_L.
        destruct (bool_decide _) eqn:B; simpl; rewrite Hseen.
        - apply (comm_L (∪)).
        - apply bool_decide_eq_false in B. apply dec_stable in B.
          rewrite Hseen in B. symmetry. rewrite (comm_L (∪)). apply subseteq_union_1_L.
          by apply singleton_subseteq_l. }
      assert (Hpath : storage_path (self s1) = storage_path (self s)).
      { subst s1. simpl. by destruct (bool_decide _). }
      destruct (IH (prev ++ [dc]) s1 j d frame Hseen1 Hi) as (evs' & Hout & Him' & Hlb').
      rewrite Erest in Hout. simpl in Hout. rewrite Hpath in Him', Hlb'.
      rewrite <- app_assoc in Hout, Him', Hlb'. simpl in *.
      exists evs'. auto.
Qed.

(** With saving disabled, the seen-set never changes. *)
Lemma record_all_disabled calls :
  Config.SAVE_DETECTIONS config = false ->
  Forall (fun c => valid_timestamp c.1) calls ->
  forall s,
    self (record_all config calls s).2 = self s
    /\ forall i d frame, calls !! i = Some (d, frame) ->
       exists evs,
         (record_all config calls s).1 !! i
         = Some (Ok (bool_decide (object_id d ∉ seen_objects (self s))), evs)
         /\ image_writes evs = [] /\ label_writes evs = [].
Proof.
  intros Hsave Hvalid. induction Hvalid as [|c rest Hc Hrest IH]; intros s.
  - split; [reflexivity | intros i d frame Hi; discriminate Hi].
  - destruct (record_runs c s Hc) as (w' & evs & E & Him & Hlb).
    rewrite Hsave, andb_false_r in E, Him, Hlb.
    cbn [record_all]. rewrite E.
    destruct (IH (mk_St (self s) w')) as [Hself Hcalls].
    destruct (record_all config rest _) as [outs s''] eqn:Erest. simpl in *.
    split; [exact Hself|]. intros [|j] d frame Hi; simpl in *.
    + injection Hi as ->. exists evs. auto.
    + apply (Hcalls j d frame Hi).
Qed.

End LedgerSequences.

(** *** The ledger: persistence gate, relay, label *)

Section LedgerClaims.
Import DetectionStorage Ext Ledger.

(** C1 (amended).  With detection saving enabled, on a ledger that has seen
    nothing, a call of [store_detection] returns true exactly when no earlier
    call had the same identity (class, track_id); such a first call attempts
    exactly one image write and one label write, of the frame and of the
    normalised box, at the paths named by stamp, class and track; every later
    call with that identity returns false and attempts neither write. *)
Theorem store_detection_exactly_once config calls s :
  Config.SAVE_DETECTIONS config = true ->
  seen_objects (self s) = ∅ ->
  Forall (fun c => valid_timestamp c.1) calls ->
  forall i d frame, calls !! i = Some (d, frame) ->
    let new := bool_decide (identity d ∉ (fun c => identity c.1) <$> take i calls) in
    exists evs,
      (record_all config calls s).1 !! i = Some (Ok new, evs)
      /\ image_writes evs
         = (if new then [(image_path (storage_path (self s)) d, frame)] else [])
      /\ label_writes evs
         = (if new then [(label_path (storage_path (self s)) d, yolo_label d frame)]
            else []).
Proof.
  intros Hsave Hseen Hvalid i d frame Hi new.
  destruct (record_all_enabled config calls Hsave Hvalid [] s i d frame) as (evs & H);
    [by rewrite Hseen | exact Hi |].
  assert (E : bool_decide (object_id d ∉ object_id <$> [] ++ (take i calls).*1) = new).
  { apply bool_decide_ext. simpl. rewrite not_elem_of_object_ids.
    by rewrite <- list_fmap_compose. }
  rewrite E in H. by exists evs.
Qed.

Lemma store_detection_exactly_once_witness :
  exists evs,
    (record_all Samples.config_default
       [(Samples.metal5, Samples.frame0); (Samples.metal5, Samples.frame0)]
       Samples.ledger0).1 !! 1%nat = Some (Ok false, evs)
    /\ image_writes evs = [] /\ label_writes evs = [].
Proof.
  refine (store_detection_exactly_once Samples.config_default
            [(Samples.metal5, Samples.frame0); (Samples.metal5, Samples.frame0)]
            Samples.ledger0 _ _ _ 1%nat Samples.metal5 Samples.frame0 _).
  - reflexivity.
  - reflexivity.
  - repeat constructor; exists 1700000000; vm_compute; reflexivity.
  - reflexivity.
Defined.

(** C1 as stated fails when saving is disabled: under the environment
    [SAVE_DETECTIONS=false] the first call for (metal, 5) returns true and
    writes nothing, and the second call returns true again. *)
Lemma store_detection_not_gated_when_disabled :
  Config.load {[ "SAVE_DETECTIONS" := "false" ]} = Some Samples.config_no_saving
  /\ exists evs1 evs2,
       (record_all Samples.config_no_saving
          [(Samples.metal5, Samples.frame0); (Samples.metal5, Samples.frame0)]
          Samples.ledger0).1 = [(Ok true, evs1); (Ok true, evs2)]
       /\ image_writes evs1 = [] /\ label_writes evs1 = [].
Proof.
  generalize Samples.frame0. intros frame.
  split; [vm_compute; reflexivity|].
  eexists; eexists. split; [vm_compute; reflexivity|]. split; reflexivity.
Qed.

(** C10.  With detection saving disabled the seen-set is never updated: on a
    ledger that has seen nothing, every call of [store_detection] returns
    true, whatever identities came before, nothing is written, and the
    seen-set is still empty afterwards. *)
Theorem store_detection_always_new_when_disabled config calls s :
  Config.SAVE_DETECTIONS config = false ->
  seen_objects (self s) = ∅ ->
  Forall (fun c => valid_timestamp c.1) calls ->
  seen_objects (self (record_all config calls s).2) = ∅
  /\ forall i d frame, calls !! i = Some (d, frame) ->
       exists evs,
         (record_all config calls s).1 !! i = Some (Ok true, evs)
         /\ image_writes evs = [] /\ label_writes evs = [].
Proof.
  intros Hsave Hseen Hvalid.
  destruct (record_all_disabled config calls Hsave Hvalid s) as [Hself Hcalls].
  split; [by rewrite Hself|].
  intros i d frame Hi. destruct (Hcalls i d frame Hi) as (evs & Hout & Hw).
  exists evs. split; [|exact Hw]. rewrite Hout, Hseen.
  rewrite bool_decide_eq_true_2; [reflexivity | apply not_elem_of_empty].
Qed.

Lemma store_detection_always_new_when_disabled_witness :
  seen_objects (self (record_all Samples.config_no_saving
     [(Samples.metal5, Samples.frame0); (Samples.metal5, Samples.frame0)]
     Samples.ledger0).2) = ∅
  /\ exists evs,
       (record_all Samples.config_no_saving
          [(Samples.metal5, Samples.frame0); (Samples.metal5, Samples.frame0)]
          Samples.ledger0).1 !! 1%nat = Some (Ok true, evs)
       /\ image_writes evs = [] /\ label_writes evs = [].
Proof.
  destruct (store_detection_always_new_when_disabled Samples.config_no_saving
              [(Samples.metal5, Samples.frame0); (Samples.metal5, Samples.frame0)]
              Samples.ledger0) as [Hseen Hcalls].
  - reflexivity.
  - reflexivity.
  - repeat constructor; exists 1700000000; vm_compute; reflexivity.
  - split; [exact Hseen|]. exact (Hcalls 1%nat Samples.metal5 Samples.frame0 eq_refl).
Defined.

(** C4 (amended).  Every call of [store_detection] on a detection with an
    accepted stamp returns normally, whatever the external calls do, and its
    relay does not depend on the seen-set.  When the counter connection was
    initialised and the class lowers to metal, glass or plastic, the call
    makes exactly one transaction, on the counter of that class, which adds
    the count of the detection (1 by default) unless the transaction fails,
    and then the failure is printed.  Any other class makes no transaction
    and is reported by a warning.  When the connection was not initialised,
    the call makes no transaction and prints that the relay is skipped.  A
    failed image or label write is printed as well. *)
Theorem store_detection_relays config d frame s :
  valid_timestamp d ->
  let k := (if relays (self s) d then 1 else 0)%nat in
  exists new s' evs,
    store_detection config d frame s = (Ok new, s')
    /\ events (world s') = events (world s) ++ evs
    /\ transactions evs = (if relays (self s) d then [bucket d] else [])
    /\ relay_outcome d s (world s') evs
    /\ (new && Config.SAVE_DETECTIONS config = true ->
        (forall e, faults (world s) !! k = Some (Some e) -> image_error e ∈ evs)
        /\ (forall e, faults (world s) !! S k = Some (Some e) -> label_error e ∈ evs)).
Proof.
  intros Hv k.
  destruct (store_detection_runs config d frame s Hv)
    as (w' & evs & E & Hev & _ & _ & Ht & Hr & Him & Hlb).
  eexists _, _, evs. split; [exact E|]. simpl. repeat split; auto.
Qed.

Lemma store_detection_relays_witness :
  exists new s' evs,
    store_detection Samples.config_default Samples.metal5 Samples.frame0 Samples.ledger0
    = (Ok new, s')
    /\ events (world s') = events (world Samples.ledger0) ++ evs
    /\ transactions evs = ["statistics/wasteTypes/metal"]
    /\ relay_outcome Samples.metal5 Samples.ledger0 (world s') evs
    /\ (new && Config.SAVE_DETECTIONS Samples.config_default = true ->
        (forall e, faults (world Samples.ledger0) !! 1%nat = Some (Some e)
                   -> image_error e ∈ evs)
        /\ (forall e, faults (world Samples.ledger0) !! 2%nat = Some (Some e)
                      -> label_error e ∈ evs)).
Proof.
  refine (store_detection_relays Samples.config_default Samples.metal5 Samples.frame0
            Samples.ledger0 _).
  exists 1700000000; vm_compute; reflexivity.
Defined.

(** C4 as stated fails on a ledger whose counter connection did not
    initialise: the credentials do not load in the constructor, and the call
    for the recognised class metal then makes no transaction, leaves the
    counters empty and prints that the relay is skipped. *)
Lemma store_detection_skips_relay_when_uninitialised :
  exists s s' evs,
    init "app/utils" "data"
      (set_faults [None; Some (ExternalError "No such file: firebase-credentials.json")]
         Samples.world0)
    = (Ok tt, s)
    /\ db_ref (self s) = None
    /\ store_detection Samples.config_default Samples.metal5 Samples.frame0 s = (Ok true, s')
    /\ events (world s') = events (world s) ++ evs
    /\ transactions evs = []
    /\ counters (world s') = ∅
    /\ relay_skipped ∈ evs.
Proof.
  generalize Samples.frame0. intros frame.
  eexists _, _, _. split; [vm_compute; reflexivity|]. split; [reflexivity|].
  split; [vm_compute; reflexivity|]. split; [vm_compute; reflexivity|].
  split; [reflexivity|]. split; [reflexivity|]. in_list.
Qed.

Lemma withinb_within x q eps : withinb x q eps = true -> within x q eps.
Proof.
  unfold withinb, within. destruct (Q_of_float x) as [v|]; [|discriminate].
  intros H. exists v. split; [reflexivity|]. by apply Qle_bool_iff.
Qed.

(** A test that holds on a whole span holds at each of its integers. *)
Lemma span_checked (P : Z -> bool) lo n k :
  forallb P (span lo n) = true -> lo <= k < lo + Z.of_nat n -> P k = true.
Proof.
  intros H Hk. rewrite forallb_forall in H. apply H.
  apply list_elem_of_In, list_elem_of_fmap. exists (Z.to_nat (k - lo)).
  split; [lia|]. apply elem_of_seq. lia.
Qed.

(** On a frame of 640 columns and 480 rows, the binary64 quotients are
    within 1e-15 of the exact ones, for every sum and difference of two
    coordinates of the frame. *)
Lemma half_over_640 k :
  0 <= k <= 1280 ->
  within (float_of_int k / 2 / float_of_int 640)%float
         (inject_Z k / 2 / 640) (1 # 1000000000000000).
Proof.
  intros Hk. apply withinb_within.
  apply (span_checked
           (fun k => withinb (float_of_int k / 2 / float_of_int 640)%float
                             (inject_Z k / 2 / 640) (1 # 1000000000000000)) 0 1281);
    [vm_compute; reflexivity | lia].
Qed.

Lemma half_over_480 k :
  0 <= k <= 960 ->
  within (float_of_int k / 2 / float_of_int 480)%float
         (inject_Z k / 2 / 480) (1 # 1000000000000000).
Proof.
  intros Hk. apply withinb_within.
  apply (span_checked
           (fun k => withinb (float_of_int k / 2 / float_of_int 480)%float
                             (inject_Z k / 2 / 480) (1 # 1000000000000000)) 0 961);
    [vm_compute; reflexivity | lia].
Qed.

Lemma over_640 k :
  -640 <= k <= 640 ->
  within (float_of_int k / float_of_int 640)%float
         (inject_Z k / 640) (1 # 1000000000000000).
Proof.
  intros Hk. apply withinb_within.
  apply (span_checked
           (fun k => withinb (float_of_int k / float_of_int 640)%float
                             (inject_Z k / 640) (1 # 1000000000000000)) (-640) 1281);
    [vm_compute; reflexivity | lia].
Qed.

Lemma over_480 k :
  -480 <= k <= 480 ->
  within (float_of_int k / float_of_int 480)%float
         (inject_Z k / 480) (1 # 1000000000000000).
Proof.
  intros Hk. apply withinb_within.
  apply (span_checked
           (fun k => withinb (float_of_int k / float_of_int 480)%float
                             (inject_Z k / 480) (1 # 1000000000000000)) (-480) 961);
    [vm_compute; reflexivity | lia].
Qed.

(** C5.  The label that [save_detection_label] writes has class 0 and
    carries, for every box (x1, y1, x2, y2) and every frame of [height] rows
    and [width] columns, the values (x1+x2)/2/width, (y1+y2)/2/height,
    (x2-x1)/width and (y2-y1)/height computed in binary64.  On a frame of 480
    rows and 640 columns these are, for every box with its corners in the
    frame, within 1e-15 of the exact quotients; and for the box (10, 20, 110,
    220) they are, within 1e-4, 0.09375, 0.25, 0.15625 and 0.41667. *)
Theorem label_normalized_box d frame s x1 y1 x2 y2 height width channels :
  bbox d = (x1, y1, x2, y2) ->
  shape frame = (height, width, channels) ->
  valid_timestamp d ->
  exists w' evs label,
    save_detection_label d frame s = (Ok tt, mk_St (self s) w')
    /\ events w' = events (world s) ++ evs
    /\ label_writes evs = [(label_path (storage_path (self s)) d, label)]
    /\ class_id label = 0
    /\ x_center label
       = (float_of_int (x1 + x2) / 2 / float_of_int (Z.of_N width))%float
    /\ y_center label
       = (float_of_int (y1 + y2) / 2 / float_of_int (Z.of_N height))%float
    /\ bbox_width label
       = (float_of_int (x2 - x1) / float_of_int (Z.of_N width))%float
    /\ bbox_height label
       = (float_of_int (y2 - y1) / float_of_int (Z.of_N height))%float
    /\ ((height, width) = (480, 640)%N ->
        0 <= x1 <= 640 -> 0 <= x2 <= 640 -> 0 <= y1 <= 480 -> 0 <= y2 <= 480 ->
        within (x_center label) (inject_Z (x1 + x2) / 2 / 640) (1 # 1000000000000000)
        /\ within (y_center label) (inject_Z (y1 + y2) / 2 / 480) (1 # 1000000000000000)
        /\ within (bbox_width label) (inject_Z (x2 - x1) / 640) (1 # 1000000000000000)
        /\ within (bbox_height label) (inject_Z (y2 - y1) / 480) (1 # 1000000000000000))
    /\ ((height, width) = (480, 640)%N ->
        (x1, y1, x2, y2) = (10, 20, 110, 220) ->
        within (x_center label) 0.09375 (1 # 10000)
        /\ within (y_center label) 0.25 (1 # 10000)
        /\ within (bbox_width label) 0.15625 (1 # 10000)
        /\ within (bbox_height label) 0.41667 (1 # 10000)).
Proof.
  intros Hbox Hshape Hv.
  destruct (save_detection_label_runs d frame s Hv)
    as (w' & evs & E & Hev & _ & _ & _ & Hl & _).
  exists w', evs, (yolo_label d frame). repeat (split; [assumption|]).
  unfold yolo_label. rewrite Hbox, Hshape. cbn [class_id x_center y_center bbox_width bbox_height].
  split; [reflexivity|]. split; [reflexivity|]. split; [reflexivity|].
  split; [reflexivity|]. split; [reflexivity|]. split.
  - intros [= -> ->] Hx1 Hx2 Hy1 Hy2.
    split; [apply half_over_640; lia|]. split; [apply half_over_480; lia|].
    split; [apply over_640; lia | apply over_480; lia].
  - intros [= -> ->] [= -> -> -> ->].
    repeat split; (eexists; split; [vm_compute; reflexivity | vm_compute; discriminate]).
Qed.

End LedgerClaims.

(** *** The frame slot and the frame source *)

Section VideoStreamFacts.
Import VideoStream Ext Camera.
Variable config : Config.t.

Lemma published_frame ps o :
  frame (published ps o) = match last ps with
                           | Some p => Some p.1
                           | None => frame o
                           end.
Proof.
  induction ps as [|p ps IH] using rev_ind; [reflexivity|].
  unfold published. rewrite foldl_app, last_snoc. reflexivity.
Qed.

(** C2.  After any sequence of publishes into the frame slot of a new
    stream, [read] returns a fresh array whose content is that of the last
    published frame, and leaves the slot and every other array as they were,
    so that drawing on the copy does not reach the held frame; with no
    publish at all it returns none and changes nothing. *)
Theorem read_returns_last_published src ps w :
  let o := published ps (init config src) in
  exists r w',
    read (mk_St o w) = (Ok r, mk_St o w')
    /\ match last ps with
       | None => r = None /\ w' = w
       | Some (pn, _) =>
           r = Some (next_loc w)
           /\ arrays w' (next_loc w) = arrays w pn
           /\ (forall l, l <> next_loc w -> arrays w' l = arrays w l)
           /\ next_loc w' = S (next_loc w)
           /\ (forall f w'', (pn < next_loc w)%nat ->
                 mutate (next_loc w) f w' = (Ok tt, w'') ->
                 arrays w'' pn = arrays w pn)
       end.
Proof.
  intros o. unfold read. run_monad.
  assert (Hfr := published_frame ps (init config src)). fold o in Hfr.
  rewrite Hfr. unfold ext, copy, alloc, zoom. simpl.
  destruct (last ps) as [[pn tn]|]; simpl.
  - eexists _, _. split; [reflexivity|]. simpl.
    rewrite Nat.eqb_refl. repeat split; auto.
    + intros l Hl. apply Nat.eqb_neq in Hl. by rewrite Hl.
    + intros f w'' Hlt. unfold mutate, modify. intros [= <-]. simpl.
      assert (Hne : (pn =? next_loc w)%nat = false) by (apply Nat.eqb_neq; lia).
      by rewrite Hne.
  - eexists _, _. split; [reflexivity|]. auto.
Qed.

(** [start] on a source that does not open. *)
Lemma start_unavailable o w :
  can_open w (camera_index (source o)) = false ->
  let src := camera_index (source o) in
  start config (mk_St o w)
  = (Raise (ValueError ("Could not open video source: " ++ str_source src)%string),
     mk_St (set_stream (Some (mk_Capture src false)) (set_source src o))
           (emit (CaptureOpen src) w)).
Proof.
  intros Hclosed src. subst src.
  unfold start, VideoCapture, ext, update_self. run_monad.
  rewrite Hclosed. reflexivity.
Qed.

(** A pass of the producer loop whose read fails. *)
Lemma update_iteration_failure o w cap last :
  stream o = Some cap ->
  next_read cap w = None ->
  update_iteration last (mk_St o w)
  = (Ok Break,
     mk_St (set_stopped true o)
           (emit (Print ("Error reading frame from source: " ++ str_source (source o))%string)
                 (if opened cap then set_feed (tail (feed w)) w else w))).
Proof.
  intros Hcap Hread. unfold update_iteration, capture_read, next_read in *.
  unfold ext, update_self, print. run_monad. rewrite Hcap.
  destruct (opened cap); simpl.
  - destruct (feed w) as [|[a|] rest] eqn:Hfeed; simpl; try discriminate.
    + destruct w; simpl in *; subst; reflexivity.
    + reflexivity.
  - reflexivity.
Qed.

(** [change_source] to a source that does not open: the failure of
    [start] is caught, after [stop] has set the flag. *)
Lemma change_source_unavailable o w new_source :
  can_open w (camera_index new_source) = false ->
  exists o' w',
    change_source config new_source (mk_St o w) = (Ok false, mk_St o' w')
    /\ stopped o' = true
    /\ frame o' = frame o
    /\ events w'
       = events w
         ++ match stream o with
            | Some cap => [CaptureRelease (cap_source cap)]
            | None => []
            end
         ++ [CaptureOpen (camera_index new_source);
             Print ("Error changing video source: Could not open video source: "
                    ++ str_source (camera_index new_source))%string].
Proof.
  intros Hclosed. unfold change_source, stop.
  unfold ext at 1 2, update_self at 1 2 3, perform, print. run_monad.
  destruct (stream o) as [cap|]; simpl.
  - match goal with |- context [start config ?s1] =>
      pose proof (start_unavailable (self s1) (world s1)) as E end.
    cbn [self world] in E. rewrite (E Hclosed). clear E. simpl.
    eexists _, _. split; [reflexivity|]. simpl.
    rewrite <- !app_assoc. auto.
  - match goal with |- context [start config ?s1] =>
      pose proof (start_unavailable (self s1) (world s1)) as E end.
    cbn [self world] in E. rewrite (E Hclosed). clear E. simpl.
    eexists _, _. split; [reflexivity|]. simpl.
    rewrite <- !app_assoc. auto.
Qed.

(** C8.  When the capture does not open the source, [start] raises the
    [ValueError] naming the source, leaves the stopped flag and the frame
    slot as they were and starts no thread: the only event is the attempt to
    open; reached through [change_source], the failure leaves the flag set by
    [stop] and again starts no thread.  In the producer loop, when a read
    fails the pass sets the stopped flag and the loop exits, for every amount
    of fuel, having made that one read and no other, published nothing and
    started nothing. *)
Theorem frame_source_failures :
  (forall o w,
     can_open w (camera_index (source o)) = false ->
     exists o' w',
       start config (mk_St o w)
       = (Raise (ValueError ("Could not open video source: "
                             ++ str_source (camera_index (source o)))%string),
          mk_St o' w')
       /\ stopped o' = stopped o
       /\ frame o' = frame o
       /\ events w' = events w ++ [CaptureOpen (camera_index (source o))])
  /\ (forall o w new_source,
        can_open w (camera_index new_source) = false ->
        exists o' w' evs,
          change_source config new_source (mk_St o w) = (Ok false, mk_St o' w')
          /\ stopped o' = true
          /\ events w' = events w ++ evs
          /\ ThreadStart "VideoStream._update" ∉ evs)
  /\ (forall o w cap last fuel,
        stream o = Some cap ->
        stopped o = false ->
        next_read cap w = None ->
        exists o' w',
          update_loop (S fuel) last (mk_St o w) = (Ok Exited, mk_St o' w')
          /\ stopped o' = true
          /\ frame o' = frame o
          /\ feed w' = (if opened cap then tail (feed w) else feed w)
          /\ next_loc w' = next_loc w
          /\ events w'
             = events w ++ [Print ("Error reading frame from source: "
                                   ++ str_source (source o))%string]).
Proof.
  split; [|split].
  - intros o w Hclosed. rewrite (start_unavailable o w Hclosed).
    eexists _, _. split; [reflexivity|]. auto.
  - intros o w new_source Hclosed.
    destruct (change_source_unavailable o w new_source Hclosed)
      as (o' & w' & E & Hs & _ & Hev).
    eexists o', w', _. split; [exact E|]. split; [exact Hs|]. split; [exact Hev|].
    destruct (stream o); simpl; rewrite ?elem_of_cons, elem_of_nil;
      intros H; repeat destruct H as [H|H]; try discriminate H; exact H.
  - intros o w cap last fuel Hcap Hrun Hread.
    cbn [update_loop]. run_monad. rewrite Hrun.
    rewrite (update_iteration_failure o w cap last Hcap Hread).
    eexists _, _. split; [reflexivity|]. simpl.
    destruct (opened cap); auto.
Qed.

End VideoStreamFacts.

(** *** Track histories *)

Section TrackFacts.
Import YOLODetector Tracks.

Lemma update_history_same tid c (h : History) :
  update_history tid c h !! tid
  = Some (let l := default [] (h !! tid) ++ [c] in
          if (30 <? length l)%nat then tail l else l).
Proof.
  unfold update_history. rewrite !lookup_alter_eq.
  destruct (h !! tid) as [l|] eqn:E; simpl.
  - rewrite E. reflexivity.
  - rewrite lookup_insert_eq. reflexivity.
Qed.

Lemma update_history_other tid tid' c (h : History) :
  tid <> tid' -> update_history tid c h !! tid' = h !! tid'.
Proof.
  intros Hne. unfold update_history. rewrite !lookup_alter_ne by done.
  destruct (h !! tid); [reflexivity | by rewrite lookup_insert_ne].
Qed.

Lemma most_recent_snoc {A} (l : list A) (x : A) :
  (let k := most_recent 30 l ++ [x] in
   if (30 <? length k)%nat then tail k else k) = most_recent 30 (l ++ [x]).
Proof.
  unfold most_recent. cbv zeta.
  rewrite !length_app, length_drop. simpl.
  destruct (30 <? _)%nat eqn:E.
  - apply Nat.ltb_lt in E.
    replace (length l + 1 - 30)%nat with (length l - 30 + 1)%nat by lia.
    rewrite drop_app_le by lia.
    rewrite <- (drop_drop l 1 (length l - 30)).
    change (tail (drop (length l - 30) l ++ [x])) with (drop 1 (drop (length l - 30) l ++ [x])).
    rewrite drop_app_le; [reflexivity|]. rewrite length_drop. lia.
  - apply Nat.ltb_ge in E.
    replace (length l - 30)%nat with 0%nat by lia.
    replace (length l + 1 - 30)%nat with 0%nat by lia. reflexivity.
Qed.

(** The stored trail of a track is the 30 most recent of its points. *)
Lemma history_lookup tid ups :
  history ups !! tid
  = (if decide (points tid ups = []) then None
     else Some (most_recent 30 (points tid ups))).
Proof.
  induction ups as [|[t c] ups IH] using rev_ind; [reflexivity|].
  unfold history, points in *. rewrite foldl_app, filter_app, fmap_app. simpl.
  destruct (decide (t = tid)) as [->|Hne].
  - rewrite update_history_same, IH.
    rewrite filter_cons_True by done. rewrite filter_nil. simpl.
    set (pts := (filter _ ups).*2) in *.
    destruct (decide (pts ++ [c] = [])) as [E|_]; [by destruct pts|].
    f_equal. destruct (decide (pts = [])) as [E|E]; simpl.
    + rewrite E. reflexivity.
    + apply most_recent_snoc.
  - rewrite update_history_other by done. rewrite IH.
    rewrite filter_cons_False by done. rewrite filter_nil. simpl.
    rewrite app_nil_r. reflexivity.
Qed.

(** C6.  For every track, after any updates the stored history holds at
    most 30 centre points; once the track has been updated 30 times or more
    it holds exactly 30, the 30 most recent ones in the order they were
    pushed, the older ones having been dropped from the front. *)
Theorem track_history_bounded tid ups :
  match history ups !! tid with
  | None => points tid ups = []
  | Some l =>
      l = most_recent 30 (points tid ups)
      /\ (length l <= 30)%nat
      /\ ((30 <= length (points tid ups))%nat -> length l = 30%nat)
      /\ exists older, points tid ups = older ++ l
  end.
Proof.
  rewrite history_lookup. destruct (decide _) as [E|E]; [exact E|].
  unfold most_recent. rewrite length_drop.
  repeat split; try lia.
  exists (take (length (points tid ups) - 30) (points tid ups)).
  by rewrite take_drop.
Qed.

(** Forty pushes on track 7 keep the pushes 11 to 40. *)
Example track_history_forty :
  history ((fun i => (7, (Z.of_nat i, 0))) <$> seq 1 40) !! 7
  = Some ((fun i => (Z.of_nat i, 0)) <$> seq 11 30).
Proof. vm_compute. reflexivity. Qed.

End TrackFacts.

(** *** The detector *)

Section DetectorFacts.
Import YOLODetector Ext.
Variable Model : Type.
Variable YOLO : string -> result Model.
Variable track : Model -> ndarray -> float -> float -> result (list Result) * Model.
Variable render : DrawOp -> ndarray -> ndarray.

Lemma bind_run {S A B} (m : M S A) (k : A -> M S B) s a s' :
  m s = (Ok a, s') -> (m ≫= k) s = k a s'.
Proof. intros E. unfold mbind, M_bind, bind. by rewrite E. Qed.

(** A loop whose body always returns and keeps the object returns and
    keeps the object. *)
Lemma for_each_preserves {A B} (body : A -> M (St Model) B) :
  (forall x s, exists y w', body x s = (Ok y, mk_St Model (self Model s) w')) ->
  forall l s, exists ys w', for_each l body s = (Ok ys, mk_St Model (self Model s) w').
Proof.
  intros Hbody l. induction l as [|x l IH]; intros s.
  - exists [], (world Model s). by destruct s.
  - cbn [for_each]. destruct (Hbody x s) as (y & w1 & E1).
    rewrite (bind_run _ _ _ _ _ E1).
    destruct (IH (mk_St Model (self Model s) w1)) as (ys & w2 & E2).
    rewrite (bind_run _ _ _ _ _ E2). by exists (y :: ys), w2.
Qed.

(** A tracked box pushes its centre on the history of its track. *)
Lemma tracked_box_history fr class_names box cls_id cf tid (s s' : St Model) d :
  tracked_box Model render fr class_names (box, cls_id, cf, tid) s = (Ok d, s') ->
  track_history Model (self Model s')
  = update_history tid (center_of (box_int box)) (track_history Model (self Model s))
  /\ track_id d = tid.
Proof.
  unfold tracked_box. destruct (box_int box) as [[[x1 y1] x2] y2] eqn:Hbox.
  unfold class_name_of, draw, ext, update_self, time, mutate. run_monad.
  destruct (int_float cls_id) as [k|e]; simpl; [|discriminate].
  destruct (class_names !! k) as [name|]; simpl; [|discriminate].
  match goal with |- context [for_each ?ops ?body ?s1] =>
    destruct (for_each_preserves body (fun x s => ex_intro _ _ (ex_intro _ _ eq_refl)) ops s1)
      as (ys & w' & E) end.
  rewrite E. simpl. intros [= <- <-]. simpl. auto.
Qed.

(** C9.  When neither the configured weights nor the fallback weights
    load, the constructor returns with no model and reports both failures,
    and from then on [detect_and_track] hands back the very frame it was
    given with an empty list of detections, raising nothing and changing
    nothing. *)
Theorem detect_and_track_without_model model_path conf_t iou_t e1 e2 w :
  YOLO model_path = Raise e1 ->
  YOLO "yolov8n.pt" = Raise e2 ->
  exists o w',
    init Model YOLO model_path conf_t iou_t w = (Ok tt, mk_St Model o w')
    /\ model Model o = None
    /\ events w'
       = events w ++ [Print ("Error loading YOLOv11m model: " ++ str_exn e1)%string;
                      Print ("Error loading fallback model: " ++ str_exn e2)%string]
    /\ forall frame w2,
         detect_and_track Model track render frame (mk_St Model o w2)
         = (Ok (frame, []), mk_St Model o w2).
Proof.
  intros H1 H2. unfold init, ext, update_self, print, emit. run_monad.
  rewrite H1. simpl. rewrite H2. simpl.
  eexists _, _. split; [reflexivity|]. simpl.
  rewrite <- app_assoc. repeat split; auto.
Qed.

End DetectorFacts.

(** *** Lifecycle and streaming *)

Section AppFacts.
Import App Ext.
Variable config : Config.t.
Variable Model : Type.
Variable imencode : ndarray -> result string.

(** C3.  [start_stream] while the stream is active answers with the pair
    (error, Stream already active) and [stop_stream] while it is not active
    answers with the pair (error, No active stream to stop); each returns
    normally and leaves the globals and the world exactly as they were, so
    nothing is restarted or stopped. *)
Theorem lifecycle_misuse_reported :
  (forall (s : St Model) body,
     stream_active Model (globals Model s) = true ->
     start_stream config Model body s
     = (Ok (mk_Response "error" "Stream already active"), s))
  /\ (forall s : St Model,
        stream_active Model (globals Model s) = false ->
        stop_stream Model s
        = (Ok (mk_Response "error" "No active stream to stop"), s)).
Proof.
  split.
  - intros s body Hactive. unfold start_stream. run_monad. by rewrite Hactive.
  - intros s Hidle. unfold stop_stream. run_monad. by rewrite Hidle.
Qed.

Lemma well_formed_zeros h w c : well_formed (np_zeros h w c).
Proof.
  unfold well_formed, np_zeros. cbn [shape pixels]. split.
  - by rewrite repeat_length, N2Nat.id.
  - apply Forall_forall. intros p Hp. apply list_elem_of_In in Hp. apply repeat_spec in Hp. subst p. reflexivity.
Qed.

Lemma next_frame_blank (s : St Model) data :
  processing_frame Model (globals Model s) = None ->
  imencode (np_zeros 480 640 3) = Ok data ->
  next_frame Model imencode s = (Ok (chunk data), s).
Proof.
  intros Hnone Hcodec. unfold next_frame. run_monad. rewrite Hnone. simpl.
  by rewrite Hcodec.
Qed.

(** C7 (amended).  While no processed frame has been published, every part
    a viewer pulls carries the encoding of a blank frame of 480 rows, 640
    columns and 3 channels, all bytes zero, and the generator neither raises
    nor touches the globals; that size is written in the generator itself,
    and it is the configured FRAME_HEIGHT by FRAME_WIDTH when the
    environment sets neither of them. *)
Theorem blank_frame_before_first_publish (s : St Model) n data :
  processing_frame Model (globals Model s) = None ->
  imencode (np_zeros 480 640 3) = Ok data ->
  (exists w',
     generate_frames Model imencode n s
     = (Ok (replicate n (chunk data)), mk_St Model (globals Model s) w'))
  /\ shape (np_zeros 480 640 3) = (480, 640, 3)%N
  /\ well_formed (np_zeros 480 640 3)
  /\ Forall (fun p => p = 0%N) (pixels (np_zeros 480 640 3))
  /\ (forall environ loaded,
        environ !! "FRAME_WIDTH" = None ->
        environ !! "FRAME_HEIGHT" = None ->
        Config.load environ = Some loaded ->
        shape (np_zeros 480 640 3)
        = (Z.to_N (Config.FRAME_HEIGHT loaded), Z.to_N (Config.FRAME_WIDTH loaded), 3%N)).
Proof.
  intros Hnone Hcodec.
  split; [|split; [reflexivity|split; [apply well_formed_zeros|split]]].
  - revert s Hnone. induction n as [|n IH]; intros s Hnone.
    + exists (world Model s). by destruct s.
    + cbn [generate_frames]. destruct n as [|n].
      * run_monad. rewrite (next_frame_blank s data Hnone Hcodec).
        exists (world Model s). by destruct s.
      * set (rest := generate_frames Model imencode (S n)) in *. clearbody rest.
        run_monad. rewrite (next_frame_blank s data Hnone Hcodec).
        unfold ext, perform. run_monad.
        match goal with |- context [rest ?s1] =>
          destruct (IH s1 Hnone) as (w' & E) end.
        rewrite E. by exists w'.
  - apply Forall_forall. intros p Hp. unfold np_zeros in Hp. cbn [pixels] in Hp.
    apply list_elem_of_In in Hp. by apply repeat_spec in Hp.
  - intros environ loaded Hw Hh Hload. unfold Config.load, Config.getenv_int in Hload.
    rewrite Hw, Hh in Hload. by simplify_option_eq.
Qed.

End AppFacts.

(** C7 as stated fails for a configured resolution: under the environment
    [FRAME_WIDTH=1280] the configured width is 1280, and the part pulled
    before any publish still carries a frame of 480 by 640 by 3. *)
Lemma blank_frame_ignores_configured_width :
  exists loaded,
    Config.load {[ "FRAME_WIDTH" := "1280" ]} = Some loaded
    /\ Config.FRAME_WIDTH loaded = 1280
    /\ App.next_frame unit Samples.shape_codec (App.initial unit Samples.world0)
       = (Ok (App.chunk "480x640x3"), App.initial unit Samples.world0).
Proof.
  eexists. split; [vm_compute; reflexivity|]. split; reflexivity.
Qed.

(* ===================================================================== *)
(** ** The statements on sample inputs *)
(* ===================================================================== *)

Section Runs.
Import Samples.

Lemma label_normalized_box_witness :
  exists w' evs label,
    DetectionStorage.save_detection_label metal5 frame0 ledger0
    = (Ok tt, DetectionStorage.mk_St (DetectionStorage.self ledger0) w')
    /\ events w' = events (DetectionStorage.world ledger0) ++ evs
    /\ label_writes evs = [("data/1700000000_metal_5.txt", label)]
    /\ class_id label = 0
    /\ within (x_center label) 0.09375 (1 # 10000)
    /\ within (y_center label) 0.25 (1 # 10000)
    /\ within (bbox_width label) 0.15625 (1 # 10000)
    /\ within (bbox_height label) 0.41667 (1 # 10000)
    /\ within (x_center label) (inject_Z (10 + 110) / 2 / 640) (1 # 1000000000000000)
    /\ within (y_center label) (inject_Z (20 + 220) / 2 / 480) (1 # 1000000000000000)
    /\ within (bbox_width label) (inject_Z (110 - 10) / 640) (1 # 1000000000000000)
    /\ within (bbox_height label) (inject_Z (220 - 20) / 480) (1 # 1000000000000000).
Proof.
  assert (Hv : Ledger.valid_timestamp metal5) by (exists 1700000000; vm_compute; reflexivity).
  destruct (label_normalized_box metal5 frame0 ledger0 10 20 110 220 480%N 640%N 3%N
              eq_refl eq_refl Hv)
    as (w' & evs & label & E & Hev & Hl & Hc & _ & _ & _ & _ & Hacc & Hnum).
  destruct (Hacc eq_refl ltac:(lia) ltac:(lia) ltac:(lia) ltac:(lia))
    as (Ax & Ay & Aw & Ah).
  destruct (Hnum eq_refl eq_refl) as (Nx & Ny & Nw & Nh).
  exists w', evs, label.
  split; [exact E|]. split; [exact Hev|]. split; [exact Hl|]. split; [exact Hc|].
  split; [exact Nx|]. split; [exact Ny|]. split; [exact Nw|]. split; [exact Nh|].
  split; [exact Ax|]. split; [exact Ay|]. split; [exact Aw | exact Ah].
Defined.

(** The run of the specification: (metal, 5) recorded twice gives true
    then false, one image and one label, and a counter at 2. *)
Example ledger_metal5_twice :
  let '(outs, s) := Ledger.record_all config_default
                      [(metal5, frame0); (metal5, frame0)] ledger0 in
  outs.*1 = [Ok true; Ok false]
  /\ image_writes (concat outs.*2) = [("data/1700000000_metal_5.jpg", frame0)]
  /\ length (label_writes (concat outs.*2)) = 1%nat
  /\ transactions (concat outs.*2)
     = ["statistics/wasteTypes/metal"; "statistics/wasteTypes/metal"]
  /\ counters (DetectionStorage.world s) !! "statistics/wasteTypes/metal" = Some 2.
Proof.
  generalize frame0. intros frame. vm_compute. repeat split; reflexivity.
Qed.

Lemma frame_source_failures_witness :
  (exists o' w',
     VideoStream.start config_default
       (VideoStream.mk_St (VideoStream.init config_default (SrcStr "0")) world_closed)
     = (Raise (ValueError "Could not open video source: 0"), VideoStream.mk_St o' w')
     /\ VideoStream.stopped o' = false
     /\ VideoStream.frame o' = None
     /\ events w' = [CaptureOpen (SrcInt 0)])
  /\ (exists o' w',
        VideoStream.update_loop 5 0%float
          (VideoStream.mk_St
             (VideoStream.set_stream (Some (VideoStream.mk_Capture (SrcInt 0) true))
                (VideoStream.init config_default (SrcInt 0)))
             (Ext.set_feed [None; Some frame0] world0))
        = (Ok VideoStream.Exited, VideoStream.mk_St o' w')
        /\ VideoStream.stopped o' = true
        /\ VideoStream.frame o' = None
        /\ feed w' = [Some frame0]
        /\ next_loc w' = 0%nat
        /\ events w' = [Print "Error reading frame from source: 0"]).
Proof.
  destruct (frame_source_failures config_default) as (Hstart & _ & Hloop). split.
  - exact (Hstart (VideoStream.init config_default (SrcStr "0")) world_closed eq_refl).
  - exact (Hloop (VideoStream.set_stream (Some (VideoStream.mk_Capture (SrcInt 0) true))
                   (VideoStream.init config_default (SrcInt 0)))
                 (Ext.set_feed [None; Some frame0] world0)
                 (VideoStream.mk_Capture (SrcInt 0) true) 0%float 4%nat
                 eq_refl eq_refl eq_refl).
Defined.

(** A source that does not open, seen from the route: the reply is the
    error pair, no stream object is bound, nothing is started. *)
Example start_stream_unavailable_run :
  App.start_stream config_default unit (Some None) (App.initial unit world_closed)
  = (Ok (mk_Response "error" "Could not open video source: 0"),
     App.mk_St unit (App.mk unit None None None None None false)
       (Ext.set_events [CaptureOpen (SrcInt 0)] world_closed)).
Proof. reflexivity. Qed.

Lemma detect_and_track_without_model_witness :
  exists o w',
    YOLODetector.init unit no_weights "yolov11m.pt" 0.5%float 0.45%float world0
    = (Ok tt, YOLODetector.mk_St unit o w')
    /\ YOLODetector.model unit o = None
    /\ events w'
       = [Print "Error loading YOLOv11m model: No such file: yolov11m.pt";
          Print "Error loading fallback model: No such file: yolov8n.pt"]
    /\ forall frame w2,
         YOLODetector.detect_and_track unit (fun m _ _ _ => (Ok [], m)) (fun _ a => a)
           frame (YOLODetector.mk_St unit o w2)
         = (Ok (frame, []), YOLODetector.mk_St unit o w2).
Proof.
  exact (detect_and_track_without_model unit no_weights (fun m _ _ _ => (Ok [], m))
           (fun _ a => a) "yolov11m.pt" 0.5%float 0.45%float _ _ world0 eq_refl eq_refl).
Defined.

Lemma lifecycle_misuse_reported_witness :
  App.start_stream config_default unit (Some None)
    (App.mk_St unit (App.mk unit None None None None None true) world0)
  = (Ok (mk_Response "error" "Stream already active"),
     App.mk_St unit (App.mk unit None None None None None true) world0)
  /\ App.stop_stream unit (App.initial unit world0)
     = (Ok (mk_Response "error" "No active stream to stop"), App.initial unit world0).
Proof.
  destruct (lifecycle_misuse_reported config_default unit) as [Hstart Hstop]. split.
  - exact (Hstart (App.mk_St unit (App.mk unit None None None None None true) world0)
                  (Some None) eq_refl).
  - exact (Hstop (App.initial unit world0) eq_refl).
Defined.

(** The run of the specification: start, start again, stop, stop again. *)
Example lifecycle_run :
  (r1 ← App.start_stream config_default unit (Some (Some (SrcStr "0")));
   r2 ← App.start_stream config_default unit (Some (Some (SrcStr "0")));
   r3 ← App.stop_stream unit;
   r4 ← App.stop_stream unit;
   mret [r1; r2; r3; r4]) (App.initial unit world0)
  = (Ok [mk_Response "success" "Stream started with source: 0";
         mk_Response "error" "Stream already active";
         mk_Response "success" "Stream stopped";
         mk_Response "error" "No active stream to stop"],
     App.mk_St unit
       (App.mk unit
          (Some (VideoStream.mk (SrcInt 0) (Some (VideoStream.mk_Capture (SrcInt 0) false))
                   None true 30 0%float 0 0%float))
          None None (Some "process_frames") None false)
       (Ext.set_events
          [CaptureOpen (SrcInt 0); CaptureSet "CAP_PROP_FRAME_WIDTH" 640;
           CaptureSet "CAP_PROP_FRAME_HEIGHT" 480; ThreadStart "VideoStream._update";
           ThreadStart "process_frames"; ThreadJoin "process_frames";
           CaptureRelease (SrcInt 0)] world0)).
Proof. reflexivity. Qed.

Lemma blank_frame_before_first_publish_witness :
  exists w',
    App.generate_frames unit shape_codec 2 (App.initial unit world0)
    = (Ok [App.chunk "480x640x3"; App.chunk "480x640x3"],
       App.mk_St unit (App.globals unit (App.initial unit world0)) w').
Proof.
  destruct (blank_frame_before_first_publish unit shape_codec (App.initial unit world0)
              2 "480x640x3" eq_refl eq_refl) as [Hparts _].
  exact Hparts.
Defined.

End Runs.

(* ===================================================================== *)
(** ** Further properties of the code *)
(* ===================================================================== *)

(** *** The ledger over sequences of calls *)

Section LedgerMore.
Import DetectionStorage Ext Ledger.
Variable config : Config.t.

(** X1.  After any sequence of calls of [store_detection] the seen-set is
    the one it started from together with the keys of all the detections
    recorded when saving is enabled, and the one it started from when saving
    is disabled; the storage path and the counter connection never change. *)
Theorem seen_objects_after_calls calls s :
  Forall (fun c => valid_timestamp c.1) calls ->
  let s' := (record_all config calls s).2 in
  seen_objects (self s')
  = (if Config.SAVE_DETECTIONS config
     then seen_objects (self s) ∪ list_to_set (object_id <$> calls.*1)
     else seen_objects (self s))
  /\ storage_path (self s') = storage_path (self s)
  /\ db_ref (self s') = db_ref (self s).
Proof.
  intros Hvalid. revert s. induction Hvalid as [|c rest Hc Hrest IH]; intros s.
  - simpl. destruct (Config.SAVE_DETECTIONS config); repeat split; auto.
    by rewrite union_empty_r_L.
  - destruct (record_runs config c s Hc) as (w' & evs & E & _).
    cbn [record_all]. rewrite E.
    match type of E with _ = (_, ?s1) => specialize (IH s1); set (t1 := s1) in * end.
    destruct (record_all config rest t1) as [outs s''] eqn:Erest.
    cbn zeta in IH. simpl in IH |- *. destruct IH as (Hseen & Hpath & Href).
    rewrite Hseen, Hpath, Href. subst t1. simpl.
    destruct (Config.SAVE_DETECTIONS config).
    + rewrite andb_true_r.
      destruct (bool_decide (object_id c.1 ∉ seen_objects (self s))) eqn:B; simpl.
      * repeat split; auto. rewrite (assoc_L (∪)).
        by rewrite (comm_L (∪) {[object_id c.1]}).
      * repeat split; auto.
        apply bool_decide_eq_false in B. apply dec_stable in B.
        rewrite (assoc_L (∪)). f_equal. symmetry.
        rewrite (comm_L (∪)). apply subseteq_union_1_L. by apply singleton_subseteq_l.
    + rewrite andb_false_r. auto.
Qed.

(** The fault schedule is only ever consumed from its head. *)
Lemma store_detection_faults d frame s :
  valid_timestamp d ->
  exists n, faults (world (store_detection config d frame s).2)
            = drop n (faults (world s)).
Proof.
  intros Hv.
  destruct (store_to_firebase_runs d s)
    as (w1 & evs1 & E1 & _ & _ & _ & _ & Hf1 & _).
  set (shown := PrintDetection (class d) (track_id d) (confidence d) (timestamp d)).
  unfold store_detection. run_monad. rewrite E1.
  destruct Hv as [n Hn]. rewrite Hn. fold shown.
  unfold ext, perform, zoom, modify. simpl.
  destruct (_ && _).
  - destruct (save_detection_image_runs d frame (mk_St (self s) (emit shown w1)))
      as (w2 & evs2 & E2 & _ & _ & Hf2 & _); [by exists n|].
    simpl in *. rewrite E2.
    destruct (save_detection_label_runs d frame (mk_St (self s) w2))
      as (w3 & evs3 & E3 & _ & _ & Hf3 & _); [by exists n|].
    simpl in *. rewrite E3. unfold update_self, modify. simpl.
    rewrite Hf3, Hf2, Hf1.
    change (tail (tail ?l)) with (drop 1 (drop 1 l)). rewrite !drop_drop. eauto.
  - simpl. rewrite Hf1. eauto.
Qed.

(** One call when no external call is scheduled to fail. *)
Lemma store_detection_no_fault d frame s :
  valid_timestamp d ->
  faults (world s) = [] ->
  exists new s',
    store_detection config d frame s = (Ok new, s')
    /\ faults (world s') = []
    /\ db_ref (self s') = db_ref (self s)
    /\ counters (world s')
       = (if relays (self s) d
          then <[bucket d := increment_count (default 1 (count d))
                               (counters (world s) !! bucket d)]> (counters (world s))
          else counters (world s)).
Proof.
  intros Hv Hf.
  destruct (store_detection_faults d frame s Hv) as [n Hn].
  destruct (store_detection_runs config d frame s Hv)
    as (w' & evs & E & _ & _ & _ & _ & Hr & _).
  rewrite E in Hn. simpl in Hn. rewrite Hf, drop_nil in Hn.
  eexists _, _. split; [exact E|]. simpl. split; [exact Hn|]. split.
  - by destruct (_ && _).
  - unfold relay_outcome in Hr. rewrite Hf in Hr. simpl in Hr.
    destruct (relays (self s) d); [exact Hr | by destruct Hr].
Qed.

(** X2.  With the counter connection initialised and no external call
    failing, after any sequence of calls the counter of each waste type holds
    what it held before plus the counts of all the calls whose class lowers
    to that type, whether their identities were new or not and whether saving
    is enabled or not; a call without a count adds 1. *)
Theorem counters_after_calls calls s c :
  Forall (fun call => valid_timestamp call.1) calls ->
  faults (world s) = [] ->
  is_Some (db_ref (self s)) ->
  c ∈ waste_types ->
  counters (world (record_all config calls s).2) !! ("statistics/wasteTypes/" ++ c)%string
  = counted (counters (world s) !! ("statistics/wasteTypes/" ++ c)%string)
            (relayed c calls).
Proof.
  intros Hvalid. revert s. induction Hvalid as [|[d frame] rest Hd Hrest IH];
    intros s Hf Href Hc.
  - reflexivity.
  - simpl in Hd.
    destruct (store_detection_no_fault d frame s Hd Hf) as (new & s1 & E & Hf1 & Hr1 & Hc1).
    cbn [record_all]. unfold record. cbn [fst snd]. rewrite E.
    specialize (IH s1 Hf1). rewrite Hr1 in IH. specialize (IH Href Hc).
    destruct (record_all config rest s1) as [outs s''] eqn:Erest. simpl in IH |- *.
    rewrite IH, Hc1. unfold relayed.
    destruct Href as [r Hr]. unfold relays, bucket. rewrite Hr.
    rewrite filter_cons. simpl.
    destruct (decide (lower (class d) = c)) as [<-|Hne].
    + rewrite bool_decide_eq_true_2 by done. rewrite lookup_insert_eq.
      rewrite fmap_cons. cbn [fst].
      match goal with |- context [?f <$> filter ?P rest] =>
        generalize (f <$> filter P rest) end.
      intros l. unfold counted, increment_count.
      destruct (counters (world s) !! _) as [v|]; destruct l; simpl; f_equal; lia.
    + destruct (bool_decide (lower (class d) ∈ waste_types)); [|reflexivity].
      rewrite lookup_insert_ne; [reflexivity|].
      intros Heq. apply Hne. by apply (inj (String.append "statistics/wasteTypes/")) in Heq.
Qed.

End LedgerMore.

(** *** The files of a detection *)

Section FileNames.
Import DetectionStorage Ext Ledger.

Lemma append_cons c (a b : string) : (String c a ++ b = String c (a ++ b))%string.
Proof. reflexivity. Qed.

Lemma append_empty (b : string) : ("" ++ b = b)%string.
Proof. reflexivity. Qed.

Lemma length_append (a b : string) :
  String.length (a ++ b)%string = (String.length a + String.length b)%nat.
Proof.
  induction a as [|c a IH]; [reflexivity|].
  rewrite append_cons. cbn [String.length Nat.add]. by rewrite IH.
Qed.

Lemma append_inv_tail (a1 a2 b : string) :
  (a1 ++ b = a2 ++ b)%string -> a1 = a2.
Proof.
  revert a2. induction a1 as [|x a1 IH]; intros [|y a2] E;
    rewrite ?append_cons, ?append_empty in E.
  - reflexivity.
  - apply (f_equal String.length) in E. cbn [String.length] in E.
    rewrite length_append in E. lia.
  - apply (f_equal String.length) in E. cbn [String.length] in E.
    rewrite length_append in E. lia.
  - injection E as -> E. f_equal. by apply IH.
Qed.

Lemma free_of_append c (a b : string) :
  free_of c a -> free_of c b -> free_of c (a ++ b)%string.
Proof.
  induction a as [|x a IH]; rewrite ?append_cons, ?append_empty; cbn [free_of]; [tauto|].
  intros [? ?] ?. split; auto.
Qed.

(** A text cut at its first separator is cut in one way only. *)
Lemma append_sep_inj_head c a1 a2 b1 b2 :
  free_of c a1 -> free_of c a2 ->
  (a1 ++ String c b1 = a2 ++ String c b2)%string -> a1 = a2 /\ b1 = b2.
Proof.
  revert a2. induction a1 as [|x a1 IH]; intros [|y a2] H1 H2 E;
    rewrite ?append_cons, ?append_empty in E; cbn [free_of] in *.
  - by injection E as ->.
  - injection E as <- _. tauto.
  - injection E as -> _. tauto.
  - injection E as -> E. destruct (IH a2) as [-> ->]; tauto.
Qed.

(** The text of an integer starts with a digit or a minus sign. *)
Lemma str_int_head n :
  exists c rest, str_int n = String c rest /\ c <> "/"%char.
Proof.
  assert (Hu : forall d, d <> Decimal.Nil ->
            exists c rest, NilZero.string_of_uint d = String c rest /\ c <> "/"%char).
  { intros d Hd. destruct d; try congruence; cbn; eexists _, _; split; eauto; discriminate. }
  unfold str_int.
  destruct n as [|p|p]; cbn [Z.to_int NilZero.string_of_int].
  - apply Hu. discriminate.
  - apply Hu, DecimalPos.Unsigned.to_uint_nonnil.
  - eexists _, _. split; [reflexivity | discriminate].
Qed.

Lemma path_join_inj dir b1 b2 :
  (forall r, b1 <> String "/" r) -> (forall r, b2 <> String "/" r) ->
  path_join dir b1 = path_join dir b2 -> b1 = b2.
Proof.
  intros H1 H2. unfold path_join.
  assert (Hcase : forall b, (forall r, b <> String "/" r) ->
            match b with
            | String "/"%char _ => b
            | _ => if bool_decide (dir = "") || ends_with_slash dir
                   then (dir ++ b)%string else (dir ++ "/" ++ b)%string
            end
            = if bool_decide (dir = "") || ends_with_slash dir
              then (dir ++ b)%string else (dir ++ "/" ++ b)%string).
  { intros [|c b] Hb; [reflexivity|].
    destruct (decide (c = "/"%char)) as [->|Hc]; [by destruct (Hb b)|].
    destruct c as [[] [] [] [] [] [] [] []]; try reflexivity. by destruct Hc. }
  rewrite (Hcase b1 H1), (Hcase b2 H2).
  destruct (_ || _); intros E.
  - by apply (inj (String.append dir)) in E.
  - apply (inj (String.append dir)) in E. by apply (inj (String.append "/")) in E.
Qed.

(** X3.  In one storage directory, two detections are given the same image
    file, or the same label file, only when they have the same integer
    stamp, the same class and the same track identifier: distinct
    identities never share a file, whatever underscores their class names
    contain. *)
Theorem detection_files_distinct dir t1 t2 d1 d2 suffix :
  suffix = ".jpg" \/ suffix = ".txt" ->
  path_join dir (filename t1 d1 suffix) = path_join dir (filename t2 d2 suffix) ->
  t1 = t2 /\ class d1 = class d2 /\ track_id d1 = track_id d2.
Proof.
  intros Hsfx E.
  assert (Hfree : free_of "_" suffix) by (destruct Hsfx as [-> | ->]; cbn; intuition discriminate).
  assert (Hhead : forall t d r, filename t d suffix <> String "/" r).
  { intros t d r. unfold filename. destruct (str_int_head t) as (c & rest & -> & Hc).
    rewrite append_cons. congruence. }
  apply path_join_inj in E; auto. unfold filename in E.
  apply append_sep_inj_head in E;
    try (apply free_of_str_int; [reflexivity | discriminate]).
  destruct E as [Et E]. apply str_int_inj in Et.
  apply append_sep_inj in E;
    try (apply free_of_append; [apply free_of_str_int; [reflexivity | discriminate] | exact Hfree]).
  destruct E as [Ec E]. apply append_inv_tail, str_int_inj in E. auto.
Qed.

End FileNames.

(** *** The frame source *)

Section SourceMore.
Import VideoStream Ext Camera.
Variable config : Config.t.

(** [start] on a source that opens. *)
Lemma start_available o w :
  can_open w (camera_index (source o)) = true ->
  let src := camera_index (source o) in
  start config (mk_St o w)
  = (Ok tt,
     mk_St (set_stopped false (set_stream (Some (mk_Capture src true)) (set_source src o)))
           (set_events (events w ++ [CaptureOpen src;
                          CaptureSet "CAP_PROP_FRAME_WIDTH" (Config.FRAME_WIDTH config);
                          CaptureSet "CAP_PROP_FRAME_HEIGHT" (Config.FRAME_HEIGHT config);
                          ThreadStart "VideoStream._update"]) w)).
Proof.
  intros Hopen src. subst src.
  unfold start, VideoCapture, ext, update_self, perform, emit. run_monad.
  rewrite Hopen. simpl. rewrite <- !app_assoc. reflexivity.
Qed.

(** X4.  [change_source] answers whether the new source opens.  Either way
    the frame slot keeps the frame published last, so readers go on
    receiving the last frame of the old source; when the source opens the
    stream is running again on the camera index or address given and one
    producer thread is started, and when it does not the stream is left
    stopped and no thread is started. *)
Theorem change_source_outcome o w new_source :
  let src := camera_index new_source in
  exists o' w' evs,
    change_source config new_source (mk_St o w) = (Ok (can_open w src), mk_St o' w')
    /\ frame o' = frame o
    /\ source o' = src
    /\ stopped o' = negb (can_open w src)
    /\ events w' = events w ++ evs
    /\ (ThreadStart "VideoStream._update" ∈ evs <-> can_open w src = true).
Proof.
  intros src. destruct (can_open w src) eqn:Hopen.
  - unfold change_source, stop.
    unfold ext at 1 2, update_self at 1 2 3, perform, print. run_monad.
    destruct (stream o) as [cap|]; simpl;
      match goal with |- context [start config ?s1] =>
        pose proof (start_available (self s1) (world s1)) as E end;
      cbn [self world] in E; rewrite (E Hopen); clear E; simpl;
      eexists _, _, _; (split; [reflexivity|]); simpl;
      rewrite <- ?app_assoc; repeat split; auto; intros _; in_list.
  - destruct (change_source_unavailable config o w new_source Hopen)
      as (o' & w' & E & Hs & Hfr & Hev).
    assert (Hsrc : source o' = src).
    { revert E. unfold change_source, stop.
      unfold ext at 1 2, update_self at 1 2 3, perform, print. run_monad.
      destruct (stream o) as [cap|]; simpl;
        match goal with |- context [start config ?s1] =>
          pose proof (start_unavailable config (self s1) (world s1)) as E end;
        cbn [self world] in E; rewrite (E Hopen); clear E; simpl;
        by intros [= <- _]. }
    eexists o', w', _. split; [exact E|].
    split; [exact Hfr|]. split; [exact Hsrc|]. split; [exact Hs|].
    split; [exact Hev|]. split; [|discriminate].
    destruct (stream o); intros H%list_elem_of_In; simpl in H; intuition discriminate.
Qed.

(** A pass of the producer loop whose read succeeds, up to the pacing. *)
Lemma update_iteration_publishes o w cap a rest last :
  stream o = Some cap ->
  opened cap = true ->
  feed w = Some a :: rest ->
  exists o' w' r,
    update_iteration last (mk_St o w) = (r, mk_St o' w')
    /\ r = (if fps o =? 0 then Raise (ZeroDivisionError "float division by zero")
            else r)
    /\ (fps o <> 0 -> exists last', r = Ok (Continue last'))
    /\ frame o' = Some (next_loc w)
    /\ last_frame_time o' = clock w (ticks w)
    /\ stream o' = stream o /\ stopped o' = stopped o /\ fps o' = fps o
    /\ source o' = source o
    /\ arrays w' (next_loc w) = a
    /\ (forall l, l <> next_loc w -> arrays w' l = arrays w l)
    /\ next_loc w' = S (next_loc w)
    /\ feed w' = rest
    /\ can_open w' = can_open w.
Proof.
  intros Hcap Hopen Hfeed. unfold update_iteration, capture_read.
  unfold ext, update_self, print, perform, time, alloc, emit. run_monad.
  rewrite Hcap, Hopen. simpl. rewrite Hfeed. simpl.
  assert (Hother : forall l, l <> next_loc w ->
            (if (l =? next_loc w)%nat then a else arrays w l) = arrays w l).
  { intros l Hl. apply Nat.eqb_neq in Hl. by rewrite Hl. }
  destruct (1 <=? _)%float; simpl;
    (destruct (fps o =? 0) eqn:Hrate; simpl;
     [ eexists _, _, _; split; [reflexivity|]; simpl; rewrite ?Nat.eqb_refl;
       repeat split; auto; intros Hne; apply Z.eqb_eq in Hrate; contradiction
     | destruct (0 <? _)%float; simpl;
       [ match goal with |- context [(0 <? ?x)%float] => destruct (0 <? x)%float end |];
       simpl; eexists _, _, _; (split; [reflexivity|]); simpl; rewrite ?Nat.eqb_refl;
       repeat split; eauto ]).
Qed.

(** X5.  With a frame rate of 0 configured, the first pass of the producer
    loop publishes the frame it read and then raises [ZeroDivisionError]
    while computing the pacing delay: the loop is dead after one frame, and
    the stopped flag is still false. *)
Theorem producer_dies_at_rate_zero o w cap a rest last fuel :
  stream o = Some cap ->
  opened cap = true ->
  stopped o = false ->
  fps o = 0 ->
  feed w = Some a :: rest ->
  exists o' w',
    update_loop (S fuel) last (mk_St o w)
    = (Raise (ZeroDivisionError "float division by zero"), mk_St o' w')
    /\ stopped o' = false
    /\ frame o' = Some (next_loc w)
    /\ arrays w' (next_loc w) = a
    /\ feed w' = rest.
Proof.
  intros Hcap Hopen Hrun Hrate Hfeed.
  destruct (update_iteration_publishes o w cap a rest last Hcap Hopen Hfeed)
    as (o' & w' & r & E & Hr & _ & Hfr & _ & _ & Hst & _ & _ & Ha & _ & _ & Hfd & _).
  rewrite Hrate in Hr. simpl in Hr. subst r.
  cbn [update_loop]. run_monad. rewrite Hrun, E.
  exists o', w'. repeat split; auto. congruence.
Qed.


Lemma all_digits_uint d : all_digits (NilEmpty.string_of_uint d) = true.
Proof. induction d; cbn; auto. Qed.

Lemma int_digits_uint_acc d :
  forall p, int_digits (Z.pos p) (NilEmpty.string_of_uint d) = Z.pos (Pos.of_uint_acc d p).
Proof.
  induction d; intros p; cbn [NilEmpty.string_of_uint int_digits Pos.of_uint_acc];
    [reflexivity | ..]; rewrite <- IHd; f_equal; cbn; lia.
Qed.

Lemma int_digits_uint d :
  int_digits 0 (NilEmpty.string_of_uint d) = Z.of_N (Pos.of_uint d).
Proof.
  induction d; cbn [NilEmpty.string_of_uint int_digits Pos.of_uint];
    [reflexivity | exact IHd | ..]; apply (int_digits_uint_acc d).
Qed.

Lemma str_int_nonneg_digits n :
  0 <= n -> isdigit (str_int n) = true /\ int_digits 0 (str_int n) = n.
Proof.
  intros Hn. unfold str_int. destruct n as [|p|p]; [split; reflexivity | | lia].
  cbn [Z.to_int NilZero.string_of_int]. unfold NilZero.string_of_uint.
  pose proof (DecimalPos.Unsigned.to_uint_nonnil p) as Hnil.
  pose proof (DecimalPos.Unsigned.of_to p) as Hp.
  destruct (Pos.to_uint p) eqn:E; try congruence;
    (split; [cbn; apply all_digits_uint | rewrite int_digits_uint, Hp; reflexivity]).
Qed.


End SourceMore.

(** *** The detector *)

Section DetectorMore.
Import YOLODetector Ext Tracks.
Variable Model : Type.
Variable track : Model -> ndarray -> float -> float -> result (list Result) * Model.
Variable render : DrawOp -> ndarray -> ndarray.

(** X8.  The colour of a track has its three channels between 0 and 254,
    whatever the identifier, and a negative identifier gets the colour of
    its absolute value. *)
Theorem get_color_in_range idx :
  let '(b, g, r) := _get_color idx in
  (0 <= b < 255 /\ 0 <= g < 255 /\ 0 <= r < 255)
  /\ _get_color (- idx) = _get_color idx.
Proof.
  unfold _get_color. rewrite Z.abs_opp. split; [|reflexivity].
  repeat split; apply Z.mod_pos_bound; lia.
Qed.

(** A relation kept by every pass of a loop is kept by the loop, whether
    it returns or raises. *)
Lemma for_each_invariant {S A B} (P : S -> S -> Prop) (body : A -> M S B) :
  (forall s, P s s) ->
  (forall s1 s2 s3, P s1 s2 -> P s2 s3 -> P s1 s3) ->
  (forall x s, P s (body x s).2) ->
  forall l s, P s (for_each l body s).2.
Proof.
  intros Hrefl Htrans Hbody l. induction l as [|x l IH]; intros s; [apply Hrefl|].
  cbn [for_each]. unfold mbind, M_bind, bind.
  pose proof (Hbody x s) as H1. destruct (body x s) as [[y|e] s1]; [|exact H1].
  pose proof (IH s1) as H2. destruct (for_each l body s1) as [[ys|e] s2];
    simpl in *; eapply Htrans; eauto.
Qed.

Lemma update_history_bounded tid c h :
  bounded_trails h -> bounded_trails (update_history tid c h).
Proof.
  intros Hb tid' l. destruct (decide (tid = tid')) as [<-|Hne].
  - rewrite update_history_same. intros [= <-]. cbv zeta.
    assert (Hold : (length (default [] (h !! tid)) <= 30)%nat).
    { destruct (h !! tid) as [l0|] eqn:E; simpl; [apply (Hb tid l0 E) | lia]. }
    set (k := (default [] (h !! tid) ++ [c])%list).
    assert (Hk : (1 <= length k <= 31)%nat).
    { subst k. rewrite length_app. simpl. lia. }
    clearbody k. destruct (30 <? length k)%nat eqn:Hlt.
    + apply Nat.ltb_lt in Hlt. destruct k; simpl in *; lia.
    + apply Nat.ltb_ge in Hlt. lia.
  - rewrite update_history_other by done. apply Hb.
Qed.

Lemma keeps_refl limit (s : St Model) : keeps limit s s.
Proof. split; [by intros H | split; auto]. Qed.

Lemma keeps_trans limit (s1 s2 s3 : St Model) :
  keeps limit s1 s2 -> keeps limit s2 s3 -> keeps limit s1 s3.
Proof.
  intros [Ht1 [Hn1 Ha1]] [Ht2 [Hn2 Ha2]]. split; [intros H; auto|].
  split; [lia|]. intros l Hl. rewrite Ha2, Ha1; auto.
Qed.

Lemma bind_keeps {A B} limit (m : M (St Model) A) (k : A -> M (St Model) B) s :
  keeps limit s (m s).2 ->
  (forall x s1, keeps limit s1 (k x s1).2) ->
  keeps limit s ((m ≫= k) s).2.
Proof.
  intros Hm Hk. unfold mbind, M_bind, bind.
  destruct (m s) as [[x|e] s1]; [|exact Hm].
  eapply keeps_trans; [exact Hm | apply Hk].
Qed.

Lemma draw_keeps limit fr op s :
  (limit <= fr)%nat -> keeps limit s (draw Model render fr op s).2.
Proof.
  intros Hfr. split; [by intros H|]. split; [reflexivity|].
  intros l Hl. simpl. assert ((l =? fr)%nat = false) as -> by (apply Nat.eqb_neq; lia).
  reflexivity.
Qed.

Lemma class_name_of_keeps limit class_names cls_id s :
  keeps limit s (class_name_of Model class_names cls_id s).2.
Proof.
  unfold class_name_of. run_monad.
  destruct (int_float cls_id) as [k|e]; simpl; [|apply keeps_refl].
  destruct (class_names !! k); apply keeps_refl.
Qed.

Lemma time_keeps limit s : keeps limit s (ext Model time s).2.
Proof. split; [by intros H | split; [reflexivity | by intros l Hl]]. Qed.

Lemma tracked_box_keeps limit fr class_names item s :
  (limit <= fr)%nat ->
  keeps limit s (tracked_box Model render fr class_names item s).2.
Proof.
  intros Hfr. destruct item as [[[box cls_id] cf] tid]. unfold tracked_box.
  destruct (box_int box) as [[[x1 y1] x2] y2].
  apply bind_keeps; [apply class_name_of_keeps | intros name s1].
  apply bind_keeps; [apply time_keeps | intros now s2].
  apply bind_keeps; [by apply draw_keeps | intros [] s3].
  apply bind_keeps; [by apply draw_keeps | intros [] s4].
  apply bind_keeps.
  { split; [|split; [reflexivity | by intros l Hl]].
    intros H. simpl. by apply update_history_bounded. }
  intros [] s5. apply bind_keeps; [apply keeps_refl | intros pts s6].
  apply bind_keeps; [|intros ? ?; apply keeps_refl].
  apply (for_each_invariant (keeps (Model:=Model) limit)); auto using keeps_refl, draw_keeps.
  apply keeps_trans.
Qed.

Lemma plain_box_keeps limit fr class_names item s :
  (limit <= fr)%nat ->
  keeps limit s (plain_box Model render fr class_names item s).2.
Proof.
  intros Hfr. destruct item as [i [[box cls_id] cf]]. unfold plain_box.
  destruct (box_int box) as [[[x1 y1] x2] y2].
  apply bind_keeps; [apply class_name_of_keeps | intros name s1].
  apply bind_keeps; [apply time_keeps | intros now s2].
  apply bind_keeps; [by apply draw_keeps | intros [] s3].
  apply bind_keeps; [by apply draw_keeps | intros [] s4].
  apply keeps_refl.
Qed.

Lemma copy_keeps frame m' s :
  keeps (next_loc (world Model s)) s
    (mk_St Model (set_model Model m' (self Model s))
       (set_arrays
          (fun l => if (l =? next_loc (world Model s))%nat
                    then arrays (world Model s) frame
                    else arrays (world Model s) l)
          (S (next_loc (world Model s))) (world Model s))).
Proof.
  split; [by intros H|]. split; [simpl; lia|]. intros l Hl. simpl.
  assert ((l =? next_loc (world Model s))%nat = false) as ->
    by (apply Nat.eqb_neq; lia).
  reflexivity.
Qed.

Lemma detect_and_track_keeps frame s :
  keeps (next_loc (world Model s)) s (detect_and_track Model track render frame s).2.
Proof.
  unfold detect_and_track, ext, update_self, copy, alloc. run_monad.
  destruct (model Model (self Model s)) as [m|]; [|apply keeps_refl].
  destruct (track m _ _ _) as [[results|e] m']; simpl;
    [|split; [by intros H | split; [reflexivity | by intros l Hl]]].
  destruct results as [|result rest]; simpl; [apply copy_keeps|].
  destruct (ids (boxes result)) as [tids|].
  - match goal with |- context [for_each ?l ?body ?s1] =>
      pose proof (for_each_invariant (keeps (Model:=Model) (next_loc (world Model s))) body
                    (keeps_refl _) (keeps_trans _)
                    (fun x s0 => tracked_box_keeps _ _ _ x s0 (Nat.le_refl _)) l s1) as H;
      destruct (for_each l body s1) as [[ds|e] s2] end;
    (eapply keeps_trans; [apply (copy_keeps frame (Some m')) | exact H]).
  - match goal with |- context [for_each ?l ?body ?s1] =>
      pose proof (for_each_invariant (keeps (Model:=Model) (next_loc (world Model s))) body
                    (keeps_refl _) (keeps_trans _)
                    (fun x s0 => plain_box_keeps _ _ _ x s0 (Nat.le_refl _)) l s1) as H;
      destruct (for_each l body s1) as [[ds|e] s2] end;
    (eapply keeps_trans; [apply (copy_keeps frame (Some m')) | exact H]).
Qed.

(** X9.  Whatever the engine reports, and whether [detect_and_track]
    returns or raises half-way through the boxes, it leaves every stored
    trail with between 1 and 30 points when they were so before. *)
Theorem detect_and_track_trails_bounded frame s :
  bounded_trails (track_history Model (self Model s)) ->
  bounded_trails
    (track_history Model (self Model (detect_and_track Model track render frame s).2)).
Proof. apply (detect_and_track_keeps frame s). Qed.

(** X10.  [detect_and_track] draws on a copy: no array that existed
    before the call is written, the frame it was given included, whether
    it returns or raises; and the store of arrays only grows. *)
Theorem detect_and_track_draws_on_copy frame s :
  let s' := (detect_and_track Model track render frame s).2 in
  (next_loc (world Model s) <= next_loc (world Model s'))%nat
  /\ forall l, (l < next_loc (world Model s))%nat ->
       arrays (world Model s') l = arrays (world Model s) l.
Proof. apply (detect_and_track_keeps frame s). Qed.

Lemma tracked_loop_history fr class_names items :
  forall (s s' : St Model) ds,
    for_each items (tracked_box Model render fr class_names) s = (Ok ds, s') ->
    track_history Model (self Model s')
    = foldl (fun h (u : Z * (Z * Z)) => update_history u.1 u.2 h)
        (track_history Model (self Model s))
        ((fun item : (float * float * float * float) * float * float * Z =>
            (item.2, center_of (box_int item.1.1.1))) <$> items)
    /\ track_id <$> ds = items.*2
    /\ model Model (self Model s') = model Model (self Model s).
Proof.
  induction items as [|item items IH]; intros s s' ds H.
  - cbn in H. injection H as <- <-. auto.
  - cbn [for_each] in H. unfold mbind, M_bind, bind in H.
    destruct (tracked_box _ _ _ _ item s) as [[d|e] s1] eqn:E1; [|discriminate].
    destruct (for_each items _ s1) as [[ds'|e] s2] eqn:E2; [|discriminate].
    cbn in H. injection H as <- <-.
    destruct item as [[[box cls_id] cf] tid].
    pose proof E1 as E1'.
    apply tracked_box_history in E1 as [Hh Ht].
    apply IH in E2 as (Hh2 & Ht2 & Hm2).
    rewrite !fmap_cons. cbn [foldl fst snd]. rewrite Hh2, Hh, Ht, Ht2, Hm2.
    split; [reflexivity|]. split; [reflexivity|].
    clear - E1'. revert E1'. unfold tracked_box.
    destruct (box_int box) as [[[x1 y1] x2] y2].
    unfold class_name_of, draw, ext, update_self, time, mutate. run_monad.
    destruct (int_float cls_id) as [k|e]; simpl; [|discriminate].
    destruct (class_names !! k) as [name|]; simpl; [|discriminate].
    match goal with |- context [for_each ?ops ?body ?s1] =>
      destruct (for_each_preserves Model body
                  (fun x s => ex_intro _ _ (ex_intro _ _ eq_refl)) ops s1)
        as (ys & w' & E) end.
    rewrite E. simpl. by intros [= _ <-].
Qed.

(** X11.  With a model whose first result carries track identifiers,
    a call that returns hands back a fresh array, one detection per box
    with the identifier of its track, in order, and the trails are those
    before the call with the centre of every box pushed on its track, in
    order; the later results are ignored. *)
Theorem detect_and_track_tracked frame s m m' result rest tids pf dets s' :
  model Model (self Model s) = Some m ->
  track m (arrays (world Model s) frame)
    (conf_threshold Model (self Model s)) (iou_threshold Model (self Model s))
  = (Ok (result :: rest), m') ->
  ids (boxes result) = Some tids ->
  detect_and_track Model track render frame s = (Ok (pf, dets), s') ->
  pf = next_loc (world Model s)
  /\ track_id <$> dets = (tracked_items (boxes result) tids).*2
  /\ track_history Model (self Model s')
     = foldl (fun h (u : Z * (Z * Z)) => update_history u.1 u.2 h)
         (track_history Model (self Model s))
         (tracked_updates (boxes result) tids)
  /\ model Model (self Model s') = Some m'.
Proof.
  intros Hm Ht Hids. unfold detect_and_track, ext, update_self, copy, alloc.
  run_monad. rewrite Hm, Ht. simpl. rewrite Hids.
  match goal with |- context [for_each ?l ?body ?s1] =>
    destruct (for_each l body s1) as [[ds|e] s2] eqn:E end; [|discriminate].
  intros [= <- <- <-]. apply tracked_loop_history in E as (Hh & Htid & Hmod).
  simpl in *. auto.
Qed.

Lemma plain_box_runs fr class_names i box cls_id cf (s s' : St Model) d :
  plain_box Model render fr class_names (i, (box, cls_id, cf)) s = (Ok d, s') ->
  self Model s' = self Model s /\ track_id d = Z.of_nat i.
Proof.
  unfold plain_box. destruct (box_int box) as [[[x1 y1] x2] y2].
  unfold class_name_of, draw, ext, update_self, time, mutate. run_monad.
  destruct (int_float cls_id) as [k|e]; simpl; [|discriminate].
  destruct (class_names !! k) as [name|]; simpl; [|discriminate].
  by intros [= <- <-].
Qed.

Lemma plain_loop_runs fr class_names
    (items : list (nat * ((float * float * float * float) * float * float))) :
  forall (s s' : St Model) ds,
    for_each items (plain_box Model render fr class_names) s = (Ok ds, s') ->
    self Model s' = self Model s
    /\ track_id <$> ds = Z.of_nat <$> items.*1.
Proof.
  induction items as [|item items IH]; intros s s' ds H.
  - cbn in H. injection H as <- <-. auto.
  - cbn [for_each] in H. unfold mbind, M_bind, bind in H.
    destruct (plain_box _ _ _ _ item s) as [[d|e] s1] eqn:E1; [|discriminate].
    destruct (for_each items _ s1) as [[ds'|e] s2] eqn:E2; [|discriminate].
    cbn in H. injection H as <- <-.
    destruct item as [i [[box cls_id] cf]].
    apply plain_box_runs in E1 as [Hs Ht]. apply IH in E2 as [Hs2 Ht2].
    rewrite !fmap_cons, Hs2, Hs, Ht, Ht2. auto.
Qed.

(** X12.  With a model whose first result carries no track identifiers,
    a call that returns hands back a fresh array and one detection per
    box, identified by its position 0, 1, 2, ... in the result, and it
    leaves the trails as they were. *)
Theorem detect_and_track_untracked frame s m m' result rest pf dets s' :
  model Model (self Model s) = Some m ->
  track m (arrays (world Model s) frame)
    (conf_threshold Model (self Model s)) (iou_threshold Model (self Model s))
  = (Ok (result :: rest), m') ->
  ids (boxes result) = None ->
  detect_and_track Model track render frame s = (Ok (pf, dets), s') ->
  pf = next_loc (world Model s)
  /\ track_id <$> dets = Z.of_nat <$> seq 0 (length dets)
  /\ length dets
     = length (zip (zip (xyxy (boxes result)) (cls (boxes result))) (conf (boxes result)))
  /\ track_history Model (self Model s') = track_history Model (self Model s).
Proof.
  intros Hm Ht Hids. unfold detect_and_track, ext, update_self, copy, alloc.
  run_monad. rewrite Hm, Ht. simpl. rewrite Hids.
  match goal with |- context [for_each ?l ?body ?s1] =>
    destruct (for_each l body s1) as [[ds|e] s2] eqn:E end; [|discriminate].
  intros [= <- <- <-]. apply plain_loop_runs in E as (Hs & Htid).
  rewrite Hs. simpl.
  pose proof (f_equal length Htid) as Hlen.
  rewrite !length_fmap, length_imap in Hlen.
  split; [reflexivity|]. split; [|split; [exact Hlen | reflexivity]].
  rewrite Htid, Hlen. f_equal.
  rewrite fmap_imap. unfold compose. simpl.
  rewrite (imap_seq_0 _ (fun j : nat => j)). apply list_fmap_id.
Qed.

Lemma tracked_box_named fr class_names item (s : St Model) :
  named class_names item ->
  exists d s', tracked_box Model render fr class_names item s = (Ok d, s').
Proof.
  intros (k & name & Hk & Hname). destruct item as [[[box cls_id] cf] tid].
  simpl in Hk. unfold tracked_box. destruct (box_int box) as [[[x1 y1] x2] y2].
  unfold class_name_of, draw, ext, update_self, time, mutate. run_monad.
  rewrite Hk. simpl. rewrite Hname. simpl.
  match goal with |- context [for_each ?ops ?body ?s1] =>
    destruct (for_each_preserves Model body
                (fun x s => ex_intro _ _ (ex_intro _ _ eq_refl)) ops s1)
      as (ys & w' & E) end.
  rewrite E. simpl. eauto.
Qed.

Lemma tracked_box_unnamed fr class_names box cls_id cf tid k (s : St Model) :
  int_float cls_id = Ok k -> class_names !! k = None ->
  tracked_box Model render fr class_names (box, cls_id, cf, tid) s
  = (Raise (KeyError (str_int k)), s).
Proof.
  intros Hk Hname. unfold tracked_box. destruct (box_int box) as [[[x1 y1] x2] y2].
  unfold class_name_of. run_monad. rewrite Hk. simpl. rewrite Hname. reflexivity.
Qed.

Lemma for_each_raises {S A B} (body : A -> M S B) l1 x l2 s ds s1 e s2 :
  for_each l1 body s = (Ok ds, s1) ->
  body x s1 = (Raise e, s2) ->
  for_each (l1 ++ x :: l2) body s = (Raise e, s2).
Proof.
  revert s ds. induction l1 as [|y l1 IH]; intros s ds H1 H2.
  - cbn in H1. injection H1 as <- <-. cbn [app for_each].
    unfold mbind, M_bind, bind. by rewrite H2.
  - cbn [app for_each] in *. unfold mbind, M_bind, bind in *.
    destruct (body y s) as [[b|e'] s'] eqn:E; [|discriminate].
    destruct (for_each l1 body s') as [[bs|e'] s''] eqn:E'; [|discriminate].
    cbn in H1. injection H1 as <- <-. by rewrite (IH s' bs E' H2).
Qed.

Lemma tracked_loop_named fr class_names items :
  Forall (named class_names) items ->
  forall s : St Model,
    exists ds s', for_each items (tracked_box Model render fr class_names) s = (Ok ds, s').
Proof.
  induction 1 as [|item items Hitem _ IH]; intros s; [by exists [], s|].
  destruct (tracked_box_named fr class_names item s Hitem) as (d & s1 & E1).
  destruct (IH s1) as (ds & s2 & E2).
  exists (d :: ds), s2. cbn [for_each]. unfold mbind, M_bind, bind.
  by rewrite E1, E2.
Qed.

(** X13.  A box whose class identifier is missing from the names of the
    result aborts the call with [KeyError]; the boxes before it have
    already pushed their centres on the trails, and those pushes stay. *)
Theorem detect_and_track_unknown_class frame s m m' result rest tids
    before box cls_id cf tid after k :
  model Model (self Model s) = Some m ->
  track m (arrays (world Model s) frame)
    (conf_threshold Model (self Model s)) (iou_threshold Model (self Model s))
  = (Ok (result :: rest), m') ->
  ids (boxes result) = Some tids ->
  tracked_items (boxes result) tids = before ++ (box, cls_id, cf, tid) :: after ->
  Forall (named (names result)) before ->
  int_float cls_id = Ok k ->
  names result !! k = None ->
  exists s',
    detect_and_track Model track render frame s = (Raise (KeyError (str_int k)), s')
    /\ track_history Model (self Model s')
       = foldl (fun h (u : Z * (Z * Z)) => update_history u.1 u.2 h)
           (track_history Model (self Model s))
           ((fun item : (float * float * float * float) * float * float * Z =>
               (item.2, center_of (box_int item.1.1.1))) <$> before).
Proof.
  intros Hm Ht Hids Hitems Hbefore Hk Hname.
  unfold detect_and_track, ext, update_self, copy, alloc.
  run_monad. rewrite Hm, Ht. simpl. rewrite Hids.
  unfold tracked_items in Hitems. rewrite Hitems.
  match goal with |- context [for_each _ ?body ?s1] =>
    destruct (tracked_loop_named (next_loc (world Model s)) (names result) before
                Hbefore s1) as (ds & s2 & E);
    rewrite (for_each_raises body before _ after s1 ds s2 _ s2 E
               (tracked_box_unnamed _ _ box cls_id cf tid k s2 Hk Hname)) end.
  eexists. split; [reflexivity|].
  apply tracked_loop_history in E as (Hh & _ & _). exact Hh.
Qed.

End DetectorMore.

(** *** The routes and the processing thread *)

Section AppMore.
Import App Ext.
Variable config : Config.t.
Variable Model : Type.
Variable YOLO : string -> result Model.
Variable track : Model -> ndarray -> float -> float -> result (list YOLODetector.Result) * Model.
Variable render : DrawOp -> ndarray -> ndarray.
Variables CONFIDENCE_THRESHOLD IOU_THRESHOLD : float.
Variable imencode : ndarray -> result string.
Variable here : string.

(** [change_source] to a source that opens. *)
Lemma change_source_available o w new_source :
  can_open w (VideoStream.camera_index new_source) = true ->
  exists o' w' evs,
    VideoStream.change_source config new_source (VideoStream.mk_St o w)
    = (Ok true, VideoStream.mk_St o' w')
    /\ VideoStream.stopped o' = false
    /\ VideoStream.source o' = VideoStream.camera_index new_source
    /\ VideoStream.frame o' = VideoStream.frame o
    /\ events w' = events w ++ evs
    /\ ThreadStart "VideoStream._update" ∈ evs.
Proof.
  intros Hopen. unfold VideoStream.change_source, VideoStream.stop.
  unfold VideoStream.ext at 1 2, VideoStream.update_self at 1 2 3, perform, print.
  run_monad.
  destruct (VideoStream.stream o) as [cap|]; simpl;
    match goal with |- context [VideoStream.start config ?s1] =>
      pose proof (start_available config (VideoStream.self s1) (VideoStream.world s1)) as E
    end;
    cbn [VideoStream.self VideoStream.world] in E; rewrite (E Hopen); clear E; simpl;
    eexists _, _, _; (split; [reflexivity|]); simpl;
    rewrite <- ?app_assoc; repeat split; auto; in_list.
Qed.

(** X14.  [start_stream] on an idle server with a source that opens
    answers success with the source as the request gave it, binds a running
    stream on the camera index or address, raises the active flag and
    starts both the producer and the processing thread; it never touches
    the detector, the storage or the processed frame. *)
Theorem start_stream_source_opens (s : St Model) data :
  let source := default (SrcStr (Config.DEFAULT_STREAM_SOURCE config)) data in
  stream_active Model (globals Model s) = false ->
  can_open (world Model s) (VideoStream.camera_index source) = true ->
  exists s' o' evs,
    start_stream config Model (Some data) s
    = (Ok (mk_Response "success" ("Stream started with source: " ++ str_source source)%string),
       s')
    /\ stream_active Model (globals Model s') = true
    /\ processing_thread Model (globals Model s') = Some "process_frames"
    /\ video_stream Model (globals Model s') = Some o'
    /\ VideoStream.stopped o' = false
    /\ VideoStream.source o' = VideoStream.camera_index source
    /\ yolo_detector Model (globals Model s') = yolo_detector Model (globals Model s)
    /\ detection_storage Model (globals Model s') = detection_storage Model (globals Model s)
    /\ processing_frame Model (globals Model s') = processing_frame Model (globals Model s)
    /\ events (world Model s') = events (world Model s) ++ evs
    /\ ThreadStart "VideoStream._update" ∈ evs
    /\ ThreadStart "process_frames" ∈ evs.
Proof.
  intros source Hidle Hopen. unfold start_stream. run_monad. rewrite Hidle. simpl.
  fold source.
  destruct (video_stream Model (globals Model s)) as [o|] eqn:Hvs.
  - unfold on_video_stream. rewrite Hvs.
    destruct (change_source_available o (world Model s) source Hopen)
      as (o' & w' & evs & E & Hrun & Hsrc & _ & Hev & Hin).
    rewrite E. unfold ext, perform, emit. run_monad.
    eexists _, o', _. split; [reflexivity|]. simpl.
    rewrite Hev, <- app_assoc. repeat split; auto.
    + apply elem_of_app. by left.
    + apply elem_of_app. right. in_list.
  - unfold new_video_stream.
    pose proof (start_available config (VideoStream.init config source) (world Model s))
      as E. cbn [VideoStream.init VideoStream.source] in E.
    rewrite (E Hopen). clear E. unfold ext, perform, emit. run_monad.
    eexists _, _, _. split; [reflexivity|]. simpl.
    rewrite <- app_assoc. repeat split; auto; in_list.
Qed.


(** X16.  [stop_stream] on an active server answers success, lowers the
    active flag, joins the processing thread if one was started and stops
    the stream if one is bound, releasing its capture; the processed frame
    is kept, so viewers go on receiving the frame published last. *)
Theorem stop_stream_active (s : St Model) :
  stream_active Model (globals Model s) = true ->
  exists s',
    stop_stream Model s = (Ok (mk_Response "success" "Stream stopped"), s')
    /\ stream_active Model (globals Model s') = false
    /\ processing_frame Model (globals Model s') = processing_frame Model (globals Model s)
    /\ processing_thread Model (globals Model s') = processing_thread Model (globals Model s)
    /\ match video_stream Model (globals Model s) with
       | Some o => exists o', video_stream Model (globals Model s') = Some o'
                              /\ VideoStream.stopped o' = true
                              /\ VideoStream.frame o' = VideoStream.frame o
       | None => video_stream Model (globals Model s') = None
       end
    /\ events (world Model s')
       = events (world Model s)
         ++ match processing_thread Model (globals Model s) with
            | Some target => [ThreadJoin target]
            | None => []
            end
         ++ match video_stream Model (globals Model s) with
            | Some o => match VideoStream.stream o with
                        | Some cap => [CaptureRelease (VideoStream.cap_source cap)]
                        | None => []
                        end
            | None => []
            end.
Proof.
  intros Hactive. unfold stop_stream. run_monad. rewrite Hactive. simpl.
  unfold ext, perform, emit. run_monad.
  assert (Hstop : forall g w,
            video_stream Model g = video_stream Model (globals Model s) ->
            exists g' w',
              (match video_stream Model (globals Model s) with
               | Some _ => on_video_stream Model "stop" VideoStream.stop
               | None => fun s0 => (Ok tt, s0)
               end) (mk_St Model g w) = (Ok tt, mk_St Model g' w')
              /\ stream_active Model g' = stream_active Model g
              /\ processing_frame Model g' = processing_frame Model g
              /\ processing_thread Model g' = processing_thread Model g
              /\ match video_stream Model (globals Model s) with
                 | Some o => exists o', video_stream Model g' = Some o'
                                        /\ VideoStream.stopped o' = true
                                        /\ VideoStream.frame o' = VideoStream.frame o
                 | None => video_stream Model g' = None
                 end
              /\ events w'
                 = events w
                   ++ match video_stream Model (globals Model s) with
                      | Some o => match VideoStream.stream o with
                                  | Some cap => [CaptureRelease (VideoStream.cap_source cap)]
                                  | None => []
                                  end
                      | None => []
                      end).
  { intros g w Hg. unfold on_video_stream.
    destruct (video_stream Model (globals Model s)) as [o|].
    - unfold VideoStream.stop, VideoStream.ext, VideoStream.update_self, perform, emit.
      run_monad. rewrite Hg. destruct (VideoStream.stream o) as [cap|]; simpl;
        (eexists _, _; split; [reflexivity|]); simpl;
        rewrite ?app_nil_r; repeat split; eauto.
    - exists g, w. rewrite app_nil_r. repeat split; auto. }
  destruct (processing_thread Model (globals Model s)) as [target|] eqn:Hthread; simpl.
  - match goal with |- context [mk_St Model ?g ?w] =>
      destruct (Hstop g w eq_refl) as (g' & w' & E & Ha & Hf & Ht & Hv & Hev) end.
    rewrite E. eexists. split; [reflexivity|]. simpl in *.
    rewrite Ha, Hf, Ht, Hev, <- app_assoc. repeat split; auto.
  - match goal with |- context [mk_St Model ?g ?w] =>
      destruct (Hstop g w eq_refl) as (g' & w' & E & Ha & Hf & Ht & Hv & Hev) end.
    rewrite E. eexists. split; [reflexivity|]. simpl in *.
    rewrite Ha, Hf, Ht, Hev. repeat split; auto.
Qed.

Lemma next_frame_published (s : St Model) l data :
  processing_frame Model (globals Model s) = Some l ->
  imencode (arrays (world Model s) l) = Ok data ->
  next_frame Model imencode s = (Ok (chunk data), s).
Proof.
  intros Hsome Hcodec. unfold next_frame, ext. run_monad. rewrite Hsome. simpl.
  rewrite Hcodec. by destruct s.
Qed.

(** X17.  Once a processed frame is published, every part a viewer pulls
    carries the encoding of the array in the slot as it is at that moment;
    the generator sleeps only between two parts, so that it has slept
    [n - 1] times when the viewer holds [n] parts, and it changes neither the
    globals nor any array: with no pass of the processing thread in between
    the viewer receives the same frame again and again. *)
Theorem generate_frames_serves_published n (s : St Model) l data :
  processing_frame Model (globals Model s) = Some l ->
  imencode (arrays (world Model s) l) = Ok data ->
  exists w',
    generate_frames Model imencode n s
    = (Ok (replicate n (chunk data)), mk_St Model (globals Model s) w')
    /\ arrays w' = arrays (world Model s)
    /\ events w' = events (world Model s) ++ replicate (n - 1) (Sleep 0.033).
Proof.
  revert s. induction n as [|n IH]; intros s Hsome Hcodec.
  - exists (world Model s). rewrite app_nil_r. by destruct s.
  - cbn [generate_frames]. destruct n as [|n].
    + run_monad. rewrite (next_frame_published s l data Hsome Hcodec).
      exists (world Model s). rewrite app_nil_r. by destruct s.
    + set (rest := generate_frames Model imencode (S n)) in *. clearbody rest.
      run_monad. rewrite (next_frame_published s l data Hsome Hcodec).
      unfold ext, perform. run_monad.
      match goal with |- context [rest ?s1] =>
        destruct (IH s1 Hsome Hcodec) as (w' & E & Harr & Hev) end.
      rewrite E. exists w'. split; [reflexivity|]. split; [exact Harr|].
      rewrite Hev. simpl. rewrite Nat.sub_0_r. by rewrite <- app_assoc.
Qed.

Lemma set_video_stream_same (g : Globals Model) o :
  video_stream Model g = Some o -> set_video_stream Model (Some o) g = g.
Proof. destruct g. simpl. by intros ->. Qed.

(** X18.  While the stream has published no frame, a pass of the
    processing thread only prints that it waits and sleeps a tenth of a
    second: the loop goes on for as long as the active flag is up, without
    calling the detector or the storage and without publishing anything. *)
Theorem process_loop_waits_for_frame n (s : St Model) o :
  stream_active Model (globals Model s) = true ->
  video_stream Model (globals Model s) = Some o ->
  VideoStream.frame o = None ->
  exists w',
    process_loop config Model track render n s
    = (Ok Looping, mk_St Model (globals Model s) w')
    /\ arrays w' = arrays (world Model s)
    /\ next_loc w' = next_loc (world Model s)
    /\ events w'
       = events (world Model s)
         ++ concat (replicate n [Print "No frame available, waiting..."; Sleep 0.1]).
Proof.
  intros Hactive Hvs Hframe. revert s Hactive Hvs.
  induction n as [|n IH]; intros s Hactive Hvs.
  - exists (world Model s). rewrite app_nil_r. by destruct s.
  - cbn [process_loop]. run_monad. rewrite Hactive.
    unfold process_iteration, on_video_stream, VideoStream.read. run_monad.
    rewrite Hvs. simpl. rewrite Hframe. simpl.
    rewrite (set_video_stream_same _ _ Hvs).
    unfold ext, print, perform. run_monad.
    match goal with |- context [process_loop _ _ _ _ n ?s1] =>
      destruct (IH s1 Hactive Hvs) as (w' & E & Harr & Hnext & Hev) end.
    rewrite E. exists w'. split; [reflexivity|].
    split; [exact Harr|]. split; [exact Hnext|].
    rewrite Hev. simpl. by rewrite <- !app_assoc.
Qed.

(** X19.  With a detector that holds no model, a pass of the processing
    thread publishes a copy of the stream's frame on which only the rate
    is drawn; the stream's own array is not written, and nothing is stored,
    whether or not a storage object is bound. *)
Theorem process_iteration_without_model (s : St Model) o l d :
  video_stream Model (globals Model s) = Some o ->
  VideoStream.frame o = Some l ->
  yolo_detector Model (globals Model s) = Some d ->
  YOLODetector.model Model d = None ->
  let fresh := next_loc (world Model s) in
  exists w',
    process_iteration config Model track render s
    = (Ok tt, mk_St Model (set_processing_frame Model (Some fresh) (globals Model s)) w')
    /\ arrays w' fresh
       = render (PutFPS (VideoStream.actual_fps o)) (arrays (world Model s) l)
    /\ (forall l0, l0 <> fresh -> arrays w' l0 = arrays (world Model s) l0)
    /\ events w' = events (world Model s) ++ [Sleep 0.01]
    /\ counters w' = counters (world Model s).
Proof.
  intros Hvs Hframe Hdet Hmodel fresh. subst fresh.
  unfold process_iteration, on_video_stream, VideoStream.read. run_monad.
  rewrite Hvs. simpl. rewrite Hframe. simpl.
  unfold on_yolo_detector, YOLODetector.detect_and_track. run_monad.
  rewrite Hdet. simpl. rewrite Hmodel. simpl. unfold ext, perform. run_monad.
  eexists. split.
  - f_equal. f_equal. destruct (globals Model s). simpl in *. by subst.
  - simpl. rewrite Nat.eqb_refl. repeat split; auto.
    intros l0 Hl0. apply Nat.eqb_neq in Hl0. by rewrite Hl0.
Qed.

(** X20.  With no detector bound, as when the application is served
    without [start_server], the first frame kills the processing thread
    with an [AttributeError]; the active flag stays up and the processed
    frame stays as it was, so the server goes on reporting an active
    stream. *)
Theorem process_loop_without_detector n (s : St Model) o l :
  stream_active Model (globals Model s) = true ->
  video_stream Model (globals Model s) = Some o ->
  VideoStream.frame o = Some l ->
  yolo_detector Model (globals Model s) = None ->
  exists w',
    process_loop config Model track render (S n) s
    = (Raise (AttributeError "'NoneType' object has no attribute 'detect_and_track'"),
       mk_St Model (globals Model s) w')
    /\ events w' = events (world Model s).
Proof.
  intros Hactive Hvs Hframe Hdet. cbn [process_loop]. run_monad. rewrite Hactive.
  unfold process_iteration, on_video_stream, VideoStream.read. run_monad.
  rewrite Hvs. simpl. rewrite Hframe. simpl.
  unfold on_yolo_detector. run_monad. rewrite Hdet. simpl.
  rewrite (set_video_stream_same _ _ Hvs).
  eexists. split; [reflexivity|]. reflexivity.
Qed.

(** The constructor of the detector never raises, and only prints. *)
Lemma detector_init_returns model_path conf_t iou_t w :
  exists o evs,
    YOLODetector.init Model YOLO model_path conf_t iou_t w
    = (Ok tt, YOLODetector.mk_St Model o (set_events (events w ++ evs) w))
    /\ Forall (fun ev => exists text, ev = Print text) evs.
Proof.
  unfold YOLODetector.init, YOLODetector.ext, YOLODetector.update_self, print, emit.
  run_monad.
  destruct (YOLO model_path) as [m|e1]; simpl.
  - eexists _, [_]. split; [reflexivity|]. repeat constructor. eauto.
  - destruct (YOLO "yolov8n.pt") as [m|e2]; simpl.
    + eexists _, [_; _]. rewrite <- app_assoc.
      split; [by destruct w|]. repeat constructor; eauto.
    + eexists _, [_; _]. rewrite <- app_assoc.
      split; [by destruct w|]. repeat constructor; eauto.
Qed.

(** X21.  When the default source does not open, [start_server] raises
    the [ValueError] of the stream before the server is reached: the
    detector is bound, the stream and the storage stay as they were, unbound
    at start-up, the active flag is not raised and no thread is started. *)
Theorem start_server_camera_missing (s : St Model) :
  let src := VideoStream.camera_index (SrcStr (Config.DEFAULT_STREAM_SOURCE config)) in
  can_open (world Model s) src = false ->
  exists s' evs,
    start_server config Model YOLO CONFIDENCE_THRESHOLD IOU_THRESHOLD here s
    = (Raise (ValueError ("Could not open video source: " ++ str_source src)%string), s')
    /\ is_Some (yolo_detector Model (globals Model s'))
    /\ video_stream Model (globals Model s') = video_stream Model (globals Model s)
    /\ detection_storage Model (globals Model s')
       = detection_storage Model (globals Model s)
    /\ stream_active Model (globals Model s') = stream_active Model (globals Model s)
    /\ events (world Model s') = events (world Model s) ++ evs
    /\ Forall (fun ev => forall target, ev <> ThreadStart target) evs.
Proof.
  intros src Hclosed. unfold start_server, initialize_components, construct.
  destruct (detector_init_returns (Config.MODEL_PATH config)
              CONFIDENCE_THRESHOLD IOU_THRESHOLD (world Model s))
    as (o & evs & E & Hprints).
  run_monad. rewrite E. simpl. unfold new_video_stream. cbn [world].
  match goal with |- context [VideoStream.start config (VideoStream.mk_St ?o1 ?w1)] =>
    pose proof (start_unavailable config o1 w1) as E1 end.
  cbn [VideoStream.init VideoStream.source can_open set_events] in E1.
  rewrite (E1 Hclosed). clear E1. simpl.
  eexists _, (evs ++ [_]). split; [reflexivity|]. simpl.
  rewrite <- app_assoc. repeat split; eauto.
  apply Forall_app. split.
  - eapply Forall_impl; [exact Hprints|]. intros ev [text ->] target. discriminate.
  - repeat constructor. intros target. discriminate.
Qed.

End AppMore.

(** *** The constructor of the storage *)

Section StorageInit.
Import DetectionStorage Ext.

(** X22.  When the storage directory exists or can be created, the
    constructor returns whatever happens to the counter service: the
    directory exists afterwards, the seen-set is empty, and the connection
    is bound exactly when neither the loading of the credentials nor the
    initialisation of the application raises. *)
Theorem storage_init_outcome here path w :
  path ∈ dirs w \/ raises_next (faults w) = None ->
  let fs := if bool_decide (path ∈ dirs w) then faults w else tail (faults w) in
  let connected :=
    match raises_next fs, raises_next (tail fs) with
    | None, None => true
    | _, _ => false
    end in
  exists o w',
    init here path w = (Ok tt, mk_St o w')
    /\ storage_path o = path
    /\ seen_objects o = ∅
    /\ path ∈ dirs w'
    /\ db_ref o = (if connected then Some "detections" else None)
    /\ firebase_app o = (if connected then Some database_url else None).
Proof.
  intros Hdir. unfold init, ensure_storage_directory, initialize_firebase.
  unfold ext, update_self, call, print, emit. run_monad.
  destruct (bool_decide (path ∈ dirs w)) eqn:Hexists; simpl.
  - apply bool_decide_eq_true in Hexists.
    destruct (faults w) as [|[e|] [|[e'|] rest]]; simpl;
      (eexists _, _; split; [reflexivity|]); simpl; auto.
  - destruct Hdir as [Hdir|Hdir]; [by apply bool_decide_eq_false in Hexists|].
    destruct (faults w) as [|[e0|] fs0]; simpl in *; try discriminate;
      try (destruct fs0 as [|[e|] [|[e'|] rest]]); simpl;
      (eexists _, _; split; [reflexivity|]); simpl;
      repeat split; auto; set_solver.
Qed.

(** X23.  When the storage directory is missing and cannot be created,
    the constructor raises what [os.makedirs] raised, before the counter
    service is contacted: the only external call is the attempt to create
    the directory. *)
Theorem storage_init_directory_failure here path w e rest :
  path ∉ dirs w ->
  faults w = Some e :: rest ->
  exists o w',
    init here path w = (Raise e, mk_St o w')
    /\ events w' = events w ++ [MakeDirs path]
    /\ faults w' = rest
    /\ dirs w' = dirs w
    /\ db_ref o = None.
Proof.
  intros Hdir Hfaults. unfold init, ensure_storage_directory.
  unfold ext, call, emit. run_monad.
  rewrite (bool_decide_eq_false_2 _ Hdir). simpl. rewrite Hfaults. simpl.
  eexists _, _. split; [reflexivity|]. simpl. auto.
Qed.

End StorageInit.

(** *** The dataset downloader *)

Section DownloaderFacts.
Import DatasetDownloader.
Variable file : string.
Variable walk : string -> list (string * list string * list string).
Variable relpath : string -> string -> string.

Ltac run_disk :=
  unfold mbind, D_bind, mret, D_ret, try_except, fail, exists_, strftime in *.

Ltac decide_kind :=
  repeat first [ rewrite bool_decide_eq_true_2 by reflexivity
               | rewrite bool_decide_eq_false_2 by discriminate ].

(** An external call that the schedule lets through. *)
Lemma call_done effect d :
  Forall (eq None) (disk_faults d) ->
  call effect d
  = (Done tt, effect (mk_Disk (present d) (archives d) (now_text d) (tail (disk_faults d))))
  /\ Forall (eq None) (tail (disk_faults d)).
Proof. intros H. unfold call. destruct H as [|? ? <- ?]; cbn [tail]; auto. Qed.

(** X24.  The route answers a dataset type other than [original],
    [mission] and [object-detection] with status 400 and the error pair
    naming the type; it writes no archive and removes nothing from the
    disk. *)
Theorem download_dataset_invalid_type dataset_type d :
  dataset_type ∉ ["original"; "mission"; "object-detection"] ->
  raises_next (disk_faults d) = None ->
  raises_next (tail (disk_faults d)) = None ->
  exists d',
    download_dataset file walk relpath dataset_type d
    = (JsonReply (mk_Response "error"
                    ("Error creating dataset zip: Invalid dataset type: " ++ dataset_type)%string)
                 400, d')
    /\ archives d' = archives d
    /\ present d ⊆ present d'.
Proof.
  intros Htype H1 H2.
  assert (dataset_type <> "original" /\ dataset_type <> "mission"
          /\ dataset_type <> "object-detection") as (Ho & Hm & Hd).
  { repeat split; intros ->; apply Htype; in_list. }
  unfold download_dataset, init, get_dataset, makedirs, call. run_disk.
  destruct (disk_faults d) as [|[e|] [|[e'|] rest]]; simpl in H1, H2; try discriminate;
    cbn [tail disk_faults];
    rewrite !(bool_decide_eq_false_2 _ Ho), !(bool_decide_eq_false_2 _ Hm),
      !(bool_decide_eq_false_2 _ Hd);
    (eexists; split; [reflexivity|]); cbn [archives present]; split; auto;
    set_solver.
Qed.

Lemma dataset_kinds_cases self dataset_type src prefix :
  (dataset_type, (src, prefix)) ∈ dataset_kinds self ->
  (dataset_type = "original" /\ src = Ext.path_join (datasets_dir self) "original"
   /\ prefix = "original_dataset_")
  \/ (dataset_type = "mission" /\ src = Ext.path_join (datasets_dir self) "mission"
      /\ prefix = "mission_dataset_")
  \/ (dataset_type = "object-detection" /\ src = models_dir self
      /\ prefix = "yolo_model_").
Proof.
  unfold dataset_kinds. rewrite !elem_of_cons, elem_of_nil.
  intros [H|[H|[H|[]]]]; injection H as -> -> ->; auto.
Qed.

(** X25.  When the directory of the dataset asked for does not exist,
    [get_dataset] raises an [Exception] whose text names the directory,
    and the disk is left as it was: no archive is created. *)
Theorem get_dataset_missing_source self dataset_type src prefix d :
  (dataset_type, (src, prefix)) ∈ dataset_kinds self ->
  src ∉ present d ->
  get_dataset walk relpath self dataset_type d
  = (Fail (Exception ("Error creating dataset zip: Source path " ++ src
                      ++ " does not exist")%string), d).
Proof.
  intros Hkind Hsrc. apply dataset_kinds_cases in Hkind.
  destruct Hkind as [(-> & -> & ->)|[(-> & -> & ->)|(-> & -> & ->)]];
    unfold get_dataset, create_zip; run_disk; decide_kind;
    rewrite (bool_decide_eq_false_2 _ Hsrc); reflexivity.
Qed.

(** Writing members when no call fails. *)
Lemma zip_write_all_done zip_path l :
  forall d cur,
    archives d !! zip_path = Some cur ->
    Forall (eq None) (disk_faults d) ->
    exists d',
      zip_write_all zip_path l d = (Done tt, d')
      /\ present d' = present d
      /\ archives d' = <[zip_path := (cur ++ l)%list]> (archives d)
      /\ now_text d' = now_text d
      /\ Forall (eq None) (disk_faults d').
Proof.
  induction l as [|member l IH]; intros d cur Hcur Hfaults.
  - exists d. rewrite app_nil_r, insert_id by done. auto.
  - cbn [zip_write_all]. unfold zip_write, call. run_disk.
    assert (Hnext : raises_next (disk_faults d) = None
                    /\ Forall (eq None) (tail (disk_faults d))).
    { destruct Hfaults as [|? ? <- ?]; auto. }
    destruct Hnext as [Hnext Htail].
    destruct (disk_faults d) as [|[e|] fs]; [|discriminate|];
      cbn [tail archives present now_text disk_faults];
      rewrite Hcur; cbn [default];
      match goal with |- context [zip_write_all zip_path l ?d1] =>
        destruct (IH d1 (cur ++ [member])%list) as (d' & E & Hp & Ha & Hn & Hf);
          [apply lookup_insert_eq | exact Htail |] end;
      rewrite E; exists d'; cbn [archives present now_text] in *;
      rewrite Ha, insert_insert_eq, <- app_assoc; auto.
Qed.

(** Writing members when the call for the member at position [k] fails. *)
Lemma zip_write_all_fails zip_path l :
  forall k d cur e rest,
    archives d !! zip_path = Some cur ->
    disk_faults d = (replicate k None ++ Some e :: rest)%list ->
    (k < length l)%nat ->
    exists d',
      zip_write_all zip_path l d = (Fail (Raised e), d')
      /\ present d' = present d
      /\ archives d' !! zip_path = Some (cur ++ take k l)%list
      /\ disk_faults d' = rest.
Proof.
  induction l as [|member l IH]; intros k d cur e rest Hcur Hfaults Hk;
    [simpl in Hk; lia|].
  cbn [zip_write_all]. unfold zip_write, call. run_disk. rewrite Hfaults.
  destruct k as [|k]; cbn [replicate app tail].
  - eexists. split; [reflexivity|]. cbn [archives present disk_faults take].
    rewrite app_nil_r. auto.
  - cbn [archives present now_text disk_faults]. rewrite Hcur. cbn [default].
    match goal with |- context [zip_write_all zip_path l ?d1] =>
      destruct (IH k d1 (cur ++ [member])%list e rest) as (d' & E & Hp & Ha & Hf);
        [apply lookup_insert_eq | reflexivity | simpl in Hk; lia |] end.
    rewrite E. exists d'. cbn [present take] in *.
    rewrite Ha, <- app_assoc. auto.
Qed.

(** An archive written without a failing call. *)
Lemma get_dataset_archives_aux self dataset_type src prefix d :
  (dataset_type, (src, prefix)) ∈ dataset_kinds self ->
  src ∈ present d ->
  Forall (eq None) (disk_faults d) ->
  let zip_name := (prefix ++ now_text d ++ ".zip")%string in
  let zip_path := Ext.path_join (static_dir self) zip_name in
  exists d',
    get_dataset walk relpath self dataset_type d
    = (Done (mk_FileResponse zip_path "application/zip" true zip_name cors_headers), d')
    /\ present d' = {[zip_path]} ∪ present d
    /\ archives d' = <[zip_path := members walk relpath src]> (archives d)
    /\ Forall (eq None) (disk_faults d').
Proof.
  intros Hkind Hsrc Hfaults zip_name zip_path.
  assert (Hnext : raises_next (disk_faults d) = None
                  /\ Forall (eq None) (tail (disk_faults d))).
  { destruct Hfaults as [|? ? <- ?]; auto. }
  destruct Hnext as [Hnext Htail].
  assert (E : exists d',
             create_zip walk relpath self src zip_name d = (Done zip_path, d')
             /\ present d' = {[zip_path]} ∪ present d
             /\ archives d' = <[zip_path := members walk relpath src]> (archives d)
             /\ now_text d' = now_text d
             /\ Forall (eq None) (disk_faults d')).
  { unfold create_zip, call. run_disk. rewrite (bool_decide_eq_true_2 _ Hsrc).
    cbn [negb]. fold zip_path.
    destruct (disk_faults d) as [|[e|] fs]; [|discriminate|];
      match goal with |- context [zip_write_all zip_path ?l ?d1] =>
        destruct (zip_write_all_done zip_path l d1 [])
          as (d' & E & Hp & Ha & Hn & Hf);
          [apply lookup_insert_eq | exact Htail |] end;
      rewrite E; exists d'; cbn [archives present now_text app] in *;
      rewrite Ha, insert_insert_eq; auto. }
  destruct E as (d1 & E & Hp & Ha & Hn & Hf).
  assert (Hsend : exists d',
             send_file zip_path zip_name d1
             = (Done (mk_FileResponse zip_path "application/zip" true zip_name ∅), d')
             /\ present d' = present d1 /\ archives d' = archives d1
             /\ Forall (eq None) (disk_faults d')).
  { unfold send_file, call. run_disk.
    destruct Hf as [|? fs <- ?]; eexists; (split; [reflexivity|]); auto. }
  destruct Hsend as (d2 & Hsend & Hp2 & Ha2 & Hf2).
  exists d2. rewrite Hp2, Ha2, Hp, Ha. split; [|auto].
  apply dataset_kinds_cases in Hkind.
  destruct Hkind as [(-> & -> & ->)|[(-> & -> & ->)|(-> & -> & ->)]];
    unfold get_dataset; run_disk; decide_kind;
    fold zip_name; rewrite E, Hsend; reflexivity.
Qed.

(** X26.  When the directory of the dataset exists and no call fails,
    [get_dataset] writes one archive in the static directory, named by the
    kind of dataset and the time, holding the files found under the
    directory in the order of the walk, and sends it as an attachment of
    that name with the five access-control headers; nothing else on the
    disk changes, and the archive is not removed afterwards. *)
Theorem get_dataset_archives self dataset_type src prefix d :
  (dataset_type, (src, prefix)) ∈ dataset_kinds self ->
  src ∈ present d ->
  Forall (eq None) (disk_faults d) ->
  let zip_name := (prefix ++ now_text d ++ ".zip")%string in
  let zip_path := Ext.path_join (static_dir self) zip_name in
  exists d',
    get_dataset walk relpath self dataset_type d
    = (Done (mk_FileResponse zip_path "application/zip" true zip_name cors_headers), d')
    /\ present d' = {[zip_path]} ∪ present d
    /\ archives d' = <[zip_path := members walk relpath src]> (archives d)
    /\ Forall (eq None) (disk_faults d').
Proof.
  intros Hkind Hsrc Hfaults zip_name zip_path.
  destruct (get_dataset_archives_aux self dataset_type src prefix d Hkind Hsrc Hfaults)
    as (d' & E & Hp & Ha & Hf).
  exists d'. auto.
Qed.

(** X27.  When the write of the member at position [k] fails, the
    [Exception] carries the text of what was raised, and the unfinished
    archive stays on the disk with the [k] members written before. *)
Theorem get_dataset_partial_archive self dataset_type src prefix d k e rest :
  (dataset_type, (src, prefix)) ∈ dataset_kinds self ->
  src ∈ present d ->
  disk_faults d = (None :: replicate k None ++ Some e :: rest)%list ->
  (k < length (members walk relpath src))%nat ->
  let zip_path := Ext.path_join (static_dir self) (prefix ++ now_text d ++ ".zip") in
  exists d',
    get_dataset walk relpath self dataset_type d
    = (Fail (Exception ("Error creating dataset zip: " ++ str_exn e)%string), d')
    /\ zip_path ∈ present d'
    /\ archives d' !! zip_path = Some (take k (members walk relpath src)).
Proof.
  intros Hkind Hsrc Hfaults Hk zip_path.
  assert (E : exists d',
             create_zip walk relpath self src (prefix ++ now_text d ++ ".zip") d
             = (Fail (Raised e), d')
             /\ zip_path ∈ present d'
             /\ archives d' !! zip_path = Some (take k (members walk relpath src))).
  { unfold create_zip, call. run_disk. rewrite (bool_decide_eq_true_2 _ Hsrc).
    cbn [negb]. fold zip_path. rewrite Hfaults. cbn [tail].
    match goal with |- context [zip_write_all zip_path ?l ?d1] =>
      destruct (zip_write_all_fails zip_path l k d1 [] e rest)
        as (d' & E & Hp & Ha & Hf);
        [apply lookup_insert_eq | reflexivity | exact Hk |] end.
    rewrite E. exists d'. cbn [present app] in *. rewrite Hp. split; [reflexivity|].
    split; [apply elem_of_union_l, elem_of_singleton; reflexivity | exact Ha]. }
  destruct E as (d1 & E & Hp & Ha). exists d1. split; [|auto].
  apply dataset_kinds_cases in Hkind.
  destruct Hkind as [(-> & -> & ->)|[(-> & -> & ->)|(-> & -> & ->)]];
    unfold get_dataset; run_disk; decide_kind; rewrite E; reflexivity.
Qed.

Lemma append_assoc (a b c : string) : ((a ++ b) ++ c = a ++ (b ++ c))%string.
Proof.
  induction a as [|x a IH]; [reflexivity|]. rewrite !append_cons. by rewrite IH.
Qed.

Lemma append_empty_r (a : string) : (a ++ "" = a)%string.
Proof. induction a as [|x a IH]; [reflexivity|]. rewrite append_cons. by rewrite IH. Qed.

(** [os.makedirs] creates the directory it is given. *)
Lemma prefixes_self p : forall acc, (acc ++ p)%string ∈ prefixes acc p.
Proof.
  induction p as [|c p IH]; intros acc.
  - rewrite append_empty_r. cbn. by left.
  - assert (Hstep : (acc ++ String c p)%string ∈ prefixes (acc ++ String c "")%string p).
    { specialize (IH (acc ++ String c "")%string).
      by rewrite append_assoc, append_cons, append_empty in IH. }
    destruct (decide (c = "/"%char)) as [->|Hc].
    + cbn [prefixes]. apply elem_of_app. by right.
    + cbn [prefixes].
      destruct c as [[] [] [] [] [] [] [] []]; try exact Hstep. by destruct Hc.
Qed.

(** X28.  The route always finds the directory of the models, which the
    constructor has just created: when no call fails, a request for
    [object-detection] is answered with the archive of that directory. *)
Theorem download_dataset_models d :
  Forall (eq None) (disk_faults d) ->
  exists r d',
    download_dataset file walk relpath "object-detection" d = (FileReply r, d')
    /\ mimetype r = "application/zip"
    /\ headers r = cors_headers
    /\ sent_path r ∈ present d'
    /\ archives d' !! sent_path r
       = Some (members walk relpath
                 (Ext.path_join (Ext.path_join (dirname (dirname file)) "static") "models")).
Proof.
  intros Hfaults. unfold download_dataset, init, makedirs. run_disk.
  set (self := mk _ _ _).
  match goal with |- context [call ?eff d] =>
    destruct (call_done eff d Hfaults) as [E1 Hf1]; rewrite E1; clear E1 end.
  match goal with |- context [call ?eff ?d0] =>
    destruct (call_done eff d0 Hf1) as [E2 Hf2]; rewrite E2; clear E2 end.
  match goal with |- context [get_dataset walk relpath self _ ?d1] =>
    destruct (get_dataset_archives_aux self "object-detection" (models_dir self)
                "yolo_model_" d1) as (d' & E & Hp & Ha & _);
      [ unfold dataset_kinds; in_list
      | cbn [present]; apply elem_of_union_l, elem_of_list_to_set;
        apply (prefixes_self (models_dir self) "")
      | exact Hf2
      | ] end.
  rewrite E. eexists _, d'. split; [reflexivity|]. cbn [mimetype headers sent_path].
  rewrite Hp, Ha, lookup_insert_eq. split; [reflexivity|]. split; [reflexivity|].
  split; [apply elem_of_union_l, elem_of_singleton; reflexivity | reflexivity].
Qed.

End DownloaderFacts.

(** *** The configuration *)

Section ConfigFacts.

Lemma digit_is_plain c :
  is_digit c = true ->
  is_space c = false /\ c <> "-"%char /\ c <> "+"%char /\ Ascii.eqb c "_" = false.
Proof.
  intros H. destruct c as [[] [] [] [] [] [] [] []]; try discriminate H;
    repeat split; discriminate.
Qed.

Lemma rstrip_cons c s :
  is_space c = false -> rstrip s = s -> rstrip (String c s) = String c s.
Proof. intros Hc Hs. cbn [rstrip]. rewrite Hs, Hc. by destruct s. Qed.

Lemma rstrip_digits s : all_digits s = true -> rstrip s = s.
Proof.
  induction s as [|c s IH]; [reflexivity|]. cbn [all_digits].
  intros [Hc Hs]%andb_true_iff. apply rstrip_cons; [apply (digit_is_plain c Hc) | auto].
Qed.

Lemma digitpart_digits s :
  forall after_digit,
    all_digits s = true -> after_digit = true \/ s <> "" ->
    digitpart after_digit s = Some (s, "").
Proof.
  induction s as [|c s IH]; intros after_digit Hs Hne.
  - destruct Hne as [-> | Hne]; [reflexivity | by destruct Hne].
  - cbn [all_digits] in Hs. apply andb_true_iff in Hs as [Hc Hs].
    cbn [digitpart]. rewrite Hc. by rewrite (IH true Hs (or_introl eq_refl)).
Qed.

Lemma grouped_digits_digits s :
  isdigit s = true -> Z.of_nat (String.length s) <= 4300 ->
  grouped_digits s = Some (int_digits 0 s).
Proof.
  intros H Hlen. unfold grouped_digits. rewrite digitpart_digits.
  - by rewrite (proj2 (Z.leb_le _ _) Hlen).
  - by destruct s.
  - right. by destruct s.
Qed.

Lemma int_str_digits s :
  isdigit s = true -> Z.of_nat (String.length s) <= 4300 ->
  int_str s = Some (int_digits 0 s).
Proof.
  intros H Hlen. assert (Hall : all_digits s = true) by (by destruct s).
  unfold int_str, strip. destruct s as [|c s]; [discriminate|].
  cbn [all_digits] in Hall. apply andb_true_iff in Hall as [Hc Hs].
  destruct (digit_is_plain c Hc) as (Hsp & Hm & Hp & _).
  cbn [lstrip]. rewrite Hsp, (rstrip_cons c s Hsp (rstrip_digits s Hs)).
  rewrite <- (grouped_digits_digits (String c s) H Hlen).
  destruct c as [[] [] [] [] [] [] [] []]; first [reflexivity | by destruct Hm | by destruct Hp].
Qed.

(** [int(str(n))] is [n], for a text within the limit of [int]. *)
Lemma int_str_str_int n :
  Z.of_nat (String.length (str_int n)) <= 4300 -> int_str (str_int n) = Some n.
Proof.
  intros Hlen. destruct (Z_lt_le_dec n 0) as [Hneg|Hpos].
  - destruct n as [|p|p]; try lia.
    destruct (str_int_nonneg_digits (Z.pos p) ltac:(lia)) as [Hd Hv].
    change (str_int (Z.neg p)) with (String "-" (str_int (Z.pos p))) in *.
    assert (Hall : all_digits (str_int (Z.pos p)) = true)
      by (by destruct (str_int (Z.pos p))).
    cbn [String.length] in Hlen.
    unfold int_str, strip. cbn [lstrip]. change (is_space "-") with false. cbv iota.
    rewrite (rstrip_cons "-" _ eq_refl (rstrip_digits _ Hall)).
    rewrite (grouped_digits_digits _ Hd) by lia. by rewrite Hv.
  - destruct (str_int_nonneg_digits n Hpos) as [Hd Hv].
    by rewrite (int_str_digits _ Hd Hlen), Hv.
Qed.

(** X29.  The three sizes are read from the environment as the integers
    their texts denote, whatever their sign: importing the configuration
    checks neither that the frame size is positive nor that the rate is not
    0.  With such sizes, written in no more than the 4300 characters that
    [int] accepts, the import fails exactly when the port is no integer text
    or one of the two thresholds is no float text. *)
Theorem config_load_reads_integers environ width height fps :
  environ !! "FRAME_WIDTH" = Some (str_int width) ->
  environ !! "FRAME_HEIGHT" = Some (str_int height) ->
  environ !! "FPS" = Some (str_int fps) ->
  Z.of_nat (String.length (str_int width)) <= 4300 ->
  Z.of_nat (String.length (str_int height)) <= 4300 ->
  Z.of_nat (String.length (str_int fps)) <= 4300 ->
  (is_Some (Config.load environ)
   <-> is_Some (Config.getenv_int environ "PORT" 5000)
       /\ is_Some (Config.getenv_float environ "CONFIDENCE_THRESHOLD")
       /\ is_Some (Config.getenv_float environ "IOU_THRESHOLD"))
  /\ forall c,
       Config.load environ = Some c ->
       Config.FRAME_WIDTH c = width
       /\ Config.FRAME_HEIGHT c = height
       /\ Config.FPS c = fps.
Proof.
  intros Hw Hh Hf Lw Lh Lf. unfold Config.load.
  set (port := Config.getenv_int environ "PORT" 5000).
  set (conf_t := Config.getenv_float environ "CONFIDENCE_THRESHOLD").
  set (iou_t := Config.getenv_float environ "IOU_THRESHOLD").
  unfold Config.getenv_int.
  rewrite Hw, Hh, Hf, (int_str_str_int _ Lw), (int_str_str_int _ Lh), (int_str_str_int _ Lf).
  destruct port as [port|]; destruct conf_t as [[]|]; destruct iou_t as [[]|];
    cbn [mbind option_bind]; (split; [split|]).
  all: first
    [ solve [intros [? H]; discriminate H]
    | solve [intros (H1 & H2 & H3);
             first [ destruct H1 as [? H1]; discriminate H1
                   | destruct H2 as [? H2]; discriminate H2
                   | destruct H3 as [? H3]; discriminate H3 ]]
    | solve [intros _; repeat split; eauto]
    | solve [intros c [= <-]; auto]
    | solve [intros c H; discriminate H] ].
Qed.

End ConfigFacts.

(* ===================================================================== *)
(** ** The further properties on sample inputs *)
(* ===================================================================== *)

Section MoreRuns.
Import Samples Scenes.

Lemma seen_objects_after_calls_witness :
  let s' := (Ledger.record_all config_default
               [(metal5, tiny); (metal5_again, tiny)] ledger0).2 in
  DetectionStorage.seen_objects (DetectionStorage.self s')
  = (if Config.SAVE_DETECTIONS config_default
     then DetectionStorage.seen_objects (DetectionStorage.self ledger0)
          ∪ list_to_set (DetectionStorage.object_id
                           <$> [(metal5, tiny); (metal5_again, tiny)].*1)
     else DetectionStorage.seen_objects (DetectionStorage.self ledger0))
  /\ DetectionStorage.storage_path (DetectionStorage.self s')
     = DetectionStorage.storage_path (DetectionStorage.self ledger0)
  /\ DetectionStorage.db_ref (DetectionStorage.self s')
     = DetectionStorage.db_ref (DetectionStorage.self ledger0).
Proof.
  refine (seen_objects_after_calls config_default
            [(metal5, tiny); (metal5_again, tiny)] ledger0 _).
  repeat constructor; exists 1700000000; vm_compute; reflexivity.
Defined.

Lemma counters_after_calls_witness :
  counters (DetectionStorage.world
              (Ledger.record_all config_default
                 [(metal5, tiny); (metal5_again, tiny)] ledger0).2)
    !! "statistics/wasteTypes/metal"
  = Some 2.
Proof.
  refine (counters_after_calls config_default
            [(metal5, tiny); (metal5_again, tiny)] ledger0 "metal" _ _ _ _).
  - repeat constructor; exists 1700000000; vm_compute; reflexivity.
  - reflexivity.
  - by exists "detections".
  - apply list_elem_of_In. simpl. auto.
Defined.

Lemma detection_files_distinct_witness :
  1700000000 = 1700000000
  /\ class metal5 = class metal5_again
  /\ track_id metal5 = track_id metal5_again.
Proof.
  exact (detection_files_distinct "data" 1700000000 1700000000 metal5 metal5_again ".jpg"
           (or_introl eq_refl) eq_refl).
Defined.

Lemma producer_dies_at_rate_zero_witness :
  exists o' w',
    VideoStream.update_loop 3 0%float
      (VideoStream.mk_St (camera0 config_zero_rate) (Ext.set_feed [Some tiny] world0))
    = (Raise (ZeroDivisionError "float division by zero"), VideoStream.mk_St o' w')
    /\ VideoStream.stopped o' = false
    /\ VideoStream.frame o' = Some 0%nat
    /\ arrays w' 0%nat = tiny
    /\ feed w' = [].
Proof.
  exact (producer_dies_at_rate_zero (camera0 config_zero_rate)
           (Ext.set_feed [Some tiny] world0) (VideoStream.mk_Capture (SrcInt 0) true)
           tiny [] 0%float 2%nat eq_refl eq_refl eq_refl eq_refl eq_refl).
Defined.


Lemma detect_and_track_trails_bounded_witness :
  bounded_trails (∅ : YOLODetector.History)
  /\ bounded_trails
       (YOLODetector.track_history unit
          (YOLODetector.self unit
             (YOLODetector.detect_and_track unit (engine (one_box (Some [5]))) no_render
                0%nat (YOLODetector.mk_St unit detector0 world1)).2)).
Proof.
  assert (H0 : bounded_trails (∅ : YOLODetector.History)).
  { intros tid l H. rewrite lookup_empty in H. discriminate. }
  split; [exact H0|].
  exact (detect_and_track_trails_bounded unit (engine (one_box (Some [5]))) no_render
           0%nat (YOLODetector.mk_St unit detector0 world1) H0).
Defined.

Lemma detect_and_track_tracked_witness :
  let run := YOLODetector.detect_and_track unit (engine (one_box (Some [5]))) no_render
               0%nat (YOLODetector.mk_St unit detector0 world1) in
  YOLODetector.track_history unit (YOLODetector.self unit run.2) !! 5 = Some [(60, 120)]
  /\ YOLODetector.model unit (YOLODetector.self unit run.2) = Some tt.
Proof.
  set (run := YOLODetector.detect_and_track unit (engine (one_box (Some [5]))) no_render
                0%nat (YOLODetector.mk_St unit detector0 world1)).
  destruct (detect_and_track_tracked unit (engine (one_box (Some [5]))) no_render
              0%nat (YOLODetector.mk_St unit detector0 world1) tt tt
              (one_box (Some [5])) [] [5] 1%nat
              (match run.1 with Ok (_, ds) => ds | Raise _ => [] end) run.2
              eq_refl eq_refl eq_refl ltac:(vm_compute; reflexivity))
    as (_ & _ & Hh & Hm).
  split; [|exact Hm]. cbv zeta. fold run. rewrite Hh. vm_compute. reflexivity.
Defined.

Lemma detect_and_track_untracked_witness :
  let run := YOLODetector.detect_and_track unit (engine (one_box None)) no_render
               0%nat (YOLODetector.mk_St unit detector0 world1) in
  YOLODetector.track_history unit (YOLODetector.self unit run.2) = ∅.
Proof.
  set (run := YOLODetector.detect_and_track unit (engine (one_box None)) no_render
                0%nat (YOLODetector.mk_St unit detector0 world1)).
  destruct (detect_and_track_untracked unit (engine (one_box None)) no_render
              0%nat (YOLODetector.mk_St unit detector0 world1) tt tt
              (one_box None) [] 1%nat
              (match run.1 with Ok (_, ds) => ds | Raise _ => [] end) run.2
              eq_refl eq_refl eq_refl ltac:(vm_compute; reflexivity))
    as (_ & _ & _ & Hh).
  exact Hh.
Defined.

Lemma detect_and_track_unknown_class_witness :
  exists s',
    YOLODetector.detect_and_track unit (engine two_boxes) no_render
      0%nat (YOLODetector.mk_St unit detector0 world1)
    = (Raise (KeyError "7"), s')
    /\ YOLODetector.track_history unit (YOLODetector.self unit s') !! 5 = Some [(60, 120)].
Proof.
  destruct (detect_and_track_unknown_class unit (engine two_boxes) no_render
              0%nat (YOLODetector.mk_St unit detector0 world1) tt tt two_boxes [] [5; 6]
              [((10%float, 20%float, 110%float, 220%float), 0%float, 0.9%float, 5)]
              (30%float, 40%float, 50%float, 60%float) 7%float 0.8%float 6 [] 7
              eq_refl eq_refl eq_refl eq_refl
              ltac:(repeat constructor; exists 0, "metal"; split; vm_compute; reflexivity)
              ltac:(vm_compute; reflexivity) ltac:(vm_compute; reflexivity))
    as (s' & E & Hh).
  exists s'. split; [exact E|]. rewrite Hh. vm_compute. reflexivity.
Defined.

Lemma start_stream_source_opens_witness :
  exists s',
    App.start_stream config_default unit (Some (Some (SrcStr "0"))) (App.initial unit world0)
    = (Ok (mk_Response "success" "Stream started with source: 0"), s')
    /\ App.stream_active unit (App.globals unit s') = true
    /\ App.yolo_detector unit (App.globals unit s') = None.
Proof.
  destruct (start_stream_source_opens config_default unit (App.initial unit world0)
              (Some (SrcStr "0")) eq_refl eq_refl)
    as (s' & o' & evs & E & Ha & _ & _ & _ & _ & Hd & _).
  exists s'. auto.
Defined.


Lemma stop_stream_active_witness :
  exists s',
    App.stop_stream unit
      (App.mk_St unit (serving (camera0 config_default) None true) world0)
    = (Ok (mk_Response "success" "Stream stopped"), s')
    /\ App.stream_active unit (App.globals unit s') = false
    /\ events (App.world unit s')
       = [ThreadJoin "process_frames"; CaptureRelease (SrcInt 0)].
Proof.
  destruct (stop_stream_active unit
              (App.mk_St unit (serving (camera0 config_default) None true) world0)
              eq_refl)
    as (s' & E & Ha & _ & _ & _ & Hev).
  exists s'. auto.
Defined.

Lemma generate_frames_serves_published_witness :
  exists w',
    App.generate_frames unit shape_codec 3
      (App.mk_St unit (App.mk unit None None None None (Some 0%nat) false) world1)
    = (Ok [App.chunk "2x2x3"; App.chunk "2x2x3"; App.chunk "2x2x3"],
       App.mk_St unit (App.mk unit None None None None (Some 0%nat) false) w')
    /\ events w' = [Sleep 0.033; Sleep 0.033].
Proof.
  destruct (generate_frames_serves_published unit shape_codec 3
              (App.mk_St unit (App.mk unit None None None None (Some 0%nat) false) world1)
              0%nat "2x2x3" eq_refl eq_refl)
    as (w' & E & _ & Hev).
  exists w'. auto.
Defined.

Lemma process_loop_waits_for_frame_witness :
  exists w',
    App.process_loop config_default unit (engine (one_box None)) no_render 2
      (App.mk_St unit (serving (camera0 config_default) (Some detector0) true) world0)
    = (Ok App.Looping,
       App.mk_St unit (serving (camera0 config_default) (Some detector0) true) w')
    /\ events w'
       = [Print "No frame available, waiting..."; Sleep 0.1;
          Print "No frame available, waiting..."; Sleep 0.1].
Proof.
  destruct (process_loop_waits_for_frame config_default unit (engine (one_box None))
              no_render 2
              (App.mk_St unit (serving (camera0 config_default) (Some detector0) true) world0)
              (camera0 config_default) eq_refl eq_refl eq_refl)
    as (w' & E & _ & _ & Hev).
  exists w'. auto.
Defined.

Lemma process_iteration_without_model_witness :
  exists w',
    App.process_iteration config_default unit (engine (one_box None)) no_render
      (App.mk_St unit
         (serving (camera0_publishing config_default) (Some detector_without_model) true)
         world1)
    = (Ok tt,
       App.mk_St unit
         (App.set_processing_frame unit (Some 1%nat)
            (serving (camera0_publishing config_default) (Some detector_without_model) true))
         w')
    /\ arrays w' 0%nat = tiny
    /\ events w' = [Sleep 0.01].
Proof.
  destruct (process_iteration_without_model config_default unit (engine (one_box None))
              no_render
              (App.mk_St unit
                 (serving (camera0_publishing config_default)
                    (Some detector_without_model) true) world1)
              (camera0_publishing config_default) 0%nat detector_without_model
              eq_refl eq_refl eq_refl eq_refl)
    as (w' & E & _ & Hold & Hev & _).
  exists w'. split; [exact E|]. split; [|exact Hev].
  exact (Hold 0%nat ltac:(discriminate)).
Defined.

Lemma process_loop_without_detector_witness :
  exists w',
    App.process_loop config_default unit (engine (one_box None)) no_render 3
      (App.mk_St unit (serving (camera0_publishing config_default) None true) world1)
    = (Raise (AttributeError "'NoneType' object has no attribute 'detect_and_track'"),
       App.mk_St unit (serving (camera0_publishing config_default) None true) w').
Proof.
  destruct (process_loop_without_detector config_default unit (engine (one_box None))
              no_render 2
              (App.mk_St unit (serving (camera0_publishing config_default) None true) world1)
              (camera0_publishing config_default) 0%nat eq_refl eq_refl eq_refl eq_refl)
    as (w' & E & _).
  by exists w'.
Defined.

Lemma start_server_camera_missing_witness :
  exists s',
    App.start_server config_default unit no_weights 0.5%float 0.45%float "app/utils"
      (App.initial unit world_closed)
    = (Raise (ValueError "Could not open video source: 0"), s')
    /\ App.video_stream unit (App.globals unit s') = None
    /\ App.stream_active unit (App.globals unit s') = false.
Proof.
  destruct (start_server_camera_missing config_default unit no_weights
              0.5%float 0.45%float "app/utils" (App.initial unit world_closed) eq_refl)
    as (s' & evs & E & _ & Hv & _ & Ha & _).
  exists s'. auto.
Defined.

Lemma storage_init_outcome_witness :
  exists o w',
    DetectionStorage.init "app/utils" "data"
      (Ext.set_faults [None; Some (ExternalError "no credentials")] world0)
    = (Ok tt, DetectionStorage.mk_St o w')
    /\ DetectionStorage.db_ref o = None.
Proof.
  destruct (storage_init_outcome "app/utils" "data"
              (Ext.set_faults [None; Some (ExternalError "no credentials")] world0)
              (or_intror eq_refl))
    as (o & w' & E & _ & _ & _ & Href & _).
  exists o, w'. auto.
Defined.

Lemma storage_init_directory_failure_witness :
  exists o w',
    DetectionStorage.init "app/utils" "data"
      (Ext.set_faults [Some (ExternalError "Permission denied")] world0)
    = (Raise (ExternalError "Permission denied"), DetectionStorage.mk_St o w')
    /\ events w' = [MakeDirs "data"].
Proof.
  destruct (storage_init_directory_failure "app/utils" "data"
              (Ext.set_faults [Some (ExternalError "Permission denied")] world0)
              (ExternalError "Permission denied") []
              ltac:(apply not_elem_of_empty) eq_refl)
    as (o & w' & E & Hev & _).
  exists o, w'. auto.
Defined.

Lemma download_dataset_invalid_type_witness :
  exists d',
    DatasetDownloader.download_dataset "app/utils/dataset_downloader.py" walk0 relpath0
      "model" disk0
    = (JsonReply (mk_Response "error"
                    "Error creating dataset zip: Invalid dataset type: model") 400, d')
    /\ archives d' = ∅.
Proof.
  destruct (download_dataset_invalid_type "app/utils/dataset_downloader.py" walk0 relpath0
              "model" disk0
              ltac:(intros H%list_elem_of_In; simpl in H;
                    repeat (destruct H as [H|H]; [discriminate H|]); exact H)
              eq_refl eq_refl)
    as (d' & E & Ha & _).
  exists d'. auto.
Defined.

Lemma get_dataset_missing_source_witness :
  DatasetDownloader.get_dataset walk0 relpath0 downloader0 "original" disk0
  = (DatasetDownloader.Fail
       (DatasetDownloader.Exception
          "Error creating dataset zip: Source path app/static/datasets/original does not exist"),
     disk0).
Proof.
  exact (get_dataset_missing_source walk0 relpath0 downloader0 "original"
           "app/static/datasets/original" "original_dataset_" disk0
           ltac:(apply list_elem_of_In; simpl; auto)
           ltac:(unfold disk0; cbn [present]; intros H%elem_of_singleton; discriminate H)).
Defined.

Lemma get_dataset_archives_witness :
  exists d',
    DatasetDownloader.get_dataset walk0 relpath0 downloader0 "mission" disk0
    = (DatasetDownloader.Done
         (mk_FileResponse "app/static/mission_dataset_20240101_120000.zip"
            "application/zip" true "mission_dataset_20240101_120000.zip" cors_headers),
       d')
    /\ archives d' !! "app/static/mission_dataset_20240101_120000.zip"
       = Some [("app/static/datasets/mission/a.jpg", "a.jpg");
               ("app/static/datasets/mission/a.txt", "a.txt")].
Proof.
  destruct (get_dataset_archives walk0 relpath0 downloader0 "mission"
              "app/static/datasets/mission" "mission_dataset_" disk0
              ltac:(apply list_elem_of_In; simpl; auto)
              ltac:(cbn [present disk0]; apply elem_of_singleton; reflexivity)
              ltac:(constructor))
    as (d' & E & _ & Ha & _).
  exists d'. split; [exact E|]. rewrite Ha. apply lookup_insert_eq.
Defined.

Lemma get_dataset_partial_archive_witness :
  exists d',
    DatasetDownloader.get_dataset walk0 relpath0 downloader0 "mission"
      (mk_Disk {["app/static/datasets/mission"]} ∅ "20240101_120000"
         [None; None; Some (ExternalError "No space left on device")])
    = (DatasetDownloader.Fail
         (DatasetDownloader.Exception
            "Error creating dataset zip: No space left on device"), d')
    /\ archives d' !! "app/static/mission_dataset_20240101_120000.zip"
       = Some [("app/static/datasets/mission/a.jpg", "a.jpg")].
Proof.
  destruct (get_dataset_partial_archive walk0 relpath0 downloader0 "mission"
              "app/static/datasets/mission" "mission_dataset_"
              (mk_Disk {["app/static/datasets/mission"]} ∅ "20240101_120000"
                 [None; None; Some (ExternalError "No space left on device")])
              1%nat (ExternalError "No space left on device") []
              ltac:(apply list_elem_of_In; simpl; auto)
              ltac:(cbn [present disk0]; apply elem_of_singleton; reflexivity)
              eq_refl
              ltac:(vm_compute; lia))
    as (d' & E & _ & Ha).
  exists d'. auto.
Defined.

Lemma download_dataset_models_witness :
  exists r d',
    DatasetDownloader.download_dataset "app/utils/dataset_downloader.py" walk0 relpath0
      "object-detection" disk0
    = (FileReply r, d')
    /\ mimetype r = "application/zip"
    /\ archives d' !! sent_path r
       = Some [("app/static/models/a.jpg", "a.jpg"); ("app/static/models/a.txt", "a.txt")].
Proof.
  destruct (download_dataset_models "app/utils/dataset_downloader.py" walk0 relpath0 disk0
              ltac:(constructor))
    as (r & d' & E & Hm & _ & _ & Ha).
  exists r, d'. split; [exact E|]. split; [exact Hm | exact Ha].
Defined.

Lemma config_load_reads_integers_witness :
  exists c,
    Config.load {["FRAME_WIDTH" := "1280"; "FRAME_HEIGHT" := "720"; "FPS" := "0";
                  "PORT" := " 8_080 "; "IOU_THRESHOLD" := "4.5e-1"]} = Some c
    /\ Config.FRAME_WIDTH c = 1280
    /\ Config.FRAME_HEIGHT c = 720
    /\ Config.FPS c = 0.
Proof.
  destruct (config_load_reads_integers
              {["FRAME_WIDTH" := "1280"; "FRAME_HEIGHT" := "720"; "FPS" := "0";
                "PORT" := " 8_080 "; "IOU_THRESHOLD" := "4.5e-1"]}
              1280 720 0) as [Hiff Hval];
    [vm_compute; reflexivity | vm_compute; reflexivity | vm_compute; reflexivity
    | vm_compute; discriminate | vm_compute; discriminate | vm_compute; discriminate |].
  destruct (proj2 Hiff) as [c Hc].
  - split; [exists 8080; vm_compute; reflexivity|].
    split; exists tt; vm_compute; reflexivity.
  - exists c. split; [exact Hc | exact (Hval c Hc)].
Defined.

(** The import fails on a port, or on a threshold, that is no number. *)
Example config_load_malformed :
  Config.load {["PORT" := "abc"]} = None
  /\ Config.load {["CONFIDENCE_THRESHOLD" := "high"]} = None
  /\ Config.load {["IOU_THRESHOLD" := "0,45"]} = None
  /\ Config.load {["FPS" := "30.0"]} = None.
Proof. vm_compute. repeat split. Qed.

End MoreRuns.
